(** * Market-Simulator: the ledger of [marketsimcode.compute_portvals]

    A shallow embedding of [src/marketsimcode.py].  The three pandas frames
    [data_1] (prices and a unit [Cash] column), [data_2] (per-day deltas) and
    [data_3] (running holdings) are lists of rows indexed by a date; a row
    maps a column label to a number.

    Numbers: the Python floats are read as exact rationals ([Qc], canonical
    fractions), so every statement below is about the arithmetic the code
    writes down, not about its rounding.

    Dates: a well-formed ['YYYY-MM-DD'] string is identified with its day
    number ([Z]); [timedelta(days = 1)] is [1].

    The two producers of order frames in
    [src/market_simulator/TheoreticallyOptimalStrategy.py], [testPolicy]
    and [benchmark], are embedded as well, and their rows are run through
    the ledger. *)

From Stdlib Require Import ZArith QArith Qcanon List String Bool Lia.
From Stdlib Require Import Sorted Permutation.
Import ListNotations.

Open Scope Z_scope.
Open Scope Qc_scope.

(** ** Python results and exceptions *)

(** An exception is identified by the name of its class. *)
Definition exn := string.

Definition IndexError : exn := "IndexError"%string.
Definition KeyError : exn := "KeyError"%string.

Inductive result (A : Type) : Type :=
| Ok (a : A)
| Raise (e : exn).
Arguments Ok {A} a.
Arguments Raise {A} e.

(** ** Orders *)

(** One row of [orders_df].  [Order] is [None] where the frame holds NaN
    (the trade-list generator leaves the side of its last row unset). *)
Record order : Type := mk_order {
  Date : Z;
  Symbol : string;
  Order : option string;
  Shares : Qc
}.

(** ** Frames *)

(** Column labels of the three frames: one per traded symbol, then ['Cash']
    (the bookkeeping column; no ticker has that name). *)
Inductive col : Type :=
| Sym (s : string)
| Cash.

Definition col_eqb (a b : col) : bool :=
  match a, b with
  | Sym s, Sym t => String.eqb s t
  | Cash, Cash => true
  | _, _ => false
  end.

(** A row gives each column its number; a label that is not a column of the
    frame reads as [0]. *)
Definition row := col -> Qc.

Definition frame := list (Z * row).

Definition index (df : frame) : list Z := map fst df.

Definition upd (r : row) (c : col) (v : Qc) : row :=
  fun c' => if col_eqb c c' then v else r c'.

(** The symbol columns of [r] overwritten with those of [v] ([:-1]). *)
Definition upd_syms (r v : row) : row :=
  fun c => match c with
           | Sym _ => v c
           | Cash => r Cash
           end.

(** [df[c] = v]: a whole column set to one scalar. *)
Definition set_col (df : frame) (c : col) (v : Qc) : frame :=
  map (fun dr => (fst dr, upd (snd dr) c v)) df.

(** [df[symbols] = v]. *)
Definition set_cols (df : frame) (symbols : list string) (v : Qc) : frame :=
  fold_left (fun acc s => set_col acc (Sym s) v) symbols df.

(** [df.loc[date, c]] read: the label must be in the index. *)
Fixpoint loc (df : frame) (date : Z) (c : col) : result Qc :=
  match df with
  | [] => Raise KeyError
  | (d, r) :: rest => if Z.eqb d date then Ok (r c) else loc rest date c
  end.

(** [df.loc[date, c] = v].  The code only writes a label it has just read,
    so the write never has to add a row. *)
Fixpoint loc_set (df : frame) (date : Z) (c : col) (v : Qc) : frame :=
  match df with
  | [] => []
  | (d, r) :: rest =>
      if Z.eqb d date then (d, upd r c v) :: rest
      else (d, r) :: loc_set rest date c v
  end.

(** [df.iloc[i]] as a whole row. *)
Definition iloc (df : frame) (i : nat) : result row :=
  match nth_error df i with
  | Some dr => Ok (snd dr)
  | None => Raise IndexError
  end.

(** Row [i] rewritten by [f], its label kept; [iloc] cannot enlarge. *)
Fixpoint iloc_upd (df : frame) (i : nat) (f : row -> row) : result frame :=
  match df, i with
  | [], _ => Raise IndexError
  | (d, r) :: rest, O => Ok ((d, f r) :: rest)
  | dr :: rest, S j =>
      match iloc_upd rest j f with
      | Ok rest' => Ok (dr :: rest')
      | Raise e => Raise e
      end
  end.

(** [orders_df['Symbol'].unique()]: first occurrences, in order. *)
Fixpoint unique (l : list string) : list string :=
  match l with
  | [] => []
  | s :: rest =>
      s :: filter (fun t => negb (String.eqb s t)) (unique rest)
  end.

(** [pd.date_range(lo, hi)]: every calendar day from [lo] to [hi]. *)
Definition date_range (lo hi : Z) : list Z :=
  map (fun k => (lo + Z.of_nat k)%Z) (seq 0 (Z.to_nat (hi - lo + 1))).

(** The columns of a frame once ['Cash'] has been added. *)
Definition columns (symbols : list string) : list col :=
  map Sym symbols ++ [Cash].

(** [(a * b).sum(axis = 1)] on two frames with the same labels. *)
Definition row_dot (symbols : list string) (a b : row) : Qc :=
  fold_right (fun c acc => a c * b c + acc) 0 (columns symbols).

Definition mul_sum (symbols : list string) (a b : frame) : list (Z * Qc) :=
  map (fun p => (fst (fst p), row_dot symbols (snd (fst p)) (snd (snd p))))
      (combine a b).

(** ** The objects of one call *)

(** [orders_df] is the caller's object; the three frames are bound as the
    call proceeds ([None]: not yet bound). *)
Record heap : Type := mk_heap {
  orders_df : list order;
  data_1 : option frame;
  data_2 : option frame;
  data_3 : option frame
}.

Definition init_heap (orders : list order) : heap :=
  mk_heap orders None None None.

(** The names under which the frames are passed around. *)
Inductive ref : Type := Data1 | Data2 | Data3.

Definition deref (h : heap) (x : ref) : option frame :=
  match x with
  | Data1 => data_1 h
  | Data2 => data_2 h
  | Data3 => data_3 h
  end.

Definition assign (h : heap) (x : ref) (df : frame) : heap :=
  match x with
  | Data1 => mk_heap (orders_df h) (Some df) (data_2 h) (data_3 h)
  | Data2 => mk_heap (orders_df h) (data_1 h) (Some df) (data_3 h)
  | Data3 => mk_heap (orders_df h) (data_1 h) (data_2 h) (Some df)
  end.

(** A statement: it runs on the heap, and returns or raises. *)
Definition M (A : Type) : Type := heap -> result A * heap.

Definition ret {A} (a : A) : M A := fun h => (Ok a, h).
Definition bind {A B} (m : M A) (k : A -> M B) : M B :=
  fun h =>
    match m h with
    | (Ok a, h') => k a h'
    | (Raise e, h') => (Raise e, h')
    end.

Notation "x <- m ;; k" := (bind m (fun x => k))
  (at level 100, m at next level, right associativity).
Notation "m ;;; k" := (bind m (fun _ => k))
  (at level 100, right associativity).

Definition lift {A} (r : result A) : M A := fun h => (r, h).

Definition read_orders : M (list order) := fun h => (Ok (orders_df h), h).

(** A frame read through its name; the code never reads an unbound one. *)
Definition get_frame (x : ref) : M frame :=
  fun h =>
    match deref h x with
    | Some df => (Ok df, h)
    | None => (Raise "UnboundLocalError"%string, h)
    end.

Definition put_frame (x : ref) (df : frame) : M unit :=
  fun h => (Ok tt, assign h x df).

Definition loc_get (x : ref) (date : Z) (c : col) : M Qc :=
  df <- get_frame x ;; lift (loc df date c).

Definition loc_put (x : ref) (date : Z) (c : col) (v : Qc) : M unit :=
  df <- get_frame x ;; put_frame x (loc_set df date c v).

Definition iloc_get (x : ref) (i : nat) : M row :=
  df <- get_frame x ;; lift (iloc df i).

Definition iloc_put (x : ref) (i : nat) (f : row -> row) : M unit :=
  df <- get_frame x ;;
  df' <- lift (iloc_upd df i f) ;;
  put_frame x df'.

(** [for x in l: body x]. *)
Fixpoint for_each {A} (l : list A) (body : A -> M unit) : M unit :=
  match l with
  | [] => ret tt
  | x :: rest => body x ;;; for_each rest body
  end.

(** ** [calculate_data_2] (lines 47-49) *)
Definition calculate_data_2 (df df_2 : ref) (date : Z) (symbol : string)
    (shares impact commission buy_or_sell : Qc) : M unit :=
  x <- loc_get df date (Sym symbol) ;;
  loc_put df date (Sym symbol) (x + (- buy_or_sell) * shares) ;;;
  c <- loc_get df date Cash ;;
  p <- loc_get df_2 date (Sym symbol) ;;
  loc_put df date Cash (c + (p * shares * (buy_or_sell - impact)) - commission).

(** [orders_df.where(orders_df['Order'] == 'SELL').dropna()] *)
Definition is_sell (o : order) : bool :=
  match Order o with
  | Some s => String.eqb s "SELL"
  | None => false
  end.

(** [orders_df.where(orders_df['Order'] != 'SELL').dropna()]: the rows
    whose side is present and is not ['SELL']. *)
Definition is_buy (o : order) : bool :=
  match Order o with
  | Some s => negb (String.eqb s "SELL")
  | None => false
  end.

(** Lines 51-77: the sell orders are applied first, then all the others. *)
Definition apply_sell_then_buy (orders : list order)
    (impact commission : Qc) : M unit :=
  for_each (filter is_sell orders) (fun sell_order =>
    calculate_data_2 Data2 Data1 (Date sell_order) (Symbol sell_order)
      (Shares sell_order) impact commission 1) ;;;
  for_each (filter is_buy orders) (fun buy_order =>
    calculate_data_2 Data2 Data1 (Date buy_order) (Symbol buy_order)
      (Shares buy_order) impact commission (- (1))).

(** ** [edit_data_3_rows] (lines 82-84); [index] is at least 1 in its
    only call, so [index - 1] never wraps around. *)
Definition edit_data_3_rows (df df_2 : ref) (idx : nat) : M unit :=
  a <- iloc_get df_2 idx ;;
  b <- iloc_get df (idx - 1) ;;
  iloc_put df idx (fun r => upd_syms r (fun c => a c + b c)) ;;;
  a <- iloc_get df_2 idx ;;
  b <- iloc_get df (idx - 1) ;;
  iloc_put df idx (fun r => upd r Cash (a Cash + b Cash)).

Section PriceSource.

(** Modelled from the spec: [util.get_data] is imported but not part of the
    sources.  Per section 4.4 the provider returns, for the requested
    symbols, one price per symbol on every day of the range on which the
    market traded, in date order.  [is_trading] says which days exist and
    [adj_close] is the filled price table. *)
Variable is_trading : Z -> bool.
Variable adj_close : Z -> string -> Qc.

Definition price_row (symbols : list string) (d : Z) : row :=
  fun c => match c with
           | Sym s => if existsb (String.eqb s) symbols
                      then adj_close d s else 0
           | Cash => 0
           end.

Definition get_data (symbols : list string) (dates : list Z) : frame :=
  map (fun d => (d, price_row symbols d)) (filter is_trading dates).

(** ** [compute_portvals] (lines 7-90) *)
Definition compute_portvals (start_val commission impact : Qc)
    : M (list (Z * Qc)) :=
  orders <- read_orders ;;
  begin_date <- lift (match orders with
                      | [] => Raise IndexError
                      | o :: _ => Ok (Date o)
                      end) ;;
  end_date <- lift (match orders with
                    | [] => Raise IndexError
                    | o :: rest => Ok (Date (last rest o))
                    end) ;;
  let unique_symbols := unique (map Symbol orders) in
  let dates := date_range (begin_date - 1) end_date in
  put_frame Data1 (get_data unique_symbols dates) ;;;
  df <- get_frame Data1 ;; put_frame Data1 (set_col df Cash 1) ;;;
  put_frame Data2 (get_data unique_symbols dates) ;;;
  df <- get_frame Data2 ;; put_frame Data2 (set_col df Cash 0) ;;;
  df <- get_frame Data2 ;; put_frame Data2 (set_cols df unique_symbols 0) ;;;
  put_frame Data3 (get_data unique_symbols dates) ;;;
  df <- get_frame Data3 ;; put_frame Data3 (set_col df Cash 0) ;;;
  iloc_put Data3 0 (fun r => upd r Cash start_val) ;;;
  df <- get_frame Data3 ;; put_frame Data3 (set_cols df unique_symbols 0) ;;;
  apply_sell_then_buy orders impact commission ;;;
  r2 <- iloc_get Data2 0 ;;
  iloc_put Data3 0 (fun r => upd_syms r r2) ;;;
  r3 <- iloc_get Data3 0 ;;
  r2 <- iloc_get Data2 0 ;;
  iloc_put Data3 0 (fun r => upd r Cash (r3 Cash + r2 Cash)) ;;;
  df <- get_frame Data3 ;;
  for_each (seq 1 (List.length df - 1)) (edit_data_3_rows Data3 Data2) ;;;
  d1 <- get_frame Data1 ;;
  d3 <- get_frame Data3 ;;
  ret (mul_sum unique_symbols d1 d3).

End PriceSource.

(** ** Concrete runs *)

Definition qz (z : Z) : Qc := Q2Qc (inject_Z z).

Definition every_day (d : Z) : bool := true.

Definition flat50 (d : Z) (s : string) : Qc := qz 50.
Definition rising (d : Z) (s : string) : Qc := qz (48 + 2 * d).

Definition buy (d : Z) (s : string) (n : Z) : order :=
  mk_order d s (Some "BUY"%string) (qz n).
Definition sell (d : Z) (s : string) (n : Z) : order :=
  mk_order d s (Some "SELL"%string) (qz n).

Definition run (tr : Z -> bool) (pr : Z -> string -> Qc)
    (orders : list order) (sv c i : Qc) : result (list (Z * Qc)) :=
  fst (compute_portvals tr pr sv c i (init_heap orders)).

(** The series of a run as plain fractions, for reading off values. *)
Definition readout (r : result (list (Z * Qc))) : result (list (Z * Q)) :=
  match r with
  | Ok l => Ok (map (fun p => (fst p, this (snd p))) l)
  | Raise e => Raise e
  end.


(** ** Reading frames *)

(** [df.loc[date, c]] where the label is known to be there. *)
Definition cell (df : frame) (date : Z) (c : col) : Qc :=
  match loc df date c with
  | Ok v => v
  | Raise _ => 0
  end.

Definition has_date (df : frame) (date : Z) : bool :=
  existsb (Z.eqb date) (index df).

Definition sumQ (l : list Qc) : Qc := fold_right Qcplus 0 l.

(** What one call of [calculate_data_2] adds to the row of its date:
    [d1] is the price frame, [bos] the last argument of the call. *)
Definition order_delta (d1 : frame) (impact commission bos : Qc)
    (o : order) (c : col) : Qc :=
  match c with
  | Sym s => if String.eqb (Symbol o) s then (- bos) * Shares o else 0
  | Cash => cell d1 (Date o) (Sym (Symbol o)) * Shares o * (bos - impact)
            - commission
  end.

(** The frame [calculate_data_2] leaves behind when the date is a label. *)
Definition post (d1 : frame) (impact commission bos : Qc)
    (df : frame) (o : order) : frame :=
  let df' := loc_set df (Date o) (Sym (Symbol o))
               (cell df (Date o) (Sym (Symbol o)) + (- bos) * Shares o) in
  loc_set df' (Date o) Cash
    (cell df' (Date o) Cash
     + cell d1 (Date o) (Sym (Symbol o)) * Shares o * (bos - impact)
     - commission).

(** Row [index] as [edit_data_3_rows] leaves it: [r] is the row before,
    [r2] the row of [data_2], [prev] the row above. *)
Definition next_row (r r2 prev : row) : row :=
  upd (upd_syms r (fun c => r2 c + prev c)) Cash (r2 Cash + prev Cash).

(** The rows under [prev] once the loop of lines 86-87 has run over them. *)
Fixpoint scan (prev : row) (d3 d2 : frame) : frame :=
  match d3, d2 with
  | (d, r) :: rest3, (_, r2) :: rest2 =>
      (d, next_row r r2 prev) :: scan (next_row r r2 prev) rest3 rest2
  | _, _ => d3
  end.

(** One pass of [apply] with a fixed last argument [bos]. *)
Definition pass (bos impact commission : Qc) (l : list order) : M unit :=
  for_each l (fun o =>
    calculate_data_2 Data2 Data1 (Date o) (Symbol o) (Shares o)
      impact commission bos).

(** ** The frames of a run, written out

    What [compute_portvals] binds to [data_1], [data_2] and [data_3] when it
    does not raise; the lemmas of the section on whole runs prove it. *)

Definition upd_many (r : row) (symbols : list string) (v : Qc) : row :=
  fold_left (fun acc s => upd acc (Sym s) v) symbols r.

Definition seed_row (r3 r2 : row) : row :=
  upd (upd_syms r3 r2) Cash (upd_syms r3 r2 Cash + r2 Cash).

Definition has_side (o : order) : bool :=
  match Order o with
  | Some _ => true
  | None => false
  end.

(** [data_3] after lines 79-87, from [data_3] and [data_2] before them. *)
Definition ledger_of (d3 d2 : frame) : frame :=
  match d3, d2 with
  | (d0, r3) :: rest3, (_, r2) :: rest2 =>
      (d0, seed_row r3 r2) :: scan (seed_row r3 r2) rest3 rest2
  | _, _ => []
  end.

Section Frames.

Variable is_trading : Z -> bool.
Variable adj_close : Z -> string -> Qc.

Definition symbols_of (orders : list order) : list string :=
  unique (map Symbol orders).

(** The labels of the three frames: the trading days from the day before
    the first row's date to the last row's date. *)
Definition window (orders : list order) : list Z :=
  match orders with
  | [] => []
  | o :: rest =>
      filter is_trading (date_range (Date o - 1) (Date (last rest o)))
  end.

(** Every row with a side is dated on a label of the frames. *)
Definition dates_ok (orders : list order) : Prop :=
  Forall (fun x => In (Date x) (window orders)) (filter has_side orders).

(** How a run ends, read off the orders: no order or no trading day in
    the range is an [IndexError], a sided row off the labels a [KeyError]. *)
Definition predicted_outcome (orders : list order) : option exn :=
  match orders with
  | [] => Some IndexError
  | _ :: _ =>
      match window orders with
      | [] => Some IndexError
      | _ :: _ =>
          if forallb (fun d => existsb (Z.eqb d) (window orders))
               (map Date (filter has_side orders))
          then None else Some KeyError
      end
  end.

Definition zero_row (symbols : list string) (d : Z) : row :=
  upd_many (upd (price_row adj_close symbols d) Cash 0) symbols 0.

Definition prices_frame (orders : list order) : frame :=
  map (fun d => (d, upd (price_row adj_close (symbols_of orders) d) Cash 1))
      (window orders).

Definition deltas_0 (orders : list order) : frame :=
  map (fun d => (d, zero_row (symbols_of orders) d)) (window orders).

Definition deltas (orders : list order) (impact commission : Qc) : frame :=
  fold_left (post (prices_frame orders) impact commission (- (1)))
    (filter is_buy orders)
    (fold_left (post (prices_frame orders) impact commission 1)
       (filter is_sell orders) (deltas_0 orders)).

Definition holdings_0 (orders : list order) (start_val : Qc) : frame :=
  match window orders with
  | [] => []
  | d0 :: rest =>
      (d0, upd_many (upd (upd (price_row adj_close (symbols_of orders) d0)
                            Cash 0) Cash start_val)
             (symbols_of orders) 0)
      :: map (fun d => (d, zero_row (symbols_of orders) d)) rest
  end.

Definition holdings (orders : list order)
    (start_val impact commission : Qc) : frame :=
  ledger_of (holdings_0 orders start_val) (deltas orders impact commission).

Definition port_vals (orders : list order)
    (start_val impact commission : Qc) : list (Z * Qc) :=
  mul_sum (symbols_of orders) (prices_frame orders)
    (holdings orders start_val impact commission).

End Frames.

(** Lines 79-90 of [compute_portvals] as a statement of their own: the
    running sums and the valuation. *)
Definition lines_79_90 (unique_symbols : list string) : M (list (Z * Qc)) :=
  r2 <- iloc_get Data2 0 ;;
  iloc_put Data3 0 (fun r => upd_syms r r2) ;;;
  r3 <- iloc_get Data3 0 ;;
  r2 <- iloc_get Data2 0 ;;
  iloc_put Data3 0 (fun r => upd r Cash (r3 Cash + r2 Cash)) ;;;
  df <- get_frame Data3 ;;
  for_each (seq 1 (List.length df - 1)) (edit_data_3_rows Data3 Data2) ;;;
  d1 <- get_frame Data1 ;;
  d3 <- get_frame Data3 ;;
  ret (mul_sum unique_symbols d1 d3).

(** ** What a run adds up

    The ledger before any order, and what one row of [orders_df] adds to
    it: [bos_of] is the last argument [calculate_data_2] is called with. *)

Definition seed (start_val : Qc) : row :=
  fun c => match c with
           | Sym _ => 0
           | Cash => start_val
           end.

Definition bos_of (o : order) : Qc := if is_sell o then 1 else - (1).

Definition applied_delta (adj_close : Z -> string -> Qc)
    (impact commission : Qc) (o : order) (c : col) : Qc :=
  if has_side o then
    match c with
    | Sym s => if String.eqb (Symbol o) s then (- bos_of o) * Shares o else 0
    | Cash => adj_close (Date o) (Symbol o) * Shares o * (bos_of o - impact)
              - commission
    end
  else 0.

(** ** The Cost Model and the ledger, in the words of the specification *)

Inductive side : Type := BUY | SELL.

(** Section 4.2: the position delta and the cash delta of one order. *)
Definition cost_model (sd : side) (shares price impact commission : Qc)
    : Qc * Qc :=
  match sd with
  | BUY => (shares, - (shares * price * (1 + impact)) - commission)
  | SELL => (- shares, shares * price * (1 - impact) - commission)
  end.

Definition side_of (o : order) : option side :=
  match Order o with
  | Some s => if String.eqb s "BUY" then Some BUY
              else if String.eqb s "SELL" then Some SELL
              else None
  | None => None
  end.

Section Ledger.

Variable adj_close : Z -> string -> Qc.
Variables (impact commission : Qc).

(** The deltas of one order at the price of its own day and symbol. *)
Definition order_effect (o : order) : Qc * Qc :=
  match side_of o with
  | Some sd =>
      cost_model sd (Shares o) (adj_close (Date o) (Symbol o))
        impact commission
  | None => (0, 0)
  end.

(** Section 3: the starting cash and zero positions, updated by every
    order dated on or before [d], in input order. *)
Definition ledger_cash (orders : list order) (start_val : Qc) (d : Z) : Qc :=
  fold_left (fun cash o => cash + snd (order_effect o))
    (filter (fun o => Z.leb (Date o) d) orders) start_val.

Definition ledger_position (orders : list order) (d : Z) (s : string) : Qc :=
  fold_left (fun pos o =>
               if String.eqb (Symbol o) s then pos + fst (order_effect o)
               else pos)
    (filter (fun o => Z.leb (Date o) d) orders) 0.

(** Section 3: value = cash + sum over s of positions[s] * price[date][s]. *)
Definition snapshot_value (orders : list order) (start_val : Qc) (d : Z)
    : Qc :=
  ledger_cash orders start_val d
  + sumQ (map (fun s => ledger_position orders d s * adj_close d s)
            (symbols_of orders)).

End Ledger.

(** The ledger a list of orders makes on day [d]: the seed plus what each
    row dated [d] or before adds. *)
Definition ledger_row (adj_close : Z -> string -> Qc)
    (impact commission : Qc) (orders : list order) (start_val : Qc) (d : Z)
    : row :=
  fun c =>
    seed start_val c
    + sumQ (map (fun o => applied_delta adj_close impact commission o c)
              (filter (fun o => Z.leb (Date o) d) orders)).

(** How a call ends: [None] when it returns. *)
Definition outcome {A} (r : result A) : option exn :=
  match r with
  | Ok _ => None
  | Raise e => Some e
  end.

(** A price history that starts on day 10 and ends on day 20. *)
Definition days_10_to_20 (d : Z) : bool := Z.leb 10 d && Z.leb d 20.

(** Two rows that differ at most in their shares and in which side they
    name. *)
Definition same_date_symbol (a b : order) : Prop :=
  Date a = Date b /\ Symbol a = Symbol b /\ has_side a = has_side b.

(** ** Applying the orders in the order of the rows

    The code has no such path: this is the reference lines 51-77 are
    compared with.  Each row with a side makes the call the code makes for
    it; a row without a side is dropped, as [dropna] does. *)
Definition apply_in_order (impact commission : Qc) (orders : list order)
    : M unit :=
  for_each orders (fun o =>
    if has_side o then
      calculate_data_2 Data2 Data1 (Date o) (Symbol o) (Shares o)
        impact commission (bos_of o)
    else ret tt).

Definition post_in_order (d1 : frame) (impact commission : Qc)
    (df : frame) (o : order) : frame :=
  if has_side o then post d1 impact commission (bos_of o) df o else df.

(** Two frames with the same labels and, row by row, the same numbers. *)
Definition frame_eqv (a b : frame) : Prop :=
  Forall2 (fun p q => fst p = fst q /\ forall c, snd p c = snd q c) a b.

(** ** A worked run

    The defaults of [compute_portvals], and two orders on a flat price:
    1000 shares bought on day 1 and sold on day 3, nothing on day 2. *)
Definition default_start_val : Qc := qz 1000000.
Definition default_commission : Qc := Q2Qc (995 # 100).
Definition default_impact : Qc := Q2Qc (5 # 1000).

Definition demo_orders : list order := [buy 1 "JPM" 1000; sell 3 "JPM" 1000].

Definition demo_series : list (Z * Qc) :=
  match run every_day rising demo_orders default_start_val
          default_commission default_impact with
  | Ok s => s
  | Raise _ => []
  end.

Definition free_run : result (list (Z * Qc)) * heap :=
  compute_portvals every_day flat50 (qz 100000) 0 0 (init_heap demo_orders).

Definition free_series : list (Z * Qc) :=
  match fst free_run with
  | Ok s => s
  | Raise _ => []
  end.

Definition free_ledger : frame :=
  match data_3 (snd free_run) with
  | Some df => df
  | None => []
  end.

Definition free_row (k : nat) : row := snd (nth k free_ledger (0%Z, seed 0)).

Definition demo_prices : frame := prices_frame every_day flat50 demo_orders.
Definition demo_deltas : frame := deltas_0 every_day flat50 demo_orders.
Definition demo_holdings : frame :=
  holdings_0 every_day flat50 demo_orders (qz 100000).

(** ** The valuation as profit and loss

    The signed number of shares a row trades ([+] for a buy), and what the
    row is worth on day [d]: its shares at the price move since its own
    day, less the impact and the commission it paid. *)
Definition quantity (o : order) : Qc := (- bos_of o) * Shares o.

Definition order_worth (adj_close : Z -> string -> Qc)
    (impact commission : Qc) (d : Z) (o : order) : Qc :=
  if has_side o then
    quantity o * (adj_close d (Symbol o) - adj_close (Date o) (Symbol o))
    - impact * adj_close (Date o) (Symbol o) * Shares o
    - commission
  else 0.

Definition worth (adj_close : Z -> string -> Qc)
    (impact commission : Qc) (orders : list order) (start_val : Qc) (d : Z)
    : Qc :=
  start_val
  + sumQ (map (order_worth adj_close impact commission d)
            (filter (fun o => Z.leb (Date o) d) orders)).

(** What the rows dated on or before [d] paid in commission and impact. *)
Definition costs_paid (adj_close : Z -> string -> Qc)
    (impact commission : Qc) (orders : list order) (d : Z) : Qc :=
  sumQ (map (fun o =>
               if has_side o then
                 commission + impact * adj_close (Date o) (Symbol o) * Shares o
               else 0)
          (filter (fun o => Z.leb (Date o) d) orders)).

(** A row as lines 51 and 65 read it: a side that is not ['SELL'] counts
    as ['BUY']; a row without a side stays without one. *)
Definition as_read (o : order) : order :=
  if has_side o then
    mk_order (Date o) (Symbol o)
      (Some (if is_sell o then "SELL" else "BUY")%string) (Shares o)
  else o.

(** ** [TheoreticallyOptimalStrategy.py]

    [testPolicy] (lines 13-66) and [benchmark] (lines 68-100).  The price
    frame is the one [get_data] returns, so [ffill] and [bfill] find
    nothing to fill. *)

(** [a < b] as a test. *)
Definition Qclt_bool (a b : Qc) : bool :=
  match a ?= b with
  | Lt => true
  | _ => false
  end.

(** Python's [abs]. *)
Definition py_abs (x : Qc) : Qc := if Qclt_bool x 0 then - x else x.

(** The rows [benchmark] hands to the simulator (lines 94-97): 1000
    shares bought on the day after [sd] and sold on [ed]. *)
Definition benchmark_orders (s : string) (sd ed : Z) : list order :=
  [mk_order (sd + 1) s (Some "BUY"%string) (qz 1000);
   mk_order ed s (Some "SELL"%string) (qz 1000)].

Section Strategy.

Variable is_trading : Z -> bool.
Variable adj_close : Z -> string -> Qc.

(** Lines 49-52 on day [d], the next trading day being [d']. *)
Definition new_trade (symbol : string) (net_holdings : Qc) (d d' : Z) : Qc :=
  if Qclt_bool (adj_close d symbol) (adj_close d' symbol)
  then qz 1000 - net_holdings
  else - qz 1000 - net_holdings.

(** The rows of [trades] after the loop of lines 48-61, which visits every
    date but the last: the row of a visited date gets its shares and its
    side, the row of the last date keeps [Shares = 0.0] and no side. *)
Fixpoint trade_rows (symbol : string) (net_holdings : Qc) (dates : list Z)
    : list order :=
  match dates with
  | [] => []
  | d :: rest =>
      match rest with
      | [] => [mk_order d symbol None 0]
      | d' :: _ =>
          let nt := new_trade symbol net_holdings d d' in
          mk_order d symbol
            (Some (if Qclt_bool nt 0 then "SELL" else "BUY")%string)
            (py_abs nt)
          :: trade_rows symbol (net_holdings + nt) rest
      end
  end.

(** [testPolicy(symbols, sd, ed, sv)]: [symbols[0]] of an empty list is an
    [IndexError] (line 42).  When [symbols[0]] is listed once more,
    [prices] has its column twice, each side of the comparison of line 49
    is a [Series], and the [if] raises [ValueError] the first time the
    loop body runs, that is when the index has two dates or more.  With
    no trading day from [sd] to [ed] the frame is empty and what the last
    [apply] of line 65 does with it depends on the version of pandas: no
    statement below is about that case. *)
Definition testPolicy (symbols : list string) (sd ed : Z) (sv : Qc)
    : result (list order) :=
  let dates := index (get_data is_trading adj_close symbols
                        (date_range sd ed)) in
  match symbols with
  | [] => Raise IndexError
  | s :: others =>
      if existsb (String.eqb s) others && Nat.leb 2 (List.length dates)
      then Raise "ValueError"%string
      else Ok (trade_rows s 0 dates)
  end.

(** Modelled from the spec: [benchmark] calls [compute_portfolio_values]
    of [market_simulator/marketsimcode.py], which is not among the
    sources; it is taken to be [compute_portvals] of [src/marketsimcode.py],
    the function the specification describes under that name (section 6).

    [iloc[:2]] keeps two rows at most; a list of two values fits a frame
    of two rows, fits a frame without rows and columns (which takes its
    index from the list), and is a [ValueError] on a frame of one row. *)
Definition benchmark (symbols : list string) (sd ed : Z) (sv : Qc)
    : result (list (Z * Qc)) :=
  let prices := get_data is_trading adj_close symbols (date_range sd ed) in
  if Nat.eqb (List.length (firstn 2 prices)) 1
  then Raise "ValueError"%string
  else
    match symbols with
    | [] => Raise IndexError
    | s :: _ =>
        run is_trading adj_close (benchmark_orders s sd ed) sv 0 0
    end.

End Strategy.

(** The shares a row adds to the holdings, none for a row without a side. *)
Definition traded (o : order) : Qc := if has_side o then quantity o else 0.

(** The shares held at the end of day [d] by the rows of a frame of
    orders in one symbol. *)
Definition held (orders : list order) (d : Z) : Qc :=
  sumQ (map traded (filter (fun o => Z.leb (Date o) d) orders)).

(** The index of the price frame of [testPolicy] and of [benchmark]: the
    trading days from [sd] to [ed]. *)
Definition trading_days (is_trading : Z -> bool) (sd ed : Z) : list Z :=
  filter is_trading (date_range sd ed).

(** A price that goes down and up in turn, and the rows and the series
    of the strategy on it over four days. *)
Definition seesaw (d : Z) (s : string) : Qc :=
  if Z.even d then qz 50 else qz 52.

Definition seesaw_rows : list order :=
  match testPolicy every_day seesaw ["JPM"%string] 1 4 (qz 100000) with
  | Ok rows => rows
  | Raise _ => []
  end.

Definition seesaw_series : list (Z * Qc) :=
  match run every_day seesaw seesaw_rows (qz 100000) 0 0 with
  | Ok s => s
  | Raise _ => []
  end.

(** Another frame of orders over the same days: 500 shares bought on
    day 2 and sold on day 4. *)
Definition half_orders : list order := [buy 2 "JPM" 500; sell 4 "JPM" 500].

Definition half_series : list (Z * Qc) :=
  match run every_day seesaw half_orders (qz 100000) 0 0 with
  | Ok s => s
  | Raise _ => []
  end.

Definition seesaw_benchmark : list (Z * Qc) :=
  match benchmark every_day seesaw ["JPM"%string] 1 4 (qz 100000) with
  | Ok s => s
  | Raise _ => []
  end.

(** * The examples of the specification, run *)

(** Section 8, examples 1 and 2: 1000 shares bought at 50 with 100000 in
    cash, no costs; the price is 52 the day after.  Day 0, the day before
    the first order, is a trading day here and has a row of its own. *)
Example spec_examples_1_2 :
  readout (run every_day rising [buy 1 "JPM" 1000; buy 2 "JPM" 0]
             (qz 100000) 0 0)
  = Ok [(0%Z, 100000 # 1); (1%Z, 100000 # 1); (2%Z, 102000 # 1)]%Q.
Proof. vm_compute. reflexivity. Qed.

(** Section 8, example 3: bought and sold the same day at 50, commission 5. *)
Example spec_example_3 :
  readout (run every_day flat50 [buy 1 "JPM" 1000; sell 1 "JPM" 1000]
             (qz 100000) (qz 5) 0)
  = Ok [(0%Z, 100000 # 1); (1%Z, 99990 # 1)]%Q.
Proof. vm_compute. reflexivity. Qed.

(** The defaults: 9.95 of commission and 0.005 of impact on 1000 shares
    bought at 54 cost 279.95. *)
Example default_costs :
  readout (run every_day rising [buy 3 "JPM" 1000] default_start_val
             default_commission default_impact)
  = Ok [(2%Z, 1000000 # 1); (3%Z, 19994401 # 20)]%Q.
Proof. vm_compute. reflexivity. Qed.

(** * Frame lemmas *)

Lemma col_eqb_refl (c : col) : col_eqb c c = true.
Proof. destruct c; simpl; auto using String.eqb_refl. Qed.

Lemma col_eqb_eq (a b : col) : col_eqb a b = true <-> a = b.
Proof.
  destruct a, b; simpl; split; intro H; try congruence; try discriminate.
  - apply String.eqb_eq in H. congruence.
  - inversion H. apply String.eqb_refl.
Qed.

Lemma col_eqb_neq (a b : col) : col_eqb a b = false <-> a <> b.
Proof.
  split; intro H.
  - intro E. apply col_eqb_eq in E. congruence.
  - destruct (col_eqb a b) eqn:E; auto. apply col_eqb_eq in E. contradiction.
Qed.

Lemma has_date_In (df : frame) (d : Z) :
  has_date df d = true <-> In d (index df).
Proof.
  unfold has_date. rewrite existsb_exists. split.
  - intros [x [Hx E]]. apply Z.eqb_eq in E. subst. exact Hx.
  - intro H. exists d. split; auto. apply Z.eqb_refl.
Qed.

Lemma loc_has_date (df : frame) (d : Z) (c : col) :
  loc df d c = if has_date df d then Ok (cell df d c) else Raise KeyError.
Proof.
  unfold cell, has_date, index.
  induction df as [|[d0 r] rest IH]; simpl; auto.
  rewrite (Z.eqb_sym d d0). destruct (Z.eqb d0 d); simpl; auto.
Qed.

Lemma loc_In (df : frame) (d : Z) (c : col) :
  In d (index df) -> loc df d c = Ok (cell df d c).
Proof.
  intro H. rewrite loc_has_date. apply has_date_In in H. now rewrite H.
Qed.

Lemma loc_not_In (df : frame) (d : Z) (c : col) :
  ~ In d (index df) -> loc df d c = Raise KeyError.
Proof.
  intro H. rewrite loc_has_date.
  destruct (has_date df d) eqn:E; auto. apply has_date_In in E. contradiction.
Qed.

Lemma index_loc_set (df : frame) (d : Z) (c : col) (v : Qc) :
  index (loc_set df d c v) = index df.
Proof.
  unfold index. induction df as [|[d0 r] rest IH]; simpl; auto.
  destruct (Z.eqb d0 d); simpl; congruence.
Qed.

Lemma cell_loc_set (df : frame) (d : Z) (c : col) (v : Qc) (d' : Z) (c' : col) :
  cell (loc_set df d c v) d' c' =
  if Z.eqb d d' && col_eqb c c' && has_date df d then v else cell df d' c'.
Proof.
  unfold cell, has_date, index.
  induction df as [|[d0 r] rest IH]; simpl.
  - now rewrite andb_false_r.
  - destruct (Z.eqb d0 d) eqn:E0; simpl.
    + apply Z.eqb_eq in E0. subst d0.
      rewrite Z.eqb_refl. simpl. rewrite andb_true_r.
      unfold upd. destruct (Z.eqb d d'); simpl; auto.
    + rewrite (Z.eqb_sym d d0), E0. simpl.
      destruct (Z.eqb d0 d') eqn:E1; simpl.
      * apply Z.eqb_eq in E1. subst d'.
        rewrite (Z.eqb_sym d d0), E0. reflexivity.
      * exact IH.
Qed.

Lemma index_set_col (df : frame) (c : col) (v : Qc) :
  index (set_col df c v) = index df.
Proof. unfold index, set_col. rewrite map_map. reflexivity. Qed.

Lemma index_set_cols (symbols : list string) (df : frame) (v : Qc) :
  index (set_cols df symbols v) = index df.
Proof.
  unfold set_cols. revert df.
  induction symbols as [|s rest IH]; intro df; simpl; auto.
  rewrite IH. apply index_set_col.
Qed.

(** * One order: [calculate_data_2] *)

Lemma calculate_data_2_ok (os : list order) (d1 d2 : frame) (x3 : option frame)
    (date : Z) (symbol : string) (shares impact commission bos : Qc) :
  In date (index d2) -> In date (index d1) ->
  calculate_data_2 Data2 Data1 date symbol shares impact commission bos
    (mk_heap os (Some d1) (Some d2) x3)
  = (Ok tt,
     mk_heap os (Some d1)
       (Some (post d1 impact commission bos d2
                (mk_order date symbol None shares))) x3).
Proof.
  intros H2 H1.
  unfold calculate_data_2, loc_get, loc_put, bind, get_frame, put_frame, lift.
  simpl. rewrite (loc_In d2 date _ H2). simpl.
  rewrite (loc_In (loc_set d2 date (Sym symbol) _) date Cash)
    by (rewrite index_loc_set; exact H2).
  rewrite (loc_In d1 date _ H1). reflexivity.
Qed.

Lemma calculate_data_2_KeyError (h : heap) (d2 : frame)
    (date : Z) (symbol : string) (shares impact commission bos : Qc) :
  data_2 h = Some d2 -> ~ In date (index d2) ->
  calculate_data_2 Data2 Data1 date symbol shares impact commission bos h
  = (Raise KeyError, h).
Proof.
  intros E H2.
  unfold calculate_data_2, loc_get, loc_put, bind, get_frame, put_frame, lift.
  simpl. rewrite E. rewrite (loc_not_In d2 date _ H2). reflexivity.
Qed.

Lemma post_ext (d1 : frame) (impact commission bos : Qc) (df : frame)
    (o : order) :
  post d1 impact commission bos df o
  = post d1 impact commission bos df
      (mk_order (Date o) (Symbol o) None (Shares o)).
Proof. reflexivity. Qed.

Lemma index_post (d1 : frame) (impact commission bos : Qc) (df : frame)
    (o : order) :
  index (post d1 impact commission bos df o) = index df.
Proof. unfold post. now rewrite !index_loc_set. Qed.

Lemma cell_post (d1 : frame) (impact commission bos : Qc) (df : frame)
    (o : order) (d : Z) (c : col) :
  In (Date o) (index df) ->
  cell (post d1 impact commission bos df o) d c
  = cell df d c
    + (if Z.eqb (Date o) d then order_delta d1 impact commission bos o c
       else 0).
Proof.
  intro H. unfold post. cbv zeta.
  rewrite !cell_loc_set.
  assert (Hd : has_date df (Date o) = true) by now apply has_date_In.
  assert (Hd' : forall v, has_date (loc_set df (Date o) (Sym (Symbol o)) v)
                            (Date o) = true).
  { intro v. apply has_date_In. now rewrite index_loc_set. }
  rewrite Hd'. rewrite Hd. rewrite Z.eqb_refl. simpl.
  rewrite !andb_true_r.
  destruct (Z.eqb (Date o) d) eqn:E; simpl.
  - apply Z.eqb_eq in E. subst d.
    destruct c as [s|]; simpl.
    + destruct (String.eqb_spec (Symbol o) s) as [Es|Es];
      [rewrite <- Es|]; ring.
    + ring.
  - ring.
Qed.

(** * One pass of [apply] over a list of orders *)

Lemma pass_ok (bos impact commission : Qc) (os : list order) (d1 : frame)
    (x3 : option frame) (l : list order) :
  forall d2 : frame,
  index d1 = index d2 ->
  Forall (fun o => In (Date o) (index d2)) l ->
  pass bos impact commission l (mk_heap os (Some d1) (Some d2) x3)
  = (Ok tt,
     mk_heap os (Some d1)
       (Some (fold_left (post d1 impact commission bos) l d2)) x3).
Proof.
  unfold pass. induction l as [|o rest IH]; intros d2 Hi Hall.
  - reflexivity.
  - inversion Hall as [|? ? Ho Hrest]; subst.
    simpl. unfold bind at 1.
    rewrite calculate_data_2_ok by (auto; rewrite Hi; auto).
    rewrite <- post_ext.
    apply IH.
    + now rewrite index_post.
    + rewrite index_post. exact Hrest.
Qed.

Lemma pass_KeyError (bos impact commission : Qc) (os : list order)
    (d1 : frame) (x3 : option frame) (l : list order) :
  forall d2 : frame,
  index d1 = index d2 ->
  Exists (fun o => ~ In (Date o) (index d2)) l ->
  exists d2',
    pass bos impact commission l (mk_heap os (Some d1) (Some d2) x3)
    = (Raise KeyError, mk_heap os (Some d1) (Some d2') x3).
Proof.
  unfold pass. induction l as [|o rest IH]; intros d2 Hi Hex.
  - inversion Hex.
  - simpl. unfold bind at 1.
    destruct (in_dec Z.eq_dec (Date o) (index d2)) as [Hin|Hout].
    + rewrite calculate_data_2_ok by (auto; rewrite Hi; auto).
      rewrite <- post_ext.
      apply IH.
      * now rewrite index_post.
      * rewrite index_post.
        inversion Hex; subst; [contradiction | assumption].
    + rewrite (calculate_data_2_KeyError _ d2) by auto.
      exists d2. reflexivity.
Qed.

Lemma index_fold_post (d1 : frame) (impact commission bos : Qc)
    (l : list order) :
  forall df, index (fold_left (post d1 impact commission bos) l df) = index df.
Proof.
  induction l as [|o rest IH]; intro df; simpl; auto.
  rewrite IH. apply index_post.
Qed.

Lemma cell_fold_post (d1 : frame) (impact commission bos : Qc)
    (l : list order) (d : Z) (c : col) :
  forall df,
  Forall (fun o => In (Date o) (index df)) l ->
  cell (fold_left (post d1 impact commission bos) l df) d c
  = cell df d c
    + sumQ (map (fun o => order_delta d1 impact commission bos o c)
              (filter (fun o => Z.eqb (Date o) d) l)).
Proof.
  induction l as [|o rest IH]; intros df Hall; simpl.
  - ring.
  - inversion Hall as [|? ? Ho Hrest]; subst.
    rewrite IH by (rewrite index_post; exact Hrest).
    rewrite cell_post by exact Ho.
    destruct (Z.eqb (Date o) d); simpl; ring.
Qed.

(** * Running statements *)

Lemma bind_ok {A B} (m : M A) (k : A -> M B) (h h' : heap) (a : A) :
  m h = (Ok a, h') -> bind m k h = k a h'.
Proof. intro E. unfold bind. now rewrite E. Qed.

Lemma bind_raise {A B} (m : M A) (k : A -> M B) (h h' : heap) (e : exn) :
  m h = (Raise e, h') -> bind m k h = (Raise e, h').
Proof. intro E. unfold bind. now rewrite E. Qed.

Lemma get_frame_ok (x : ref) (h : heap) (df : frame) :
  deref h x = Some df -> get_frame x h = (Ok df, h).
Proof. intro E. unfold get_frame. now rewrite E. Qed.

Lemma iloc_get_ok (x : ref) (i : nat) (h : heap) (df : frame) (r : row) :
  deref h x = Some df -> iloc df i = Ok r -> iloc_get x i h = (Ok r, h).
Proof.
  intros E1 E2. unfold iloc_get.
  rewrite (bind_ok _ _ _ _ _ (get_frame_ok _ _ _ E1)).
  unfold lift. now rewrite E2.
Qed.

Lemma iloc_put_ok (x : ref) (i : nat) (f : row -> row) (h : heap)
    (df df' : frame) :
  deref h x = Some df -> iloc_upd df i f = Ok df' ->
  iloc_put x i f h = (Ok tt, assign h x df').
Proof.
  intros E1 E2. unfold iloc_put.
  rewrite (bind_ok _ _ _ _ _ (get_frame_ok _ _ _ E1)).
  unfold bind, lift, put_frame. now rewrite E2.
Qed.

(** * The running sums: [edit_data_3_rows] and its loop *)

Lemma next_row_eq (r r2 prev : row) (c : col) :
  next_row r r2 prev c = r2 c + prev c.
Proof. destruct c; reflexivity. Qed.

Lemma nth_error_middle {A} (pre : list A) (x : A) (suf : list A) :
  nth_error (pre ++ x :: suf) (List.length pre) = Some x.
Proof. induction pre; simpl; auto. Qed.

Lemma iloc_middle (pre : frame) (x : Z * row) (suf : frame) :
  iloc (pre ++ x :: suf) (List.length pre) = Ok (snd x).
Proof. unfold iloc. now rewrite nth_error_middle. Qed.

Lemma iloc_upd_middle (pre : frame) (d : Z) (r : row) (suf : frame)
    (f : row -> row) :
  iloc_upd (pre ++ (d, r) :: suf) (List.length pre) f
  = Ok (pre ++ (d, f r) :: suf).
Proof.
  induction pre as [|[d0 r0] pre IH]; simpl; auto.
  now rewrite IH.
Qed.

Lemma edit_data_3_rows_step (os : list order) (x1 : option frame)
    (pre2 : frame) (p2 : Z * row) (d2' : Z) (r2 : row) (suf2 : frame)
    (pre3 : frame) (dp : Z) (prev : row) (d : Z) (r : row) (suf3 : frame) :
  List.length pre2 = List.length pre3 ->
  edit_data_3_rows Data3 Data2 (S (List.length pre3))
    (mk_heap os x1 (Some (pre2 ++ p2 :: (d2', r2) :: suf2))
       (Some (pre3 ++ (dp, prev) :: (d, r) :: suf3)))
  = (Ok tt,
     mk_heap os x1 (Some (pre2 ++ p2 :: (d2', r2) :: suf2))
       (Some (pre3 ++ (dp, prev) :: (d, next_row r r2 prev) :: suf3))).
Proof.
  intro Hlen.
  assert (E2 : iloc (pre2 ++ p2 :: (d2', r2) :: suf2) (S (List.length pre3))
               = Ok r2).
  { replace (pre2 ++ p2 :: (d2', r2) :: suf2)
      with ((pre2 ++ [p2]) ++ (d2', r2) :: suf2)
      by (rewrite <- app_assoc; reflexivity).
    replace (S (List.length pre3)) with (List.length (pre2 ++ [p2]))
      by (rewrite length_app; simpl; lia).
    apply iloc_middle. }
  assert (E3 : forall x suf, iloc (pre3 ++ (dp, prev) :: x :: suf)
                               (List.length pre3) = Ok prev).
  { intros. apply iloc_middle. }
  assert (U : forall r f,
             iloc_upd (pre3 ++ (dp, prev) :: (d, r) :: suf3)
               (S (List.length pre3)) f
             = Ok (pre3 ++ (dp, prev) :: (d, f r) :: suf3)).
  { intros r0 f.
    replace (pre3 ++ (dp, prev) :: (d, r0) :: suf3)
      with ((pre3 ++ [(dp, prev)]) ++ (d, r0) :: suf3)
      by (rewrite <- app_assoc; reflexivity).
    replace (S (List.length pre3)) with (List.length (pre3 ++ [(dp, prev)]))
      by (rewrite length_app; simpl; lia).
    rewrite iloc_upd_middle. rewrite <- app_assoc. reflexivity. }
  set (D2 := pre2 ++ p2 :: (d2', r2) :: suf2) in *.
  unfold edit_data_3_rows.
  erewrite bind_ok by (eapply iloc_get_ok; [reflexivity | exact E2]).
  simpl Nat.sub. rewrite Nat.sub_0_r.
  erewrite bind_ok by (eapply iloc_get_ok; [reflexivity | apply E3]).
  erewrite bind_ok by (eapply iloc_put_ok; [reflexivity | apply U]).
  erewrite bind_ok by (eapply iloc_get_ok; [reflexivity | exact E2]).
  erewrite bind_ok by (eapply iloc_get_ok; [reflexivity | apply E3]).
  erewrite iloc_put_ok by (try reflexivity; apply U).
  reflexivity.
Qed.

Lemma loop_scan (os : list order) (x1 : option frame) :
  forall (suf3 suf2 pre3 pre2 : frame) (p2 : Z * row) (dp : Z) (prev : row),
  List.length pre2 = List.length pre3 ->
  List.length suf2 = List.length suf3 ->
  for_each (seq (S (List.length pre3)) (List.length suf3))
    (edit_data_3_rows Data3 Data2)
    (mk_heap os x1 (Some (pre2 ++ p2 :: suf2))
       (Some (pre3 ++ (dp, prev) :: suf3)))
  = (Ok tt,
     mk_heap os x1 (Some (pre2 ++ p2 :: suf2))
       (Some (pre3 ++ (dp, prev) :: scan prev suf3 suf2))).
Proof.
  induction suf3 as [|[d r] suf3 IH]; intros suf2 pre3 pre2 p2 dp prev Hp Hs.
  - destruct suf2; [reflexivity | discriminate].
  - destruct suf2 as [|[d2' r2] suf2]; [discriminate|].
    simpl List.length. simpl seq. simpl for_each. unfold bind at 1.
    rewrite edit_data_3_rows_step by exact Hp.
    specialize (IH suf2 (pre3 ++ [(dp, prev)]) (pre2 ++ [p2]) (d2', r2) d
                  (next_row r r2 prev)).
    rewrite !length_app in IH. simpl in IH.
    rewrite <- !app_assoc in IH. simpl in IH.
    replace (List.length pre3 + 1)%nat with (S (List.length pre3)) in IH
      by lia.
    apply IH; simpl in Hs; lia.
Qed.

(** * Sums and sorted labels *)

Lemma sumQ_app (a b : list Qc) : sumQ (a ++ b) = sumQ a + sumQ b.
Proof.
  induction a as [|x a IH]; simpl.
  - ring.
  - rewrite IH. ring.
Qed.

Lemma sumQ_map_plus {A} (f g : A -> Qc) (l : list A) :
  sumQ (map (fun x => f x + g x) l) = sumQ (map f l) + sumQ (map g l).
Proof.
  induction l as [|x l IH]; simpl.
  - ring.
  - rewrite IH. ring.
Qed.

Lemma sumQ_map_zero {A} (f : A -> Qc) (l : list A) :
  (forall x, In x l -> f x = 0) -> sumQ (map f l) = 0.
Proof.
  induction l as [|x l IH]; intro H; simpl; auto.
  rewrite (H x) by (left; reflexivity).
  rewrite IH by (intros; apply H; right; assumption). ring.
Qed.

Lemma sumQ_map_ext {A} (f g : A -> Qc) (l : list A) :
  (forall x, In x l -> f x = g x) -> sumQ (map f l) = sumQ (map g l).
Proof.
  intro H. f_equal. apply map_ext_in. exact H.
Qed.

(** A value counted once for a label of a duplicate-free list. *)
Lemma sumQ_indicator (x : Z) (v : Qc) (l : list Z) :
  NoDup l ->
  sumQ (map (fun d => if Z.eqb x d then v else 0) l)
  = if existsb (Z.eqb x) l then v else 0.
Proof.
  induction 1 as [|d l Hd Hnd IH]; simpl; auto.
  rewrite IH. destruct (Z.eqb x d) eqn:E; simpl.
  - apply Z.eqb_eq in E. subst d.
    destruct (existsb (Z.eqb x) l) eqn:Ex; [|ring].
    apply existsb_exists in Ex. destruct Ex as [y [Hy Ey]].
    apply Z.eqb_eq in Ey. subst y. contradiction.
  - ring.
Qed.

Lemma date_range_In (lo hi d : Z) :
  In d (date_range lo hi) <-> (lo <= d <= hi)%Z.
Proof.
  unfold date_range. rewrite in_map_iff. split.
  - intros [k [E Hk]]. apply in_seq in Hk. lia.
  - intro H. exists (Z.to_nat (d - lo)). split; [lia|].
    apply in_seq. lia.
Qed.

Lemma date_range_sorted (lo hi : Z) :
  StronglySorted Z.lt (date_range lo hi).
Proof.
  unfold date_range. generalize (Z.to_nat (hi - lo + 1)) as n.
  intro n. generalize 0%nat as a. induction n as [|n IH]; intro a; simpl.
  - constructor.
  - constructor; [apply IH|].
    apply Forall_forall. intros y Hy. apply in_map_iff in Hy.
    destruct Hy as [k [E Hk]]. apply in_seq in Hk. lia.
Qed.

Lemma filter_sorted {A} (R : A -> A -> Prop) (p : A -> bool) (l : list A) :
  StronglySorted R l -> StronglySorted R (filter p l).
Proof.
  induction 1 as [|x l Hs IH Hx]; simpl; [constructor|].
  destruct (p x); auto. constructor; auto.
  apply Forall_forall. intros y Hy. apply filter_In in Hy.
  rewrite Forall_forall in Hx. apply Hx. tauto.
Qed.

Lemma sorted_NoDup (l : list Z) : StronglySorted Z.lt l -> NoDup l.
Proof.
  induction 1 as [|x l Hs IH Hx]; constructor; auto.
  intro Hin. rewrite Forall_forall in Hx. specialize (Hx x Hin). lia.
Qed.

(** * The rows the loop leaves *)

Lemma index_scan (prev : row) (d3 : frame) :
  forall d2, index (scan prev d3 d2) = index d3.
Proof.
  revert prev. induction d3 as [|[d r] d3 IH]; intros prev d2; simpl; auto.
  destruct d2 as [|[d' r2] d2]; simpl; auto. now rewrite IH.
Qed.

Lemma scan_rows (c : col) (d3 : frame) :
  forall (d2 : frame) (prev : row),
  index d3 = index d2 ->
  StronglySorted Z.lt (index d2) ->
  forall d r, In (d, r) (scan prev d3 d2) ->
  r c = prev c
        + sumQ (map (fun p => snd p c)
                  (filter (fun p => Z.leb (fst p) d) d2)).
Proof.
  induction d3 as [|[d0 r0] d3 IH]; intros d2 prev Hi Hs d r Hin.
  - destruct Hin.
  - destruct d2 as [|[d0' r2] d2]; [discriminate|].
    simpl in Hi. inversion Hi; subst d0'.
    simpl in Hs. inversion Hs as [|? ? Hs' Hd0]; subst.
    simpl in Hin. destruct Hin as [E|Hin].
    + inversion E; subst. simpl. rewrite Z.leb_refl. simpl.
      rewrite next_row_eq.
      rewrite sumQ_map_zero; [ring|].
      intros p Hp. apply filter_In in Hp. destruct Hp as [Hp Hle].
      rewrite Forall_forall in Hd0.
      assert (d < fst p)%Z by (apply Hd0; apply in_map; exact Hp).
      apply Z.leb_le in Hle. exfalso.
      exact (Z.lt_irrefl _ (Z.lt_le_trans _ _ _ H Hle)).
    + assert (Hd : In d (index d2)).
      { rewrite <- H1. rewrite <- (index_scan (next_row r0 r2 prev) d3 d2).
        apply (in_map fst) in Hin. exact Hin. }
      rewrite Forall_forall in Hd0. specialize (Hd0 d Hd).
      rewrite (IH d2 _ H1 Hs' d r Hin). rewrite next_row_eq.
      simpl. replace (Z.leb d0 d) with true by (symmetry; apply Z.leb_le; lia).
      simpl. ring.
Qed.

Lemma cell_In (df : frame) (d : Z) (r : row) (c : col) :
  NoDup (index df) -> In (d, r) df -> cell df d c = r c.
Proof.
  unfold cell. induction df as [|[d0 r0] df IH]; intros Hnd Hin.
  - destruct Hin.
  - simpl in Hnd. inversion Hnd as [|? ? Hd0 Hnd']; subst.
    simpl. destruct Hin as [E|Hin].
    + inversion E; subst. now rewrite Z.eqb_refl.
    + destruct (Z.eqb d0 d) eqn:E.
      * apply Z.eqb_eq in E. subst d0. exfalso. apply Hd0.
        apply (in_map fst) in Hin. exact Hin.
      * now apply IH.
Qed.

Lemma sum_rows_cells (df : frame) (d : Z) (c : col) :
  NoDup (index df) ->
  sumQ (map (fun p => snd p c) (filter (fun p => Z.leb (fst p) d) df))
  = sumQ (map (fun d' => cell df d' c)
            (filter (fun d' => Z.leb d' d) (index df))).
Proof.
  intro Hnd.
  assert (G : forall l : frame,
             (forall p, In p l -> In p df) ->
             sumQ (map (fun p => snd p c)
                     (filter (fun p => Z.leb (fst p) d) l))
             = sumQ (map (fun d' => cell df d' c)
                       (filter (fun d' => Z.leb d' d) (index l)))).
  { induction l as [|[d0 r0] l IH]; intro Hsub; simpl; auto.
    destruct (Z.leb d0 d); simpl.
    - rewrite IH by (intros; apply Hsub; right; assumption).
      rewrite (cell_In df d0 r0 c Hnd) by (apply Hsub; left; reflexivity).
      reflexivity.
    - apply IH. intros; apply Hsub; right; assumption. }
  apply G. auto.
Qed.

(** * Whole runs of [compute_portvals] *)

Lemma set_col_map {A} (f : A -> Z * row) (l : list A) (c : col) (v : Qc) :
  set_col (map f l) c v = map (fun a => (fst (f a), upd (snd (f a)) c v)) l.
Proof. unfold set_col. now rewrite map_map. Qed.

Lemma set_cols_map (symbols : list string) (v : Qc) :
  forall df : frame,
  set_cols df symbols v
  = map (fun dr => (fst dr, upd_many (snd dr) symbols v)) df.
Proof.
  unfold set_cols, upd_many.
  induction symbols as [|s rest IH]; intro df; simpl.
  - rewrite <- (map_id df) at 1. apply map_ext. now intros [d r].
  - rewrite IH. unfold set_col. rewrite map_map. reflexivity.
Qed.

Lemma same_index_length (a b : frame) :
  index a = index b -> List.length a = List.length b.
Proof.
  intro H. rewrite <- (length_map fst a), <- (length_map fst b).
  exact (f_equal (@List.length Z) H).
Qed.

Section Runs.

Variable tr : Z -> bool.
Variable pr : Z -> string -> Qc.


Lemma index_prices_frame (os : list order) :
  index (prices_frame tr pr os) = window tr os.
Proof.
  unfold index, prices_frame. rewrite map_map. simpl. apply map_id.
Qed.

Lemma index_deltas_0 (os : list order) : index (deltas_0 tr pr os) = window tr os.
Proof.
  unfold index, deltas_0. rewrite map_map. simpl. apply map_id.
Qed.

Lemma index_deltas (os : list order) (imp com : Qc) :
  index (deltas tr pr os imp com) = window tr os.
Proof.
  unfold deltas. rewrite !index_fold_post. apply index_deltas_0.
Qed.

Lemma index_holdings_0 (os : list order) (sv : Qc) :
  index (holdings_0 tr pr os sv) = window tr os.
Proof.
  unfold index, holdings_0. destruct (window tr os) as [|d0 rest]; simpl; auto.
  rewrite map_map. simpl. now rewrite map_id.
Qed.

(** The empty frame of orders: line 27 raises before anything is bound. *)
Lemma run_empty (sv com imp : Qc) :
  compute_portvals tr pr sv com imp (init_heap [])
  = (Raise IndexError, init_heap []).
Proof. reflexivity. Qed.

Lemma get_data_window (o : order) (rest : list order) :
  get_data tr pr (unique (map Symbol (o :: rest)))
    (date_range (Date o - 1) (Date (last rest o)))
  = map (fun d => (d, price_row pr (symbols_of (o :: rest)) d))
      (window tr (o :: rest)).
Proof. reflexivity. Qed.

Lemma frame_shape (df : frame) (d0 : Z) (rest : list Z) :
  index df = d0 :: rest ->
  exists r df', df = (d0, r) :: df' /\ index df' = rest.
Proof.
  destruct df as [|[d r] df']; simpl; intro H; [discriminate|].
  inversion H; subst. eauto.
Qed.

Ltac step := erewrite bind_ok by reflexivity.
Ltac tidy := cbn [assign deref orders_df data_1 data_2 data_3 init_heap].

(** Lines 27-45: the three frames are fetched and initialised. *)
Lemma run_setup (o : order) (rest : list order) (sv com imp : Qc) :
  window tr (o :: rest) <> [] ->
  compute_portvals tr pr sv com imp (init_heap (o :: rest))
  = (apply_sell_then_buy (o :: rest) imp com ;;;
     lines_79_90 (symbols_of (o :: rest)))
      (mk_heap (o :: rest)
         (Some (prices_frame tr pr (o :: rest)))
         (Some (deltas_0 tr pr (o :: rest)))
         (Some (holdings_0 tr pr (o :: rest) sv))).
Proof.
  intros Hw. set (os := o :: rest) in *.
  unfold compute_portvals.
  step. unfold os at 1 2. step. step. cbv zeta.
  fold os. tidy.
  change (get_data tr pr (unique (map Symbol os))
            (date_range (Date o - 1) (Date (last rest o))))
    with (map (fun d => (d, price_row pr (symbols_of os) d))
            (window tr os)).
  change (unique (map Symbol os)) with (symbols_of os).
  set (P := fun d : Z => (d, price_row pr (symbols_of os) d)).
  assert (E1 : set_col (map P (window tr os)) Cash 1 = prices_frame tr pr os).
  { unfold set_col, prices_frame. now rewrite map_map. }
  assert (E2 : set_cols (set_col (map P (window tr os)) Cash 0) (symbols_of os) 0
               = deltas_0 tr pr os).
  { rewrite set_cols_map. unfold set_col, deltas_0.
    now rewrite !map_map. }
  assert (E3 : exists T,
             iloc_upd (set_col (map P (window tr os)) Cash 0) 0
               (fun r => upd r Cash sv) = Ok T
             /\ set_cols T (symbols_of os) 0 = holdings_0 tr pr os sv).
  { unfold holdings_0.
    destruct (window tr os) as [|d0 idx]; [contradiction|].
    exists ((d0, upd (upd (price_row pr (symbols_of os) d0) Cash 0) Cash sv)
            :: set_col (map P idx) Cash 0).
    split; [reflexivity|].
    rewrite set_cols_map. unfold set_col. rewrite map_map.
    cbn [map fst snd]. f_equal. rewrite map_map. reflexivity. }
  destruct E3 as [T [E3 E3']].
  do 11 step. tidy. rewrite E1, E2.
  erewrite bind_ok by (eapply iloc_put_ok; [reflexivity | exact E3]).
  do 2 step. tidy. rewrite E3'. clear E1 E2 E3 E3' T P.
  reflexivity.
Qed.

Lemma sells_have_side (os : list order) (Q : order -> Prop) :
  Forall Q (filter has_side os) -> Forall Q (filter is_sell os).
Proof.
  rewrite !Forall_forall. intros H x Hx.
  apply filter_In in Hx. destruct Hx as [Hx Sx].
  apply H. apply filter_In. split; auto.
  unfold is_sell in Sx. unfold has_side. destruct (Order x); auto.
Qed.

Lemma buys_have_side (os : list order) (Q : order -> Prop) :
  Forall Q (filter has_side os) -> Forall Q (filter is_buy os).
Proof.
  rewrite !Forall_forall. intros H x Hx.
  apply filter_In in Hx. destruct Hx as [Hx Sx].
  apply H. apply filter_In. split; auto.
  unfold is_buy in Sx. unfold has_side. destruct (Order x); auto.
Qed.

Lemma has_side_split (o : order) :
  has_side o = true -> is_sell o = true \/ is_buy o = true.
Proof.
  unfold has_side, is_sell, is_buy. destruct (Order o) as [s|]; [|discriminate].
  intros _. destruct (String.eqb s "SELL"); auto.
Qed.

Lemma apply_sell_then_buy_ok (os l : list order) (d1 d2 : frame)
    (x3 : option frame) (imp com : Qc) :
  index d1 = index d2 ->
  Forall (fun x => In (Date x) (index d2)) (filter has_side l) ->
  apply_sell_then_buy l imp com (mk_heap os (Some d1) (Some d2) x3)
  = (Ok tt,
     mk_heap os (Some d1)
       (Some (fold_left (post d1 imp com (- (1))) (filter is_buy l)
                (fold_left (post d1 imp com 1) (filter is_sell l) d2)))
       x3).
Proof.
  intros Hi Hall. unfold apply_sell_then_buy.
  change (for_each (filter is_sell l) _)
    with (pass 1 imp com (filter is_sell l)).
  change (for_each (filter is_buy l) _)
    with (pass (- (1)) imp com (filter is_buy l)).
  erewrite bind_ok
    by (apply pass_ok; [exact Hi | now apply sells_have_side]).
  apply pass_ok.
  - now rewrite index_fold_post.
  - rewrite index_fold_post. now apply buys_have_side.
Qed.

Lemma apply_sell_then_buy_KeyError (os l : list order) (d1 d2 : frame)
    (x3 : option frame) (imp com : Qc) :
  index d1 = index d2 ->
  Exists (fun x => ~ In (Date x) (index d2)) (filter has_side l) ->
  exists d2',
    apply_sell_then_buy l imp com (mk_heap os (Some d1) (Some d2) x3)
    = (Raise KeyError, mk_heap os (Some d1) (Some d2') x3).
Proof.
  intros Hi Hex. unfold apply_sell_then_buy.
  change (for_each (filter is_sell l) _)
    with (pass 1 imp com (filter is_sell l)).
  change (for_each (filter is_buy l) _)
    with (pass (- (1)) imp com (filter is_buy l)).
  destruct (Forall_Exists_dec (fun x => In (Date x) (index d2))
              (fun x => in_dec Z.eq_dec (Date x) (index d2))
              (filter is_sell l)) as [Hs|Hs].
  - erewrite bind_ok by (apply pass_ok; [exact Hi | exact Hs]).
    apply pass_KeyError.
    + now rewrite index_fold_post.
    + rewrite index_fold_post.
      apply Exists_exists in Hex. destruct Hex as [x [Hx Nx]].
      apply filter_In in Hx. destruct Hx as [Hx Sx].
      apply Exists_exists. exists x. split; auto.
      apply filter_In. split; auto.
      destruct (has_side_split x Sx) as [S|S]; auto.
      exfalso. apply Nx. rewrite Forall_forall in Hs. apply Hs.
      apply filter_In. auto.
  - destruct (pass_KeyError 1 imp com os d1 x3 _ d2 Hi Hs) as [d2' E].
    exists d2'. now apply bind_raise.
Qed.

(** Lines 79-90 on frames with the same number of rows, at least one. *)
Lemma lines_79_90_ok (os : list order) (symbols : list string)
    (d1 d2 d3 : frame) :
  d2 <> [] -> List.length d3 = List.length d2 ->
  lines_79_90 symbols (mk_heap os (Some d1) (Some d2) (Some d3))
  = (Ok (mul_sum symbols d1 (ledger_of d3 d2)),
     mk_heap os (Some d1) (Some d2) (Some (ledger_of d3 d2))).
Proof.
  intros Hne Hlen.
  destruct d2 as [|[d0' r2] rest2]; [contradiction|].
  destruct d3 as [|[d0 r3] rest3]; [discriminate|].
  simpl in Hlen. unfold lines_79_90, ledger_of.
  erewrite bind_ok by (eapply iloc_get_ok; reflexivity).
  erewrite bind_ok by (eapply iloc_put_ok; reflexivity).
  tidy.
  erewrite bind_ok by (eapply iloc_get_ok; reflexivity).
  erewrite bind_ok by (eapply iloc_get_ok; reflexivity).
  erewrite bind_ok by (eapply iloc_put_ok; reflexivity).
  tidy. step.
  cbn [List.length]. rewrite Nat.sub_succ, Nat.sub_0_r.
  erewrite bind_ok
    by (apply (loop_scan os _ rest3 rest2 [] [] (d0', r2) d0); auto; lia).
  cbn [app]. step. step. reflexivity.
Qed.

(** Lines 79-90 on frames without rows: line 79 has nothing to read. *)
Lemma lines_79_90_no_rows (os : list order) (symbols : list string)
    (d1 d3 : frame) :
  lines_79_90 symbols (mk_heap os (Some d1) (Some []) (Some d3))
  = (Raise IndexError, mk_heap os (Some d1) (Some []) (Some d3)).
Proof. reflexivity. Qed.

Lemma run_ok (o : order) (rest : list order) (sv com imp : Qc) :
  window tr (o :: rest) <> [] ->
  Forall (fun x => In (Date x) (window tr (o :: rest)))
    (filter has_side (o :: rest)) ->
  compute_portvals tr pr sv com imp (init_heap (o :: rest))
  = (Ok (port_vals tr pr (o :: rest) sv imp com),
     mk_heap (o :: rest)
       (Some (prices_frame tr pr (o :: rest)))
       (Some (deltas tr pr (o :: rest) imp com))
       (Some (holdings tr pr (o :: rest) sv imp com))).
Proof.
  intros Hw Hall. rewrite run_setup by exact Hw.
  set (os := o :: rest) in *.
  erewrite bind_ok.
  2:{ apply apply_sell_then_buy_ok.
      - now rewrite index_prices_frame, index_deltas_0.
      - now rewrite index_deltas_0. }
  fold (deltas tr pr os imp com).
  apply lines_79_90_ok.
  - intro E. apply Hw. now rewrite <- (index_deltas os imp com), E.
  - apply same_index_length.
    now rewrite index_holdings_0, index_deltas.
Qed.

(** No trading day in the range: line 44 has no row to write to. *)
Lemma run_no_rows (o : order) (rest : list order) (sv com imp : Qc) :
  window tr (o :: rest) = [] ->
  compute_portvals tr pr sv com imp (init_heap (o :: rest))
  = (Raise IndexError,
     mk_heap (o :: rest) (Some []) (Some []) (Some [])).
Proof.
  intros Hw. set (os := o :: rest) in *.
  unfold compute_portvals.
  step. unfold os at 1 2. step. step. cbv zeta.
  fold os. tidy.
  change (get_data tr pr (unique (map Symbol os))
            (date_range (Date o - 1) (Date (last rest o))))
    with (map (fun d => (d, price_row pr (symbols_of os) d))
            (window tr os)).
  rewrite Hw. cbn [map].
  do 11 step. tidy. rewrite set_cols_map. cbn [map set_col].
  reflexivity.
Qed.

(** An order with a side whose date is not a label: [calculate_data_2]
    raises on its first read. *)
Lemma run_KeyError (o : order) (rest : list order) (sv com imp : Qc) :
  window tr (o :: rest) <> [] ->
  Exists (fun x => ~ In (Date x) (window tr (o :: rest)))
    (filter has_side (o :: rest)) ->
  exists d2',
    compute_portvals tr pr sv com imp (init_heap (o :: rest))
    = (Raise KeyError,
       mk_heap (o :: rest)
         (Some (prices_frame tr pr (o :: rest)))
         (Some d2')
         (Some (holdings_0 tr pr (o :: rest) sv))).
Proof.
  intros Hw Hex. rewrite run_setup by exact Hw.
  destruct (apply_sell_then_buy_KeyError (o :: rest) (o :: rest)
              (prices_frame tr pr (o :: rest)) (deltas_0 tr pr (o :: rest))
              (Some (holdings_0 tr pr (o :: rest) sv)) imp com)
    as [d2' E].
  - now rewrite index_prices_frame, index_deltas_0.
  - now rewrite index_deltas_0.
  - exists d2'. now apply bind_raise.
Qed.

(** * The frames of a run, cell by cell *)

Lemma upd_many_spec (symbols : list string) (v : Qc) (c : col) :
  forall r : row,
  upd_many r symbols v c
  = match c with
    | Sym s => if existsb (String.eqb s) symbols then v else r c
    | Cash => r Cash
    end.
Proof.
  unfold upd_many.
  induction symbols as [|s0 rest IH]; intro r; simpl.
  - destruct c; reflexivity.
  - rewrite IH. destruct c as [s|]; simpl; auto.
    unfold upd. simpl. rewrite (String.eqb_sym s s0).
    destruct (existsb (String.eqb s) rest); simpl.
    + now rewrite orb_true_r.
    + rewrite orb_false_r. reflexivity.
Qed.

Lemma zero_row_zero (symbols : list string) (d : Z) (c : col) :
  zero_row pr symbols d c = 0.
Proof.
  unfold zero_row. rewrite upd_many_spec.
  destruct c as [s|]; simpl; auto.
  destruct (existsb (String.eqb s) symbols) eqn:E; auto.
  unfold upd, price_row. simpl. now rewrite E.
Qed.

Lemma unique_In (s : string) (l : list string) : In s (unique l) <-> In s l.
Proof.
  induction l as [|x l IH]; simpl; [tauto|].
  rewrite filter_In, IH.
  destruct (String.eqb_spec x s) as [E|E]; simpl; split; intro H.
  - auto.
  - auto.
  - destruct H as [H|[H _]]; auto.
  - destruct H as [H|H]; auto.
Qed.

Lemma symbols_of_has (os : list order) (o : order) :
  In o os -> existsb (String.eqb (Symbol o)) (symbols_of os) = true.
Proof.
  intro H. apply existsb_exists. exists (Symbol o). split.
  - apply unique_In. now apply in_map.
  - apply String.eqb_refl.
Qed.

Lemma window_sorted (os : list order) : StronglySorted Z.lt (window tr os).
Proof.
  destruct os as [|o rest]; simpl; [constructor|].
  apply filter_sorted, date_range_sorted.
Qed.

Lemma cell_map_row (f : Z -> row) (l : list Z) (d : Z) (c : col) :
  In d l -> cell (map (fun d => (d, f d)) l) d c = f d c.
Proof.
  unfold cell. induction l as [|d0 l IH]; intro H; [destruct H|].
  simpl. destruct (Z.eqb d0 d) eqn:E.
  - apply Z.eqb_eq in E. now subst.
  - apply IH. destruct H; auto. subst. rewrite Z.eqb_refl in E. discriminate.
Qed.

Lemma cell_not_In (df : frame) (d : Z) (c : col) :
  ~ In d (index df) -> cell df d c = 0.
Proof. intro H. unfold cell. now rewrite loc_not_In. Qed.

Lemma cell_prices_frame (os : list order) (o : order) :
  In o os -> In (Date o) (window tr os) ->
  cell (prices_frame tr pr os) (Date o) (Sym (Symbol o))
  = pr (Date o) (Symbol o).
Proof.
  intros Ho Hd. unfold prices_frame.
  rewrite (cell_map_row
             (fun d => upd (price_row pr (symbols_of os) d) Cash 1)) by auto.
  unfold upd, price_row. simpl. now rewrite symbols_of_has.
Qed.

Lemma cell_deltas_0 (os : list order) (d : Z) (c : col) :
  cell (deltas_0 tr pr os) d c = 0.
Proof.
  destruct (in_dec Z.eq_dec d (window tr os)) as [H|H].
  - unfold deltas_0.
    rewrite (cell_map_row (zero_row pr (symbols_of os))) by auto.
    apply zero_row_zero.
  - apply cell_not_In. now rewrite index_deltas_0.
Qed.

Lemma sum_two_passes {A} (p : A -> bool) (f g : A -> Qc) (s b : A -> bool)
    (l : list A) :
  (forall x, s x = true -> b x = false) ->
  sumQ (map f (filter p (filter s l))) + sumQ (map g (filter p (filter b l)))
  = sumQ (map (fun x => if s x then f x else if b x then g x else 0)
            (filter p l)).
Proof.
  intro Hsb. induction l as [|x l IH]; simpl.
  - ring.
  - destruct (s x) eqn:Es, (b x) eqn:Eb, (p x) eqn:Ep; simpl;
      rewrite ?Es, ?Eb, ?Ep; simpl; rewrite ?Es, ?Eb; rewrite <- ?IH;
      try ring;
      rewrite (Hsb x Es) in Eb; discriminate.
Qed.

Lemma cell_deltas (os : list order) (imp com : Qc) (d : Z) (c : col) :
  Forall (fun x => In (Date x) (window tr os)) (filter has_side os) ->
  cell (deltas tr pr os imp com) d c
  = sumQ (map (fun o => applied_delta pr imp com o c)
            (filter (fun o => Z.eqb (Date o) d) os)).
Proof.
  intro Hall. unfold deltas.
  rewrite cell_fold_post
    by (rewrite index_fold_post, index_deltas_0; now apply buys_have_side).
  rewrite cell_fold_post
    by (rewrite index_deltas_0; now apply sells_have_side).
  rewrite cell_deltas_0.
  rewrite <- Qcplus_assoc, Qcplus_0_l.
  rewrite sum_two_passes.
  - apply sumQ_map_ext. intros o Ho. apply filter_In in Ho.
    destruct Ho as [Ho _].
    unfold applied_delta, bos_of, has_side, is_sell, is_buy, order_delta.
    destruct (Order o) as [sd|] eqn:Eo; [|reflexivity].
    assert (Hd : In (Date o) (window tr os)).
    { rewrite Forall_forall in Hall. apply Hall. apply filter_In.
      split; auto. unfold has_side. now rewrite Eo. }
    rewrite (cell_prices_frame os o Ho Hd).
    destruct (String.eqb sd "SELL"); reflexivity.
  - intros x. unfold is_sell, is_buy. destruct (Order x); auto.
    intro E. now rewrite E.
Qed.

Lemma holdings_0_head (os : list order) (sv : Qc) (d0 : Z) (r3 : row)
    (rest3 : frame) (c : col) :
  holdings_0 tr pr os sv = (d0, r3) :: rest3 -> r3 c = seed sv c.
Proof.
  unfold holdings_0. destruct (window tr os) as [|d idx]; [discriminate|].
  intro E. inversion E; subst. rewrite upd_many_spec.
  destruct c as [s|]; simpl; auto.
  destruct (existsb (String.eqb s) (symbols_of os)) eqn:Es; auto.
  unfold upd, price_row. simpl. now rewrite Es.
Qed.

Lemma index_holdings (os : list order) (sv imp com : Qc) :
  index (holdings tr pr os sv imp com) = window tr os.
Proof.
  unfold holdings, ledger_of.
  destruct (window tr os) as [|d0 idx] eqn:Ew.
  - unfold holdings_0. now rewrite Ew.
  - destruct (frame_shape _ _ _ (eq_trans (index_deltas os imp com) Ew))
      as [r2 [rest2 [E2 I2]]].
    destruct (frame_shape _ _ _ (eq_trans (index_holdings_0 os sv) Ew))
      as [r3 [rest3 [E3 I3]]].
    rewrite E2, E3. simpl. rewrite index_scan. congruence.
Qed.

(** Every row of [data_3] is the seed plus the rows of [data_2] up to it. *)
Lemma holdings_rows (os : list order) (sv imp com : Qc) (d : Z) (r : row)
    (c : col) :
  In (d, r) (holdings tr pr os sv imp com) ->
  r c = seed sv c
        + sumQ (map (fun d' => cell (deltas tr pr os imp com) d' c)
                  (filter (fun d' => Z.leb d' d) (window tr os))).
Proof.
  intro Hin.
  assert (Hs := window_sorted os).
  rewrite <- (index_deltas os imp com) in Hs |- *.
  rewrite <- sum_rows_cells by now apply sorted_NoDup.
  unfold holdings, ledger_of in Hin.
  destruct (window tr os) as [|d0 idx] eqn:Ew.
  { unfold holdings_0 in Hin. rewrite Ew in Hin. destruct Hin. }
  destruct (frame_shape _ _ _ (eq_trans (index_deltas os imp com) Ew))
    as [r2 [rest2 [E2 I2]]].
  destruct (frame_shape _ _ _ (eq_trans (index_holdings_0 os sv) Ew))
    as [r3 [rest3 [E3 I3]]].
  rewrite E2, E3 in Hin. rewrite E2 in Hs |- *.
  assert (Hseed : seed_row r3 r2 c = seed sv c + r2 c).
  { unfold seed_row, upd, upd_syms.
    destruct c as [s|]; simpl.
    - unfold seed. ring.
    - rewrite (holdings_0_head os sv d0 r3 rest3 Cash E3). reflexivity. }
  simpl in Hs. inversion Hs as [|? ? Hs' Hd0]; subst.
  rewrite Forall_forall in Hd0.
  destruct Hin as [E|Hin].
  - inversion E; subst. simpl. rewrite Z.leb_refl. simpl.
    rewrite Hseed.
    rewrite sumQ_map_zero; [ring|].
    intros p Hp. apply filter_In in Hp. destruct Hp as [Hp Hle].
    assert (H : (d < fst p)%Z) by (apply Hd0; apply in_map; exact Hp).
    apply Z.leb_le in Hle. exfalso.
    exact (Z.lt_irrefl _ (Z.lt_le_trans _ _ _ H Hle)).
  - assert (Hd : In d (index rest2)).
    { rewrite <- I3. rewrite <- (index_scan (seed_row r3 r2) rest3 rest2).
      apply (in_map fst) in Hin. exact Hin. }
    specialize (Hd0 d Hd).
    rewrite (scan_rows c rest3 rest2 _ I3 Hs' d r Hin).
    rewrite Hseed. simpl.
    replace (Z.leb d0 d) with true by (symmetry; apply Z.leb_le; lia).
    simpl. ring.
Qed.

(** Summing day by day or order by order is the same. *)
Lemma sum_by_day (a : order -> Qc) (os : list order) (W : list Z) (d : Z) :
  NoDup W ->
  (forall o, In o os -> In (Date o) W \/ a o = 0) ->
  sumQ (map (fun d' => sumQ (map a (filter (fun o => Z.eqb (Date o) d') os)))
          (filter (fun d' => Z.leb d' d) W))
  = sumQ (map a (filter (fun o => Z.leb (Date o) d) os)).
Proof.
  intros Hnd. set (W' := filter (fun d' => Z.leb d' d) W).
  assert (Hnd' : NoDup W') by now apply NoDup_filter.
  induction os as [|o os IH]; intro Hall.
  - simpl. apply sumQ_map_zero. reflexivity.
  - assert (Hrest : forall o', In o' os -> In (Date o') W \/ a o' = 0)
      by (intros; apply Hall; right; assumption).
    specialize (IH Hrest).
    transitivity
      (sumQ (map (fun d' => (if Z.eqb (Date o) d' then a o else 0)
                            + sumQ (map a (filter (fun o => Z.eqb (Date o) d')
                                             os))) W')).
    { apply sumQ_map_ext. intros d' _. simpl.
      destruct (Z.eqb (Date o) d'); simpl; ring. }
    rewrite sumQ_map_plus, IH, sumQ_indicator by exact Hnd'.
    simpl. destruct (Z.leb (Date o) d) eqn:Ele; simpl.
    + destruct (existsb (Z.eqb (Date o)) W') eqn:Ex; [reflexivity|].
      destruct (Hall o (or_introl eq_refl)) as [Hin|Hz].
      * assert (In (Date o) W') by (apply filter_In; auto).
        assert (existsb (Z.eqb (Date o)) W' = true).
        { apply existsb_exists. exists (Date o). split; auto.
          apply Z.eqb_refl. }
        congruence.
      * rewrite Hz. reflexivity.
    + destruct (existsb (Z.eqb (Date o)) W') eqn:Ex; [|ring].
      apply existsb_exists in Ex. destruct Ex as [y [Hy Ey]].
      apply Z.eqb_eq in Ey. subst y. apply filter_In in Hy.
      destruct Hy as [_ Hy]. congruence.
Qed.

(** The ledger of a run that returns: the row of day [d] is the starting
    cash and no shares, plus what every order dated [d] or before adds. *)
Lemma holdings_closed_form (os : list order) (sv imp com : Qc) (d : Z)
    (r : row) (c : col) :
  Forall (fun x => In (Date x) (window tr os)) (filter has_side os) ->
  In (d, r) (holdings tr pr os sv imp com) ->
  r c = seed sv c
        + sumQ (map (fun o => applied_delta pr imp com o c)
                  (filter (fun o => Z.leb (Date o) d) os)).
Proof.
  intros Hall Hin. rewrite (holdings_rows os sv imp com d r c Hin).
  f_equal.
  rewrite <- (sum_by_day _ os (window tr os) d).
  - apply sumQ_map_ext. intros d' _. now apply cell_deltas.
  - apply sorted_NoDup, window_sorted.
  - intros o Ho. unfold applied_delta.
    destruct (has_side o) eqn:Es; [left|right; reflexivity].
    rewrite Forall_forall in Hall. apply Hall. apply filter_In. auto.
Qed.

(** * The valuation *)

Lemma row_dot_split (symbols : list string) (a b : row) :
  row_dot symbols a b
  = sumQ (map (fun s => a (Sym s) * b (Sym s)) symbols) + a Cash * b Cash.
Proof.
  unfold row_dot, columns.
  induction symbols as [|s rest IH]; simpl.
  - ring.
  - rewrite IH. ring.
Qed.

Lemma nth_error_mul_sum (symbols : list string) (a : frame) :
  forall (b : frame) (k : nat),
  nth_error (mul_sum symbols a b) k
  = match nth_error a k, nth_error b k with
    | Some (d, ra), Some (_, rb) => Some (d, row_dot symbols ra rb)
    | _, _ => None
    end.
Proof.
  unfold mul_sum.
  induction a as [|[d ra] a IH]; intros b k.
  - destruct k; reflexivity.
  - destruct b as [|[d' rb] b].
    + destruct k; simpl; auto. destruct (nth_error a k) as [[? ?]|]; auto.
    + destruct k; simpl; auto.
Qed.

Lemma index_mul_sum (symbols : list string) (a : frame) :
  forall b : frame,
  List.length a = List.length b ->
  map fst (mul_sum symbols a b) = index a.
Proof.
  unfold mul_sum, index.
  induction a as [|[d ra] a IH]; intros b Hl.
  - reflexivity.
  - destruct b as [|[d' rb] b]; [discriminate|].
    simpl. f_equal. apply IH. simpl in Hl. lia.
Qed.

Lemma nth_error_index (df : frame) (k : nat) (d : Z) (r : row) :
  nth_error df k = Some (d, r) -> nth_error (index df) k = Some d.
Proof.
  intro H. unfold index. rewrite nth_error_map, H. reflexivity.
Qed.

Lemma index_port_vals (os : list order) (sv imp com : Qc) :
  map fst (port_vals tr pr os sv imp com) = window tr os.
Proof.
  unfold port_vals. rewrite index_mul_sum.
  - apply index_prices_frame.
  - apply same_index_length.
    now rewrite index_prices_frame, index_holdings.
Qed.

Lemma prices_frame_row (os : list order) (k : nat) (d : Z) (ra : row) :
  nth_error (prices_frame tr pr os) k = Some (d, ra) ->
  ra = upd (price_row pr (symbols_of os) d) Cash 1.
Proof.
  unfold prices_frame. rewrite nth_error_map.
  destruct (nth_error (window tr os) k); simpl; intro H; inversion H.
  reflexivity.
Qed.

(** One entry of the series: the day's prices against the day's ledger. *)
Lemma port_vals_entry (os : list order) (sv imp com : Qc) (k : nat)
    (d : Z) (v : Qc) :
  nth_error (port_vals tr pr os sv imp com) k = Some (d, v) ->
  exists r,
    nth_error (holdings tr pr os sv imp com) k = Some (d, r) /\
    v = r Cash + sumQ (map (fun s => r (Sym s) * pr d s) (symbols_of os)).
Proof.
  unfold port_vals. rewrite nth_error_mul_sum.
  destruct (nth_error (prices_frame tr pr os) k) as [[d1 ra]|] eqn:Ea;
    [|discriminate].
  destruct (nth_error (holdings tr pr os sv imp com) k) as [[d3 r]|] eqn:Eb;
    [|discriminate].
  intro H. inversion H; subst. clear H.
  assert (d = d3).
  { apply nth_error_index in Ea, Eb.
    rewrite index_prices_frame in Ea. rewrite index_holdings in Eb.
    congruence. }
  subst d3. exists r. split; auto.
  rewrite (prices_frame_row os k d ra Ea).
  rewrite row_dot_split. unfold upd at 2. simpl col_eqb. cbv iota.
  rewrite Qcplus_comm. f_equal; [ring|].
  apply sumQ_map_ext. intros s Hs.
  unfold upd, price_row. simpl col_eqb. cbv iota.
  replace (existsb (String.eqb s) (symbols_of os)) with true.
  - ring.
  - symmetry. apply existsb_exists. exists s. split; auto.
    apply String.eqb_refl.
Qed.

Lemma port_vals_at (os : list order) (sv imp com : Qc) (k : nat)
    (d : Z) (r : row) :
  nth_error (holdings tr pr os sv imp com) k = Some (d, r) ->
  nth_error (port_vals tr pr os sv imp com) k
  = Some (d, r Cash + sumQ (map (fun s => r (Sym s) * pr d s)
                              (symbols_of os))).
Proof.
  intro Hr.
  destruct (nth_error (port_vals tr pr os sv imp com) k) as [[d' v]|] eqn:E.
  - destruct (port_vals_entry os sv imp com k d' v E) as [r' [Hr' Hv]].
    rewrite Hr in Hr'. inversion Hr'; subst. reflexivity.
  - exfalso. apply nth_error_None in E.
    assert (L : List.length (port_vals tr pr os sv imp com)
                = List.length (holdings tr pr os sv imp com)).
    { rewrite <- (length_map fst (port_vals tr pr os sv imp com)).
      rewrite index_port_vals, <- (index_holdings os sv imp com).
      apply length_map. }
    assert (k < List.length (holdings tr pr os sv imp com))%nat
      by (apply nth_error_Some; congruence).
    lia.
Qed.

(** A row of [data_3] is the row above plus the row of [data_2]. *)
Lemma scan_next (c : col) (d3 : frame) :
  forall (d2 : frame) (d0 : Z) (prev : row) (k : nat) (dp : Z) (rp : row)
         (d : Z) (r : row),
  index d3 = index d2 ->
  nth_error ((d0, prev) :: scan prev d3 d2) k = Some (dp, rp) ->
  nth_error ((d0, prev) :: scan prev d3 d2) (S k) = Some (d, r) ->
  exists r2, nth_error d2 k = Some (d, r2) /\ r c = r2 c + rp c.
Proof.
  induction d3 as [|[d' r'] d3 IH]; intros d2 d0 prev k dp rp d r Hi Hk HSk.
  - simpl in HSk. destruct k; discriminate.
  - destruct d2 as [|[d'' r2'] d2]; [discriminate|].
    simpl in Hi. inversion Hi; subst d''.
    simpl scan in Hk, HSk.
    destruct k as [|k].
    + simpl in Hk, HSk. inversion Hk; inversion HSk; subst.
      exists r2'. split; auto. apply next_row_eq.
    + simpl in Hk. change (nth_error ((d0, prev) :: ?l) (S (S k)))
        with (nth_error l (S k)) in HSk.
      apply (IH d2 d' (next_row r' r2' prev) k dp rp d r H1 Hk HSk).
Qed.

Lemma holdings_next (os : list order) (sv imp com : Qc) (k : nat)
    (dp : Z) (rp : row) (d : Z) (r : row) (c : col) :
  nth_error (holdings tr pr os sv imp com) k = Some (dp, rp) ->
  nth_error (holdings tr pr os sv imp com) (S k) = Some (d, r) ->
  r c = cell (deltas tr pr os imp com) d c + rp c.
Proof.
  unfold holdings, ledger_of.
  destruct (window tr os) as [|d0 idx] eqn:Ew.
  { unfold holdings_0. rewrite Ew. destruct k; discriminate. }
  assert (Hs := window_sorted os).
  rewrite <- (index_deltas os imp com) in Hs.
  apply sorted_NoDup in Hs.
  destruct (frame_shape _ _ _ (eq_trans (index_deltas os imp com) Ew))
    as [r2 [rest2 [E2 I2]]].
  destruct (frame_shape _ _ _ (eq_trans (index_holdings_0 os sv) Ew))
    as [r3 [rest3 [E3 I3]]].
  rewrite E2 in Hs |- *. rewrite E3.
  intros Hk HSk.
  destruct (scan_next c rest3 rest2 d0 (seed_row r3 r2) k dp rp d r
              (eq_trans I3 (eq_sym I2)) Hk HSk) as [r2' [Hn Hr]].
  rewrite Hr. f_equal. symmetry.
  apply cell_In; auto. right. now apply nth_error_In in Hn.
Qed.

(** * When a run returns *)

Lemma dates_ok_dec (os : list order) :
  {dates_ok tr os} +
  {Exists (fun x => ~ In (Date x) (window tr os)) (filter has_side os)}.
Proof.
  apply Forall_Exists_dec. intro x. apply in_dec, Z.eq_dec.
Qed.

Lemma run_returns (os : list order) (sv com imp : Qc)
    (series : list (Z * Qc)) (h' : heap) :
  compute_portvals tr pr sv com imp (init_heap os) = (Ok series, h') ->
  os <> [] /\ window tr os <> [] /\ dates_ok tr os /\
  series = port_vals tr pr os sv imp com /\
  h' = mk_heap os (Some (prices_frame tr pr os))
         (Some (deltas tr pr os imp com))
         (Some (holdings tr pr os sv imp com)).
Proof.
  destruct os as [|o rest].
  - rewrite run_empty. discriminate.
  - destruct (window tr (o :: rest)) as [|d0 idx] eqn:Ew.
    + rewrite run_no_rows by exact Ew. discriminate.
    + assert (Hw : window tr (o :: rest) <> []) by (rewrite Ew; discriminate).
      destruct (dates_ok_dec (o :: rest)) as [Hall|Hex].
      * rewrite run_ok by assumption. intro E. inversion E; subst.
        rewrite <- Ew. repeat split; auto. discriminate.
      * destruct (run_KeyError o rest sv com imp Hw Hex) as [d2' E].
        rewrite E. discriminate.
Qed.

Lemma dates_ok_forallb (os : list order) :
  dates_ok tr os <->
  forallb (fun d => existsb (Z.eqb d) (window tr os))
    (map Date (filter has_side os)) = true.
Proof.
  unfold dates_ok. rewrite forallb_forall, Forall_forall. split.
  - intros H d Hd. apply in_map_iff in Hd. destruct Hd as [x [<- Hx]].
    apply existsb_exists. exists (Date x). split; auto using Z.eqb_refl.
  - intros H x Hx. specialize (H (Date x) (in_map Date _ _ Hx)).
    apply existsb_exists in H. destruct H as [y [Hy E]].
    apply Z.eqb_eq in E. now subst.
Qed.

(** The four ways a run ends, with the heap it leaves. *)
Lemma run_cases (os : list order) (sv com imp : Qc) :
  (os = [] /\
   compute_portvals tr pr sv com imp (init_heap os)
   = (Raise IndexError, init_heap os))
  \/ (os <> [] /\ window tr os = [] /\
      compute_portvals tr pr sv com imp (init_heap os)
      = (Raise IndexError, mk_heap os (Some []) (Some []) (Some [])))
  \/ (os <> [] /\ window tr os <> [] /\ ~ dates_ok tr os /\
      exists d2',
        compute_portvals tr pr sv com imp (init_heap os)
        = (Raise KeyError,
           mk_heap os (Some (prices_frame tr pr os)) (Some d2')
             (Some (holdings_0 tr pr os sv))))
  \/ (os <> [] /\ window tr os <> [] /\ dates_ok tr os /\
      compute_portvals tr pr sv com imp (init_heap os)
      = (Ok (port_vals tr pr os sv imp com),
         mk_heap os (Some (prices_frame tr pr os))
           (Some (deltas tr pr os imp com))
           (Some (holdings tr pr os sv imp com)))).
Proof.
  destruct os as [|o rest].
  - left. split; auto.
  - right.
    assert (Hne : o :: rest <> []) by discriminate.
    destruct (window tr (o :: rest)) as [|d0 idx] eqn:Ew.
    + left. repeat split; auto. now apply run_no_rows.
    + right.
      assert (Hw : window tr (o :: rest) <> []) by (rewrite Ew; discriminate).
      rewrite <- Ew.
      destruct (dates_ok_dec (o :: rest)) as [Hall|Hex].
      * right. repeat split; auto. now apply run_ok.
      * left. repeat split; auto.
        -- intro Hall. apply Exists_exists in Hex.
           destruct Hex as [x [Hx Nx]].
           unfold dates_ok in Hall. rewrite Forall_forall in Hall. auto.
        -- now apply run_KeyError.
Qed.

Lemma run_outcome (os : list order) (sv com imp : Qc) :
  outcome (fst (compute_portvals tr pr sv com imp (init_heap os)))
  = predicted_outcome tr os.
Proof.
  unfold predicted_outcome.
  destruct (run_cases os sv com imp)
    as [[E R]|[[Hne [Ew R]]|[[Hne [Hw [Hno [d2' R]]]]|[Hne [Hw [Hall R]]]]]];
    rewrite R; simpl.
  - now subst.
  - destruct os; [contradiction|]. now rewrite Ew.
  - destruct os; [contradiction|].
    destruct (window tr (o :: os)) eqn:Ew; [contradiction|].
    rewrite <- Ew.
    destruct (forallb _ _) eqn:F; auto.
    exfalso. apply Hno. now apply dates_ok_forallb.
  - destruct os; [contradiction|].
    destruct (window tr (o :: os)) eqn:Ew; [contradiction|].
    rewrite <- Ew.
    apply dates_ok_forallb in Hall. now rewrite Hall.
Qed.

(** * The ledger in the words of the specification *)

Lemma fold_left_sum {A} (f : A -> Qc) (l : list A) :
  forall a, fold_left (fun acc x => acc + f x) l a = a + sumQ (map f l).
Proof.
  induction l as [|x l IH]; intro a; simpl.
  - ring.
  - rewrite IH. ring.
Qed.

Lemma fold_left_sum_if {A} (p : A -> bool) (f : A -> Qc) (l : list A) :
  forall a,
  fold_left (fun acc x => if p x then acc + f x else acc) l a
  = a + sumQ (map (fun x => if p x then f x else 0) l).
Proof.
  induction l as [|x l IH]; intro a; simpl.
  - ring.
  - rewrite IH. destruct (p x); ring.
Qed.

Lemma side_of_has_side (o : order) : side_of o <> None -> has_side o = true.
Proof.
  unfold side_of, has_side. destruct (Order o); auto.
Qed.

Lemma applied_delta_cash (imp com : Qc) (o : order) :
  side_of o <> None ->
  applied_delta pr imp com o Cash = snd (order_effect pr imp com o).
Proof.
  intro H. unfold applied_delta, order_effect.
  rewrite (side_of_has_side o H).
  unfold side_of, bos_of, is_sell in *.
  destruct (Order o) as [s|]; [|contradiction].
  destruct (String.eqb_spec s "BUY") as [E|E].
  - subst s. simpl. ring.
  - destruct (String.eqb s "SELL"); [|contradiction]. simpl. ring.
Qed.

Lemma applied_delta_sym (imp com : Qc) (o : order) (s : string) :
  side_of o <> None ->
  applied_delta pr imp com o (Sym s)
  = if String.eqb (Symbol o) s then fst (order_effect pr imp com o) else 0.
Proof.
  intro H. unfold applied_delta, order_effect.
  rewrite (side_of_has_side o H).
  destruct (String.eqb (Symbol o) s); [|reflexivity].
  unfold side_of, bos_of, is_sell in *.
  destruct (Order o) as [sd|]; [|contradiction].
  destruct (String.eqb_spec sd "BUY") as [E|E].
  - subst sd. simpl. ring.
  - destruct (String.eqb sd "SELL"); [|contradiction]. simpl. ring.
Qed.

Lemma holdings_ledger (os : list order) (sv imp com : Qc) (d : Z) (r : row) :
  (forall o, In o os -> side_of o <> None) ->
  dates_ok tr os ->
  In (d, r) (holdings tr pr os sv imp com) ->
  r Cash = ledger_cash pr imp com os sv d /\
  forall s, r (Sym s) = ledger_position pr imp com os d s.
Proof.
  intros Hside Hall Hin. split; [|intro s].
  - rewrite (holdings_closed_form os sv imp com d r Cash Hall Hin).
    unfold ledger_cash. rewrite fold_left_sum. simpl. f_equal.
    apply sumQ_map_ext. intros o Ho. apply filter_In in Ho.
    apply applied_delta_cash, Hside, Ho.
  - rewrite (holdings_closed_form os sv imp com d r (Sym s) Hall Hin).
    unfold ledger_position. rewrite fold_left_sum_if. simpl. f_equal.
    apply sumQ_map_ext. intros o Ho. apply filter_In in Ho.
    apply applied_delta_sym, Hside, Ho.
Qed.

End Runs.

(** * The order in which the orders are applied *)

Lemma apply_in_order_ok (imp com : Qc) (os : list order) (d1 : frame)
    (x3 : option frame) (l : list order) :
  forall d2 : frame,
  index d1 = index d2 ->
  Forall (fun o => In (Date o) (index d2)) (filter has_side l) ->
  apply_in_order imp com l (mk_heap os (Some d1) (Some d2) x3)
  = (Ok tt,
     mk_heap os (Some d1)
       (Some (fold_left (post_in_order d1 imp com) l d2)) x3).
Proof.
  unfold apply_in_order. induction l as [|o rest IH]; intros d2 Hi Hall.
  - reflexivity.
  - simpl for_each. simpl fold_left. unfold post_in_order at 2.
    simpl filter in Hall. destruct (has_side o) eqn:Es.
    + inversion Hall as [|? ? Ho Hrest]; subst.
      erewrite bind_ok
        by (apply calculate_data_2_ok; [exact Ho | rewrite Hi; exact Ho]).
      rewrite <- post_ext. apply IH.
      * now rewrite index_post.
      * now rewrite index_post.
    + erewrite bind_ok by reflexivity. now apply IH.
Qed.

Lemma apply_in_order_KeyError (imp com : Qc) (os : list order) (d1 : frame)
    (x3 : option frame) (l : list order) :
  forall d2 : frame,
  index d1 = index d2 ->
  Exists (fun o => ~ In (Date o) (index d2)) (filter has_side l) ->
  exists d2',
    apply_in_order imp com l (mk_heap os (Some d1) (Some d2) x3)
    = (Raise KeyError, mk_heap os (Some d1) (Some d2') x3).
Proof.
  unfold apply_in_order. induction l as [|o rest IH]; intros d2 Hi Hex.
  - inversion Hex.
  - simpl for_each. simpl filter in Hex. destruct (has_side o) eqn:Es.
    + destruct (in_dec Z.eq_dec (Date o) (index d2)) as [Hin|Hout].
      * erewrite bind_ok
          by (apply calculate_data_2_ok; [exact Hin | rewrite Hi; exact Hin]).
        rewrite <- post_ext. apply IH.
        -- now rewrite index_post.
        -- rewrite index_post.
           inversion Hex; subst; [contradiction | assumption].
      * exists d2. apply bind_raise.
        now apply (calculate_data_2_KeyError _ d2).
    + erewrite bind_ok by reflexivity. now apply IH.
Qed.

Lemma index_fold_post_in_order (d1 : frame) (imp com : Qc) (l : list order) :
  forall df, index (fold_left (post_in_order d1 imp com) l df) = index df.
Proof.
  induction l as [|o rest IH]; intro df; simpl; auto.
  rewrite IH. unfold post_in_order.
  destruct (has_side o); auto using index_post.
Qed.

Lemma cell_fold_post_in_order (d1 : frame) (imp com : Qc) (l : list order)
    (d : Z) (c : col) :
  forall df,
  Forall (fun o => In (Date o) (index df)) (filter has_side l) ->
  cell (fold_left (post_in_order d1 imp com) l df) d c
  = cell df d c
    + sumQ (map (fun o => if has_side o
                          then order_delta d1 imp com (bos_of o) o c
                          else 0)
              (filter (fun o => Z.eqb (Date o) d) l)).
Proof.
  induction l as [|o rest IH]; intros df Hall; simpl.
  - ring.
  - unfold post_in_order at 2. simpl filter in Hall.
    destruct (has_side o) eqn:Es.
    + inversion Hall as [|? ? Ho Hrest]; subst.
      rewrite IH by (rewrite index_post; exact Hrest).
      rewrite cell_post by exact Ho.
      destruct (Z.eqb (Date o) d); simpl; rewrite ?Es; ring.
    + rewrite IH by exact Hall.
      destruct (Z.eqb (Date o) d); simpl; rewrite ?Es; ring.
Qed.

Lemma sum_filter_perm {A} (p : A -> bool) (f : A -> Qc) (l l' : list A) :
  Permutation l l' ->
  sumQ (map f (filter p l)) = sumQ (map f (filter p l')).
Proof.
  induction 1 as [|x l l' _ IH|x y l|l l' l'' _ IH1 _ IH2]; simpl.
  - reflexivity.
  - destruct (p x); simpl; now rewrite IH.
  - destruct (p x), (p y); simpl; ring.
  - now rewrite IH1.
Qed.

Lemma frame_eqv_of_cells (a : frame) :
  forall b : frame,
  index a = index b -> NoDup (index a) ->
  (forall d c, In d (index a) -> cell a d c = cell b d c) ->
  frame_eqv a b.
Proof.
  unfold frame_eqv.
  induction a as [|[d r] a IH]; intros b Hi Hnd Hc.
  - destruct b; [constructor | discriminate].
  - destruct b as [|[d' r'] b]; [discriminate|].
    simpl in Hi. inversion Hi; subst d'.
    simpl in Hnd. inversion Hnd as [|? ? Hd Hnd']; subst.
    constructor.
    + split; auto. intro c.
      specialize (Hc d c (or_introl eq_refl)).
      unfold cell in Hc. simpl in Hc. now rewrite Z.eqb_refl in Hc.
    + apply IH; auto. intros d' c Hd'.
      specialize (Hc d' c (or_intror Hd')).
      unfold cell in Hc |- *. simpl in Hc.
      destruct (Z.eqb d d') eqn:E; auto.
      apply Z.eqb_eq in E. subst d'. contradiction.
Qed.

Lemma frame_eqv_refl (a : frame) : frame_eqv a a.
Proof. unfold frame_eqv. induction a; constructor; auto. Qed.

Lemma scan_eqv (d3 : frame) :
  forall (a b : frame) (prev prev' : row),
  frame_eqv a b -> (forall c, prev c = prev' c) ->
  frame_eqv (scan prev d3 a) (scan prev' d3 b).
Proof.
  unfold frame_eqv.
  induction d3 as [|[d r] d3 IH]; intros a b prev prev' Hab Hp.
  - simpl. constructor.
  - destruct Hab as [|[da ra] [db rb] a b [_ Hr] Hab].
    + simpl. apply frame_eqv_refl.
    + simpl. constructor.
      * split; auto. intro c. simpl. rewrite !next_row_eq.
        simpl in Hr. now rewrite Hr, Hp.
      * apply IH; auto. intro c. rewrite !next_row_eq.
        simpl in Hr. now rewrite Hr, Hp.
Qed.

Lemma ledger_of_eqv (d3 a b : frame) :
  frame_eqv a b -> frame_eqv (ledger_of d3 a) (ledger_of d3 b).
Proof.
  intro Hab. unfold ledger_of.
  destruct d3 as [|[d0 r3] rest3]; [constructor|].
  destruct Hab as [|[da ra] [db rb] a b [_ Hr] Hab]; [constructor|].
  simpl in Hr.
  assert (Hs : forall c, seed_row r3 ra c = seed_row r3 rb c).
  { intro c. unfold seed_row, upd, upd_syms.
    destruct c; simpl; now rewrite ?Hr. }
  constructor.
  - split; auto.
  - now apply scan_eqv.
Qed.

Lemma mul_sum_eqv (symbols : list string) (d1 : frame) :
  forall a b : frame,
  frame_eqv a b -> mul_sum symbols d1 a = mul_sum symbols d1 b.
Proof.
  unfold mul_sum.
  induction d1 as [|[d r1] d1 IH]; intros a b Hab; [reflexivity|].
  destruct Hab as [|[da ra] [db rb] a b [_ Hr] Hab]; [reflexivity|].
  simpl. f_equal.
  - f_equal. rewrite !row_dot_split. simpl in Hr. rewrite Hr. f_equal.
    apply sumQ_map_ext. intros s _. now rewrite Hr.
  - now apply IH.
Qed.

(** The two passes of the code against one pass in any order of the rows. *)
Lemma passes_agree (os0 : list order) (d1 d2 : frame) (x3 : option frame)
    (orders orders' : list order) (imp com : Qc) :
  index d1 = index d2 -> NoDup (index d2) ->
  Permutation orders orders' ->
  (exists a b,
      apply_sell_then_buy orders imp com (mk_heap os0 (Some d1) (Some d2) x3)
      = (Raise KeyError, mk_heap os0 (Some d1) (Some a) x3) /\
      apply_in_order imp com orders' (mk_heap os0 (Some d1) (Some d2) x3)
      = (Raise KeyError, mk_heap os0 (Some d1) (Some b) x3))
  \/
  (exists a b,
      apply_sell_then_buy orders imp com (mk_heap os0 (Some d1) (Some d2) x3)
      = (Ok tt, mk_heap os0 (Some d1) (Some a) x3) /\
      apply_in_order imp com orders' (mk_heap os0 (Some d1) (Some d2) x3)
      = (Ok tt, mk_heap os0 (Some d1) (Some b) x3) /\
      index a = index d2 /\ index b = index d2 /\ frame_eqv a b).
Proof.
  intros Hi Hnd Hperm.
  assert (Hp' : Permutation (filter has_side orders)
                  (filter has_side orders')).
  { clear -Hperm. induction Hperm; simpl.
    - constructor.
    - destruct (has_side x); auto.
    - destruct (has_side x), (has_side y); auto. constructor.
    - eapply perm_trans; eauto. }
  destruct (Forall_Exists_dec (fun x => In (Date x) (index d2))
              (fun x => in_dec Z.eq_dec (Date x) (index d2))
              (filter has_side orders)) as [Hall|Hex].
  - right.
    assert (Hall' : Forall (fun x => In (Date x) (index d2))
                      (filter has_side orders')).
    { rewrite Forall_forall in *. intros x Hx. apply Hall.
      eapply Permutation_in; [apply Permutation_sym; exact Hp' | exact Hx]. }
    eexists. eexists. split; [|split; [|split; [|split]]].
    + now apply apply_sell_then_buy_ok.
    + now apply apply_in_order_ok.
    + now rewrite !index_fold_post.
    + now rewrite index_fold_post_in_order.
    + apply frame_eqv_of_cells.
      * now rewrite !index_fold_post, index_fold_post_in_order.
      * now rewrite !index_fold_post.
      * intros d c _.
        rewrite cell_fold_post
          by (rewrite index_fold_post; now apply buys_have_side).
        rewrite cell_fold_post by now apply sells_have_side.
        rewrite cell_fold_post_in_order by exact Hall'.
        rewrite <- Qcplus_assoc. f_equal.
        rewrite sum_two_passes.
        -- rewrite (sum_filter_perm _ _ orders orders' Hperm).
           apply sumQ_map_ext. intros o _.
           unfold has_side, bos_of, is_sell, is_buy.
           destruct (Order o) as [sd|]; [|reflexivity].
           destruct (String.eqb sd "SELL"); reflexivity.
        -- intros x. unfold is_sell, is_buy. destruct (Order x); auto.
           intro E. now rewrite E.
  - left.
    assert (Hex' : Exists (fun x => ~ In (Date x) (index d2))
                     (filter has_side orders')).
    { apply Exists_exists in Hex. destruct Hex as [x [Hx Nx]].
      apply Exists_exists. exists x. split; auto.
      eapply Permutation_in; [exact Hp' | exact Hx]. }
    destruct (apply_sell_then_buy_KeyError os0 orders d1 d2 x3 imp com Hi Hex)
      as [a Ea].
    destruct (apply_in_order_KeyError imp com os0 d1 x3 orders' d2 Hi Hex')
      as [b Eb].
    exists a, b. auto.
Qed.

(** * The claims *)

(** C1.  Every snapshot a run emits is the cash of its day plus, over the
    traded symbols, the position of the day times the price of the day,
    where cash and positions are the starting cash and zero positions
    updated by the Cost Model deltas of every order dated on or before
    that day. *)
Theorem snapshot_is_cash_plus_positions (tr : Z -> bool)
    (pr : Z -> string -> Qc) (os : list order) (sv com imp : Qc)
    (series : list (Z * Qc)) :
  (forall o, In o os -> side_of o <> None) ->
  run tr pr os sv com imp = Ok series ->
  forall d v, In (d, v) series -> v = snapshot_value pr imp com os sv d.
Proof.
  intros Hside Hrun d v Hin. unfold run in Hrun.
  destruct (compute_portvals tr pr sv com imp (init_heap os)) as [res h']
    eqn:E.
  simpl in Hrun. subst res.
  destruct (run_returns tr pr os sv com imp series h' E)
    as [_ [_ [Hall [Hs _]]]].
  subst series.
  apply In_nth_error in Hin. destruct Hin as [k Hk].
  destruct (port_vals_entry tr pr os sv imp com k d v Hk) as [r [Hr Hv]].
  apply nth_error_In in Hr.
  destruct (holdings_ledger tr pr os sv imp com d r Hside Hall Hr)
    as [Hc Hp].
  unfold snapshot_value. rewrite Hv, Hc. f_equal.
  apply sumQ_map_ext. intros s _. now rewrite Hp.
Qed.

Lemma snapshot_witness :
  snd (nth 2 demo_series (0%Z, 0))
  = snapshot_value rising default_impact default_commission demo_orders
      default_start_val 2.
Proof.
  apply (snapshot_is_cash_plus_positions every_day rising demo_orders
           default_start_val default_commission default_impact demo_series).
  - intros o [<-|[<-|[]]]; discriminate.
  - vm_compute. reflexivity.
  - vm_compute. right. right. left. reflexivity.
Defined.


(** C2.  One order with positive shares, a positive price, a commission
    that is not negative and an impact in [0,1): the two passes of lines
    51-77 add [+shares] to the position and
    [-shares*price*(1+impact) - commission] to the cash of its day for a
    BUY, and [-shares] and [+shares*price*(1-impact) - commission] for a
    SELL. *)
Theorem order_deltas (os : list order) (d1 d2 : frame) (x3 : option frame)
    (o : order) (impact commission price : Qc) :
  0 < Shares o -> 0 < price -> 0 <= commission ->
  0 <= impact -> impact < 1 ->
  index d1 = index d2 -> In (Date o) (index d2) ->
  cell d1 (Date o) (Sym (Symbol o)) = price ->
  exists d2',
    apply_sell_then_buy [o] impact commission
      (mk_heap os (Some d1) (Some d2) x3)
    = (Ok tt, mk_heap os (Some d1) (Some d2') x3) /\
    (Order o = Some "BUY"%string ->
       cell d2' (Date o) (Sym (Symbol o))
       = cell d2 (Date o) (Sym (Symbol o)) + Shares o /\
       cell d2' (Date o) Cash
       = cell d2 (Date o) Cash
         + (- (Shares o * price * (1 + impact)) - commission)) /\
    (Order o = Some "SELL"%string ->
       cell d2' (Date o) (Sym (Symbol o))
       = cell d2 (Date o) (Sym (Symbol o)) + - Shares o /\
       cell d2' (Date o) Cash
       = cell d2 (Date o) Cash
         + (Shares o * price * (1 - impact) - commission)).
Proof.
  intros _ _ _ _ _ Hi Hd Hp.
  eexists. split.
  - apply apply_sell_then_buy_ok; [exact Hi|].
    apply Forall_forall. intros x Hx. apply filter_In in Hx.
    destruct Hx as [[<-|[]] _]. exact Hd.
  - split; intro Eo.
    + assert (Es : is_sell o = false) by (unfold is_sell; now rewrite Eo).
      assert (Eb : is_buy o = true) by (unfold is_buy; now rewrite Eo).
      simpl filter. rewrite Es, Eb. simpl fold_left.
      rewrite !cell_post by exact Hd. rewrite Z.eqb_refl.
      unfold order_delta. rewrite String.eqb_refl, Hp. split; ring.
    + assert (Es : is_sell o = true) by (unfold is_sell; now rewrite Eo).
      assert (Eb : is_buy o = false) by (unfold is_buy; now rewrite Eo).
      simpl filter. rewrite Es, Eb. simpl fold_left.
      rewrite !cell_post by exact Hd. rewrite Z.eqb_refl.
      unfold order_delta. rewrite String.eqb_refl, Hp. split; ring.
Qed.

Lemma order_deltas_witness :
  exists d2',
    apply_sell_then_buy [buy 1 "JPM" 1000] default_impact default_commission
      (mk_heap [] (Some demo_prices) (Some demo_deltas) None)
    = (Ok tt, mk_heap [] (Some demo_prices) (Some d2') None) /\
    cell d2' 1 (Sym "JPM") = cell demo_deltas 1 (Sym "JPM") + qz 1000 /\
    cell d2' 1 Cash
    = cell demo_deltas 1 Cash
      + (- (qz 1000 * qz 50 * (1 + default_impact)) - default_commission).
Proof.
  destruct (order_deltas [] demo_prices demo_deltas None (buy 1 "JPM" 1000)
              default_impact default_commission (qz 50))
    as [d2' [E [Hb _]]].
  - reflexivity.
  - reflexivity.
  - vm_compute. discriminate.
  - vm_compute. discriminate.
  - reflexivity.
  - reflexivity.
  - vm_compute. right. left. reflexivity.
  - reflexivity.
  - exists d2'. split; [exact E|]. apply Hb. reflexivity.
Defined.


Lemma in_window (tr : Z -> bool) (o : order) (rest : list order) (d : Z) :
  In d (window tr (o :: rest))
  <-> tr d = true /\ (Date o - 1 <= d <= Date (last rest o))%Z.
Proof.
  simpl. rewrite filter_In, date_range_In. tauto.
Qed.

(** C3, as the code has it.  For every non-empty order sequence whose
    orders are all dated on a trading day between the day before the first
    row's date and the last row's date, the run returns a series in
    ascending date order, without duplicate dates, with exactly one
    snapshot for every trading day from the first row's date to the last
    row's date, and with no snapshot dated after the last row's date. *)
Theorem series_covers_first_to_last (tr : Z -> bool) (pr : Z -> string -> Qc)
    (o : order) (rest : list order) (sv com imp : Qc) :
  (forall x, In x (o :: rest) ->
     has_side x = true /\ tr (Date x) = true /\
     (Date o - 1 <= Date x <= Date (last rest o))%Z) ->
  exists series,
    run tr pr (o :: rest) sv com imp = Ok series /\
    StronglySorted Z.lt (map fst series) /\
    NoDup (map fst series) /\
    (forall d, (Date o <= d <= Date (last rest o))%Z -> tr d = true ->
       count_occ Z.eq_dec (map fst series) d = 1%nat) /\
    (forall d, In d (map fst series) ->
       tr d = true /\ (d <= Date (last rest o))%Z).
Proof.
  intro H.
  assert (Hw : window tr (o :: rest) <> []).
  { destruct (H o (or_introl eq_refl)) as [_ [Ht Hr]].
    assert (Hin : In (Date o) (window tr (o :: rest)))
      by (apply in_window; auto).
    intro E. rewrite E in Hin. destruct Hin. }
  assert (Hall : dates_ok tr (o :: rest)).
  { apply Forall_forall. intros x Hx. apply filter_In in Hx.
    destruct Hx as [Hx _]. apply in_window.
    destruct (H x Hx) as [_ [Ht Hr]]. auto. }
  exists (port_vals tr pr (o :: rest) sv imp com).
  unfold run. rewrite run_ok by assumption.
  rewrite index_port_vals.
  assert (Hs := window_sorted tr (o :: rest)).
  assert (Hnd := sorted_NoDup _ Hs).
  split; [reflexivity|]. split; [exact Hs|]. split; [exact Hnd|]. split.
  - intros d Hd Ht. apply NoDup_count_occ'; auto.
    apply in_window. split; auto. lia.
  - intros d Hd. apply in_window in Hd. split; [tauto | lia].
Qed.

Lemma series_covers_witness :
  exists series,
    run every_day rising demo_orders default_start_val default_commission
      default_impact = Ok series /\
    StronglySorted Z.lt (map fst series) /\
    NoDup (map fst series) /\
    (forall d, (1 <= d <= 3)%Z -> every_day d = true ->
       count_occ Z.eq_dec (map fst series) d = 1%nat) /\
    (forall d, In d (map fst series) -> every_day d = true /\ (d <= 3)%Z).
Proof.
  apply (series_covers_first_to_last every_day rising (buy 1 "JPM" 1000)
           [sell 3 "JPM" 1000] default_start_val default_commission
           default_impact).
  intros x [<-|[<-|[]]]; simpl; repeat split; lia.
Defined.


(** C3 as stated fails: three well-formed BUY orders on trading days, not
    in date order; the window is taken from the first and the last row, the
    order dated before it has no row, and no series is returned. *)
Lemma unsorted_orders_raise :
  let orders := [buy 3 "JPM" 10; buy 1 "JPM" 10; buy 4 "JPM" 10] in
  orders <> [] /\
  run every_day flat50 orders (qz 100000) 0 0 = Raise KeyError /\
  ~ (exists series,
       run every_day flat50 orders (qz 100000) 0 0 = Ok series).
Proof.
  cbv zeta. split; [discriminate|].
  assert (E : run every_day flat50
                [buy 3 "JPM" 10; buy 1 "JPM" 10; buy 4 "JPM" 10]
                (qz 100000) 0 0 = Raise KeyError)
    by (vm_compute; reflexivity).
  split; [exact E|].
  intros [series Hs]. rewrite E in Hs. discriminate.
Qed.

(** C4.  A day of the final [data_3] on which no order is dated: its
    ledger (cash and every position) is the ledger of the row above, or
    the starting cash and no shares when it is the first row; and when
    every price of the day is the price of the day above, the two snapshots
    have the same value. *)
Theorem carry_forward (tr : Z -> bool) (pr : Z -> string -> Qc)
    (os : list order) (sv com imp : Qc) (series : list (Z * Qc)) (h' : heap)
    (d3 : frame) (d : Z) (r : row) :
  compute_portvals tr pr sv com imp (init_heap os) = (Ok series, h') ->
  data_3 h' = Some d3 ->
  (forall o, In o os -> Date o <> d) ->
  (nth_error d3 0 = Some (d, r) ->
   r Cash = sv /\ forall s, r (Sym s) = 0) /\
  (forall k dp rp,
     nth_error d3 k = Some (dp, rp) ->
     nth_error d3 (S k) = Some (d, r) ->
     (r Cash = rp Cash /\ forall s, r (Sym s) = rp (Sym s)) /\
     ((forall s, pr d s = pr dp s) ->
      exists v,
        nth_error series k = Some (dp, v) /\
        nth_error series (S k) = Some (d, v))).
Proof.
  intros E H3 Hno.
  destruct (run_returns tr pr os sv com imp series h' E)
    as [_ [_ [Hall [Hs Hh]]]].
  subst h'. simpl in H3. inversion H3; subst d3. clear H3.
  assert (Hzero : forall c, cell (deltas tr pr os imp com) d c = 0).
  { intro c. rewrite cell_deltas by exact Hall.
    apply sumQ_map_zero.
    intros o Ho. apply filter_In in Ho. destruct Ho as [Ho Ed].
    apply Z.eqb_eq in Ed. exfalso. exact (Hno o Ho Ed). }
  split.
  - intro H0.
    assert (G : forall c, r c = seed sv c).
    { intro c. assert (Hin0 := nth_error_In _ _ H0).
      rewrite (holdings_closed_form tr pr os sv imp com d r c Hall Hin0).
      rewrite sumQ_map_zero; [ring|].
      intros o Ho. apply filter_In in Ho. destruct Ho as [Ho Hle].
      unfold applied_delta. destruct (has_side o) eqn:Es; auto.
      exfalso.
      assert (Hin : In (Date o) (window tr os)).
      { unfold dates_ok in Hall. rewrite Forall_forall in Hall.
        apply Hall. apply filter_In. auto. }
      apply Z.leb_le in Hle.
      assert (Hd0 : nth_error (window tr os) 0 = Some d).
      { rewrite <- (index_holdings tr pr os sv imp com).
        exact (nth_error_index _ 0%nat d r H0). }
      assert (Hsort := window_sorted tr os).
      destruct (window tr os) as [|w0 ws]; [destruct Hin|].
      simpl in Hd0. inversion Hd0; subst w0.
      inversion Hsort as [|? ? _ Hlt]; subst.
      rewrite Forall_forall in Hlt.
      destruct Hin as [Heq|Hin].
      - exact (Hno o Ho (eq_sym Heq)).
      - specialize (Hlt _ Hin). lia. }
    split; [apply G | intro s; apply G].
  - intros k dp rp Hk HSk.
    assert (Hsame : forall c, r c = rp c).
    { intro c.
      rewrite (holdings_next tr pr os sv imp com k dp rp d r c Hk HSk).
      rewrite Hzero. ring. }
    split; [split; auto|].
    intro Hpr. subst series.
    eexists. split.
    + apply port_vals_at. exact Hk.
    + rewrite (port_vals_at tr pr os sv imp com (S k) d r HSk).
      f_equal. f_equal. rewrite Hsame. f_equal.
      apply sumQ_map_ext. intros s _. now rewrite Hsame, Hpr.
Qed.

Lemma carry_forward_witness :
  (nth_error free_ledger 0 = Some (2%Z, free_row 2) ->
   free_row 2 Cash = qz 100000 /\ forall s, free_row 2 (Sym s) = 0) /\
  (forall k dp rp,
     nth_error free_ledger k = Some (dp, rp) ->
     nth_error free_ledger (S k) = Some (2%Z, free_row 2) ->
     (free_row 2 Cash = rp Cash /\
      forall s, free_row 2 (Sym s) = rp (Sym s)) /\
     ((forall s, flat50 2 s = flat50 dp s) ->
      exists v,
        nth_error free_series k = Some (dp, v) /\
        nth_error free_series (S k) = Some (2%Z, v))).
Proof.
  apply (carry_forward every_day flat50 demo_orders (qz 100000) 0 0
           free_series (snd free_run) free_ledger 2 (free_row 2)).
  - reflexivity.
  - reflexivity.
  - intros o [<-|[<-|[]]]; discriminate.
Defined.


(** C5.  Without commission and impact, a BUY of [n] shares of a symbol
    followed by a SELL of [n] shares of it at the same price: from the
    later of the two days on, the cash and every position of the ledger are
    what the other orders alone make them. *)
Theorem round_trip_neutral (tr : Z -> bool) (pr : Z -> string -> Qc)
    (pre post : list order) (b s : order) (sv : Qc)
    (series : list (Z * Qc)) (h' : heap) (d3 : frame) (d : Z) (r : row) :
  Order b = Some "BUY"%string -> Order s = Some "SELL"%string ->
  Symbol s = Symbol b -> Shares s = Shares b ->
  pr (Date s) (Symbol b) = pr (Date b) (Symbol b) ->
  compute_portvals tr pr sv 0 0 (init_heap (pre ++ b :: s :: post))
  = (Ok series, h') ->
  data_3 h' = Some d3 -> In (d, r) d3 ->
  (Date b <= d)%Z -> (Date s <= d)%Z ->
  r Cash = ledger_row pr 0 0 (pre ++ post) sv d Cash /\
  forall s', r (Sym s') = ledger_row pr 0 0 (pre ++ post) sv d (Sym s').
Proof.
  intros Eb Es Esym Esh Epr E H3 Hin Hb Hs.
  destruct (run_returns tr pr _ sv 0 0 series h' E)
    as [_ [_ [Hall [_ Hh]]]].
  subst h'. simpl in H3. inversion H3; subst d3. clear H3.
  assert (G : forall c, r c = ledger_row pr 0 0 (pre ++ post) sv d c).
  { intro c.
    rewrite (holdings_closed_form tr pr _ sv 0 0 d r c Hall Hin).
    unfold ledger_row. f_equal.
    rewrite !filter_app. simpl filter.
    replace (Z.leb (Date b) d) with true by (symmetry; now apply Z.leb_le).
    replace (Z.leb (Date s) d) with true by (symmetry; now apply Z.leb_le).
    rewrite !map_app, !sumQ_app. cbn [map sumQ fold_right].
    assert (Z0 : applied_delta pr 0 0 b c + applied_delta pr 0 0 s c = 0).
    { unfold applied_delta, has_side, bos_of, is_sell.
      rewrite Eb, Es, Esym, Esh, Epr. simpl.
      destruct c as [s'|]; [destruct (String.eqb (Symbol b) s')|]; ring. }
    fold (sumQ (map (fun o => applied_delta pr 0 0 o c)
                  (filter (fun o => Z.leb (Date o) d) post))).
    rewrite (Qcplus_assoc (applied_delta pr 0 0 b c)), Z0. ring. }
  split; [apply G | intro s'; apply G].
Qed.

Lemma round_trip_witness :
  free_row 3 Cash = ledger_row flat50 0 0 [] (qz 100000) 3 Cash /\
  forall s', free_row 3 (Sym s')
             = ledger_row flat50 0 0 [] (qz 100000) 3 (Sym s').
Proof.
  apply (round_trip_neutral every_day flat50 [] [] (buy 1 "JPM" 1000)
           (sell 3 "JPM" 1000) (qz 100000) free_series (snd free_run)
           free_ledger 3 (free_row 3)).
  - reflexivity.
  - reflexivity.
  - reflexivity.
  - reflexivity.
  - reflexivity.
  - reflexivity.
  - reflexivity.
  - apply (nth_error_In free_ledger 3). reflexivity.
  - simpl. lia.
  - simpl. lia.
Defined.


Lemma same_last (os os' : list order) :
  Forall2 same_date_symbol os os' ->
  forall o o', Date o = Date o' -> Date (last os o) = Date (last os' o').
Proof.
  induction 1 as [|a b l l' Hab Hl IH]; intros o o' E; simpl; auto.
  destruct Hab as [Ed _].
  destruct l, l'; auto; try (inversion Hl; fail).
Qed.

Lemma same_window (tr : Z -> bool) (os os' : list order) :
  Forall2 same_date_symbol os os' -> window tr os = window tr os'.
Proof.
  intro H. destruct H as [|a b l l' Hab Hl]; simpl; auto.
  destruct Hab as [Ed _]. rewrite Ed.
  now rewrite (same_last l l' Hl a b Ed).
Qed.

Lemma same_sided_dates (os os' : list order) :
  Forall2 same_date_symbol os os' ->
  map Date (filter has_side os) = map Date (filter has_side os').
Proof.
  induction 1 as [|a b l l' Hab Hl IH]; simpl; auto.
  destruct Hab as [Ed [_ Es]]. rewrite Es.
  destruct (has_side b); simpl; congruence.
Qed.

(** C7, as the code has it.  No row is rejected for its shares or for the
    side it names: whether a run fails, and with which exception, is the
    same for two order sequences that agree row by row on the date, on the
    symbol and on whether a side is given at all. *)
Theorem shares_and_side_never_rejected (tr : Z -> bool)
    (pr : Z -> string -> Qc) (os os' : list order) (sv com imp : Qc) :
  Forall2 same_date_symbol os os' ->
  outcome (run tr pr os sv com imp) = outcome (run tr pr os' sv com imp).
Proof.
  intro H. unfold run. rewrite !run_outcome. unfold predicted_outcome.
  rewrite (same_window tr os os' H), (same_sided_dates os os' H).
  destruct H; reflexivity.
Qed.

Lemma shares_and_side_witness :
  outcome (run every_day flat50
             [mk_order 1 "JPM" (Some "HOLD"%string) (qz (-5))]
             (qz 100000) 0 0)
  = outcome (run every_day flat50 [buy 1 "JPM" 10] (qz 100000) 0 0).
Proof.
  apply (shares_and_side_never_rejected every_day flat50
           [mk_order 1 "JPM" (Some "HOLD"%string) (qz (-5))]
           [buy 1 "JPM" 10] (qz 100000) 0 0).
  constructor; [repeat split; reflexivity | constructor].
Defined.


(** C7 as stated fails: one row with a negative number of shares and a
    side that is neither BUY nor SELL is applied like a BUY, and a series
    is returned. *)
Lemma bad_order_is_accepted :
  let bad := mk_order 1 "JPM" (Some "HOLD"%string) (qz (-5)) in
  Shares bad <= 0 /\ side_of bad = None /\
  run every_day flat50 [bad] (qz 100000) 0 0
    <> Raise "InvalidOrderError"%string /\
  exists series, run every_day flat50 [bad] (qz 100000) 0 0 = Ok series.
Proof.
  cbv zeta. split; [now vm_compute|]. split; [reflexivity|].
  assert (E : exists series,
             run every_day flat50
               [mk_order 1 "JPM" (Some "HOLD"%string) (qz (-5))]
               (qz 100000) 0 0 = Ok series)
    by (eexists; vm_compute; reflexivity).
  split; [|exact E].
  destruct E as [series E]. rewrite E. discriminate.
Qed.

(** C8, as the code has it.  On the empty order sequence the run raises
    [IndexError] at line 27, before any frame is bound, and returns no
    series. *)
Theorem empty_orders_raise_IndexError (tr : Z -> bool)
    (pr : Z -> string -> Qc) (sv com imp : Qc) :
  compute_portvals tr pr sv com imp (init_heap [])
  = (Raise IndexError, init_heap []).
Proof. apply run_empty. Qed.

(** C8 as stated fails: the exception is not [EmptyOrderListError]. *)
Lemma empty_orders_other_exception :
  run every_day flat50 [] (qz 100000) 0 0
  <> Raise "EmptyOrderListError"%string.
Proof. vm_compute. discriminate. Qed.

(** C9, as the code has it.  An order with a side that is dated before the
    first or after the last day of the price history makes the run raise
    [KeyError] (or [IndexError] when the fetched frames have no row): it is
    never skipped and no series is returned. *)
Theorem order_outside_history_raises (tr : Z -> bool)
    (pr : Z -> string -> Qc) (os : list order) (o : order)
    (sv com imp : Qc) (earliest latest : Z) :
  (forall d, tr d = true -> (earliest <= d <= latest)%Z) ->
  In o os -> has_side o = true ->
  (Date o < earliest \/ latest < Date o)%Z ->
  run tr pr os sv com imp = Raise KeyError \/
  run tr pr os sv com imp = Raise IndexError.
Proof.
  intros Hh Ho Hs Hout. unfold run.
  destruct (run_cases tr pr os sv com imp)
    as [[E R]|[[Hne [Ew R]]|[[Hne [Hw [Hno [d2' R]]]]|[Hne [Hw [Hall R]]]]]];
    rewrite R; simpl; auto.
  exfalso. unfold dates_ok in Hall. rewrite Forall_forall in Hall.
  assert (Hin : In (Date o) (window tr os))
    by (apply Hall; apply filter_In; auto).
  destruct os as [|o0 rest]; [contradiction|].
  apply in_window in Hin. destruct Hin as [Ht _].
  specialize (Hh _ Ht). lia.
Qed.

Lemma order_outside_history_witness :
  run days_10_to_20 flat50 [buy 5 "JPM" 10; buy 12 "JPM" 10]
    (qz 100000) 0 0 = Raise KeyError \/
  run days_10_to_20 flat50 [buy 5 "JPM" 10; buy 12 "JPM" 10]
    (qz 100000) 0 0 = Raise IndexError.
Proof.
  apply (order_outside_history_raises days_10_to_20 flat50
           [buy 5 "JPM" 10; buy 12 "JPM" 10] (buy 5 "JPM" 10)
           (qz 100000) 0 0 10 20).
  - intros d H. unfold days_10_to_20 in H.
    apply andb_prop in H. destruct H as [H1 H2].
    apply Z.leb_le in H1, H2. lia.
  - left. reflexivity.
  - reflexivity.
  - left. simpl. lia.
Defined.


(** C9 as stated fails: the exception is [KeyError], not
    [MissingPriceDataError]. *)
Lemma outside_history_other_exception :
  let orders := [buy 5 "JPM" 10; buy 12 "JPM" 10] in
  (Date (buy 5 "JPM" 10) < 10)%Z /\
  run days_10_to_20 flat50 orders (qz 100000) 0 0 = Raise KeyError /\
  run days_10_to_20 flat50 orders (qz 100000) 0 0
    <> Raise "MissingPriceDataError"%string.
Proof.
  cbv zeta. split; [reflexivity|].
  assert (E : run days_10_to_20 flat50 [buy 5 "JPM" 10; buy 12 "JPM" 10]
                (qz 100000) 0 0 = Raise KeyError)
    by (vm_compute; reflexivity).
  split; [exact E|]. rewrite E. discriminate.
Qed.

(** C10.  Whatever the input and however the run ends, the caller's orders
    are what they were; and the price frame the run reads ([data_1]), once
    fetched, holds on every row the price of the source for that trading
    day, for every traded symbol. *)
Theorem inputs_unchanged (tr : Z -> bool) (pr : Z -> string -> Qc)
    (os : list order) (sv com imp : Qc) :
  let h' := snd (compute_portvals tr pr sv com imp (init_heap os)) in
  orders_df h' = os /\
  forall d1, data_1 h' = Some d1 ->
  forall d r, In (d, r) d1 ->
    tr d = true /\
    forall o, In o os -> r (Sym (Symbol o)) = pr d (Symbol o).
Proof.
  cbv zeta.
  assert (G : forall d r, In (d, r) (prices_frame tr pr os) ->
              tr d = true /\
              forall o, In o os -> r (Sym (Symbol o)) = pr d (Symbol o)).
  { intros d r Hin. unfold prices_frame in Hin.
    apply in_map_iff in Hin. destruct Hin as [d' [E Hd]].
    inversion E; subst. split.
    - destruct os as [|o0 rest]; [destruct Hd|].
      now apply in_window in Hd.
    - intros o Ho. unfold upd, price_row. simpl.
      now rewrite symbols_of_has. }
  destruct (run_cases tr pr os sv com imp)
    as [[E R]|[[Hne [Ew R]]|[[Hne [Hw [Hno [d2' R]]]]|[Hne [Hw [Hall R]]]]]];
    rewrite R; simpl; split; auto.
  - intros d1 H. discriminate.
  - intros d1 H. inversion H; subst. intros d r [].
  - intros d1 H. inversion H; subst. exact G.
  - intros d1 H. inversion H; subst. exact G.
Qed.

(** C6.  In exact arithmetic the order in which the orders are applied does
    not matter: the code's two passes (every SELL, then every other order)
    over the rows and one pass over any permutation of the rows, each in
    its turn, end alike (the same series, or the same exception) and leave
    ledgers that agree on every day in the cash and in every position. *)
Theorem order_of_application_irrelevant (os0 : list order)
    (d1 d2 d3 : frame) (symbols : list string)
    (orders orders' : list order) (impact commission : Qc) :
  index d1 = index d2 -> index d3 = index d2 -> NoDup (index d2) ->
  Permutation orders orders' ->
  let h := mk_heap os0 (Some d1) (Some d2) (Some d3) in
  let code := (apply_sell_then_buy orders impact commission ;;;
               lines_79_90 symbols) h in
  let reference := (apply_in_order impact commission orders' ;;;
                    lines_79_90 symbols) h in
  fst code = fst reference /\
  exists a b,
    data_3 (snd code) = Some a /\ data_3 (snd reference) = Some b /\
    frame_eqv a b.
Proof.
  intros H1 H3 Hnd Hperm. cbv zeta.
  destruct (passes_agree os0 d1 d2 (Some d3) orders orders'
              impact commission H1 Hnd Hperm)
    as [[a [b [Ea Eb]]]|[a [b [Ea [Eb [Ia [Ib Hab]]]]]]].
  - rewrite (bind_raise _ _ _ _ _ Ea), (bind_raise _ _ _ _ _ Eb). simpl.
    split; auto. exists d3, d3. auto using frame_eqv_refl.
  - rewrite (bind_ok _ _ _ _ _ Ea), (bind_ok _ _ _ _ _ Eb).
    destruct d2 as [|p2 rest2].
    + destruct a; [|discriminate]. destruct b; [|discriminate].
      rewrite lines_79_90_no_rows. simpl.
      split; auto. exists d3, d3. auto using frame_eqv_refl.
    + assert (La : List.length d3 = List.length a)
        by (apply same_index_length; congruence).
      assert (Lb : List.length d3 = List.length b)
        by (apply same_index_length; congruence).
      rewrite !lines_79_90_ok; auto.
      * simpl. split.
        -- f_equal. now apply mul_sum_eqv, ledger_of_eqv.
        -- eexists. eexists. split; [reflexivity|].
           split; [reflexivity|]. now apply ledger_of_eqv.
      * intro E. subst b. discriminate.
      * intro E. subst a. discriminate.
Qed.

Lemma order_of_application_witness :
  let h := mk_heap [] (Some demo_prices) (Some demo_deltas)
             (Some demo_holdings) in
  let code := (apply_sell_then_buy [buy 1 "JPM" 10; sell 1 "JPM" 4] 0 0 ;;;
               lines_79_90 ["JPM"%string]) h in
  let reference := (apply_in_order 0 0 [sell 1 "JPM" 4; buy 1 "JPM" 10] ;;;
                    lines_79_90 ["JPM"%string]) h in
  fst code = fst reference /\
  exists a b,
    data_3 (snd code) = Some a /\ data_3 (snd reference) = Some b /\
    frame_eqv a b.
Proof.
  apply (order_of_application_irrelevant [] demo_prices demo_deltas
           demo_holdings ["JPM"%string]
           [buy 1 "JPM" 10; sell 1 "JPM" 4]
           [sell 1 "JPM" 4; buy 1 "JPM" 10] 0 0).
  - reflexivity.
  - reflexivity.
  - vm_compute. repeat constructor; simpl; intuition discriminate.
  - apply perm_swap.
Defined.



(** * More of [compute_portvals]: the valuation in closed form *)

Lemma unique_NoDup (l : list string) : NoDup (unique l).
Proof.
  induction l as [|s l IH]; simpl; constructor.
  - intro H. apply filter_In in H. destruct H as [_ H].
    now rewrite String.eqb_refl in H.
  - now apply NoDup_filter.
Qed.

Lemma sumQ_indicator_string (x : string) (v : Qc) (l : list string) :
  NoDup l -> In x l ->
  sumQ (map (fun s => if String.eqb x s then v else 0) l) = v.
Proof.
  induction 1 as [|s l Hs Hnd IH]; intro Hin; [destruct Hin|].
  simpl. destruct (String.eqb_spec x s) as [E|E].
  - subst s. rewrite sumQ_map_zero; [ring|].
    intros y Hy. destruct (String.eqb_spec x y); auto. subst. contradiction.
  - destruct Hin as [Hin|Hin]; [congruence|].
    rewrite IH by exact Hin. ring.
Qed.

Lemma sumQ_map_scale {A} (f : A -> Qc) (k : Qc) (l : list A) :
  sumQ (map (fun x => f x * k) l) = sumQ (map f l) * k.
Proof.
  induction l as [|x l IH]; simpl.
  - ring.
  - rewrite IH. ring.
Qed.

(** Summing position times price symbol by symbol or order by order. *)
Lemma sum_by_symbol (a : order -> Qc) (g : string -> Qc) (L : list order)
    (syms : list string) :
  NoDup syms ->
  (forall o, In o L -> In (Symbol o) syms) ->
  sumQ (map (fun s =>
               sumQ (map (fun o => if String.eqb (Symbol o) s then a o else 0)
                       L) * g s) syms)
  = sumQ (map (fun o => a o * g (Symbol o)) L).
Proof.
  intros Hnd. induction L as [|o L IH]; intro Hin.
  - simpl. apply sumQ_map_zero. intros. ring.
  - simpl.
    rewrite <- IH by (intros; apply Hin; right; assumption).
    rewrite <- (sumQ_indicator_string (Symbol o) (a o * g (Symbol o)) syms Hnd)
      by (apply Hin; left; reflexivity).
    rewrite <- sumQ_map_plus. apply sumQ_map_ext. intros s _.
    destruct (String.eqb_spec (Symbol o) s) as [E|E].
    + rewrite E. ring.
    + ring.
Qed.

(** Every entry of a returned series is the starting cash plus the worth
    of every order dated on or before its day. *)
Lemma value_closed_form (tr : Z -> bool) (pr : Z -> string -> Qc)
    (os : list order) (sv com imp : Qc) (series : list (Z * Qc))
    (d : Z) (v : Qc) :
  run tr pr os sv com imp = Ok series ->
  In (d, v) series -> v = worth pr imp com os sv d.
Proof.
  intros Hrun Hin. unfold run in Hrun.
  destruct (compute_portvals tr pr sv com imp (init_heap os)) as [res h']
    eqn:E.
  simpl in Hrun. subst res.
  destruct (run_returns tr pr os sv com imp series h' E)
    as [_ [_ [Hall [Hs _]]]].
  subst series.
  apply In_nth_error in Hin. destruct Hin as [k Hk].
  destruct (port_vals_entry tr pr os sv imp com k d v Hk) as [r [Hr Hv]].
  apply nth_error_In in Hr.
  rewrite Hv.
  rewrite (holdings_closed_form tr pr os sv imp com d r Cash Hall Hr).
  set (L := filter (fun o => Z.leb (Date o) d) os).
  assert (Hsym : sumQ (map (fun s => r (Sym s) * pr d s) (symbols_of os))
                 = sumQ (map (fun o => (if has_side o then quantity o else 0)
                                       * pr d (Symbol o)) L)).
  { rewrite <- (sum_by_symbol _ (pr d) L (symbols_of os)).
    - apply sumQ_map_ext. intros s _.
      rewrite (holdings_closed_form tr pr os sv imp com d r (Sym s) Hall Hr).
      fold L. simpl seed. rewrite Qcplus_0_l. f_equal.
      apply sumQ_map_ext. intros o _. unfold applied_delta, quantity.
      destruct (has_side o), (String.eqb (Symbol o) s); reflexivity.
    - apply unique_NoDup.
    - intros o Ho. apply unique_In. apply in_map.
      apply filter_In in Ho. tauto. }
  rewrite Hsym. unfold worth. fold L. simpl seed.
  rewrite <- Qcplus_assoc. f_equal.
  rewrite <- sumQ_map_plus. apply sumQ_map_ext. intros o _.
  unfold applied_delta, order_worth, quantity.
  destruct (has_side o); ring.
Qed.

(** X1.  How a run on a non-empty frame of orders ends.  It raises
    [IndexError] exactly when no day from the day before the first row's
    date to the last row's date is a trading day; it raises [KeyError]
    exactly when there is such a day and some row with a side is dated off
    the trading days of that range; it returns a series in the one case
    left. *)
Theorem run_outcomes (tr : Z -> bool) (pr : Z -> string -> Qc)
    (o : order) (rest : list order) (sv com imp : Qc) :
  let lo := (Date o - 1)%Z in
  let hi := Date (last rest o) in
  let some_day := exists d, tr d = true /\ (lo <= d <= hi)%Z in
  (run tr pr (o :: rest) sv com imp = Raise IndexError <->
   forall d, (lo <= d <= hi)%Z -> tr d = false) /\
  (run tr pr (o :: rest) sv com imp = Raise KeyError <->
   some_day /\
   exists x, In x (o :: rest) /\ has_side x = true /\
             ~ (tr (Date x) = true /\ (lo <= Date x <= hi)%Z)) /\
  ((exists series, run tr pr (o :: rest) sv com imp = Ok series) <->
   some_day /\
   forall x, In x (o :: rest) -> has_side x = true ->
             tr (Date x) = true /\ (lo <= Date x <= hi)%Z).
Proof.
  cbv zeta. set (os := o :: rest).
  assert (Wne : window tr os <> [] <->
                exists d, tr d = true /\
                          (Date o - 1 <= d <= Date (last rest o))%Z).
  { split.
    - intro H. destruct (window tr os) as [|d l] eqn:E; [contradiction|].
      exists d. apply (in_window tr o rest d). fold os. rewrite E. now left.
    - intros [d Hd] E. apply (in_window tr o rest d) in Hd.
      fold os in Hd. rewrite E in Hd. destruct Hd. }
  assert (We : window tr os = [] <->
               forall d, (Date o - 1 <= d <= Date (last rest o))%Z ->
                         tr d = false).
  { split.
    - intros E d Hd. destruct (tr d) eqn:T; auto. exfalso.
      assert (Hin : In d (window tr os)) by (apply in_window; auto).
      rewrite E in Hin. destruct Hin.
    - intro H. destruct (window tr os) as [|d l] eqn:E; auto. exfalso.
      assert (Hin : In d (window tr os)) by (rewrite E; now left).
      apply in_window in Hin. destruct Hin as [T R].
      rewrite (H d R) in T. discriminate. }
  assert (Dok : dates_ok tr os <->
                forall x, In x os -> has_side x = true ->
                  tr (Date x) = true /\
                  (Date o - 1 <= Date x <= Date (last rest o))%Z).
  { unfold dates_ok. rewrite Forall_forall. split.
    - intros H x Hx Sx. apply (in_window tr o rest). apply H.
      apply filter_In. auto.
    - intros H x Hx. apply filter_In in Hx. destruct Hx as [Hx Sx].
      apply in_window. auto. }
  assert (Dno : ~ dates_ok tr os <->
                exists x, In x os /\ has_side x = true /\
                  ~ (tr (Date x) = true /\
                     (Date o - 1 <= Date x <= Date (last rest o))%Z)).
  { split.
    - intro H. destruct (dates_ok_dec tr os) as [Hall|Hex]; [contradiction|].
      apply Exists_exists in Hex. destruct Hex as [x [Hx Nx]].
      apply filter_In in Hx. destruct Hx as [Hx Sx].
      exists x. repeat split; auto. intro Hc. apply Nx.
      now apply in_window.
    - intros [x [Hx [Sx Nx]]] Hall. apply Nx. now apply Dok. }
  unfold run.
  destruct (run_cases tr pr os sv com imp)
    as [[E R]|[[Hne [Ew R]]|[[Hne [Hw [Hno [d2' R]]]]|[Hne [Hw [Hall R]]]]]];
    rewrite R; simpl.
  - discriminate.
  - split; [|split].
    + split; intro; [now apply We | reflexivity].
    + split; [discriminate|]. intros [Hd _]. apply Wne in Hd. contradiction.
    + split; [intros [s Hs]; discriminate|].
      intros [Hd _]. apply Wne in Hd. contradiction.
  - split; [|split].
    + split; [discriminate|]. intro H. apply We in H. contradiction.
    + split; intro; [|reflexivity]. split; [now apply Wne | now apply Dno].
    + split; [intros [s Hs]; discriminate|].
      intros [_ Hd]. apply Dok in Hd. contradiction.
  - split; [|split].
    + split; [discriminate|]. intro H. apply We in H. contradiction.
    + split; [discriminate|]. intros [_ Hx]. apply Dno in Hx. contradiction.
    + split; intro; [|eauto]. split; [now apply Wne | now apply Dok].
Qed.

(** X2.  The days of a returned series are exactly the trading days from
    the day before the first row's date to the last row's date: the day
    before the first order has a snapshot of its own when it is a trading
    day. *)
Theorem series_dates (tr : Z -> bool) (pr : Z -> string -> Qc)
    (o : order) (rest : list order) (sv com imp : Qc)
    (series : list (Z * Qc)) :
  run tr pr (o :: rest) sv com imp = Ok series ->
  forall d, In d (map fst series) <->
            tr d = true /\ (Date o - 1 <= d <= Date (last rest o))%Z.
Proof.
  intros Hrun d. unfold run in Hrun.
  destruct (compute_portvals tr pr sv com imp (init_heap (o :: rest)))
    as [res h'] eqn:E.
  simpl in Hrun. subst res.
  destruct (run_returns tr pr _ sv com imp series h' E)
    as [_ [_ [_ [Hs _]]]].
  subst series. rewrite index_port_vals. apply in_window.
Qed.

Lemma series_dates_witness :
  In 0%Z (map fst demo_series) <->
  every_day 0 = true /\ (1 - 1 <= 0 <= 3)%Z.
Proof.
  apply (series_dates every_day rising (buy 1 "JPM" 1000)
           [sell 3 "JPM" 1000] default_start_val default_commission
           default_impact demo_series).
  vm_compute. reflexivity.
Defined.

(** X3.  Every snapshot is the starting cash plus, for each row with a
    side dated on or before the day, its signed shares times the move of
    its symbol's price since its own day, less [impact * price * shares]
    and less the commission. *)
Theorem value_is_profit_and_loss (tr : Z -> bool) (pr : Z -> string -> Qc)
    (os : list order) (sv com imp : Qc) (series : list (Z * Qc))
    (k : nat) (d : Z) (v : Qc) :
  run tr pr os sv com imp = Ok series ->
  nth_error series k = Some (d, v) ->
  v = sv + sumQ (map (fun o =>
                        if has_side o then
                          quantity o * (pr d (Symbol o)
                                        - pr (Date o) (Symbol o))
                          - imp * pr (Date o) (Symbol o) * Shares o
                          - com
                        else 0)
                   (filter (fun o => Z.leb (Date o) d) os)).
Proof.
  intros Hrun Hk. apply nth_error_In in Hk.
  exact (value_closed_form tr pr os sv com imp series d v Hrun Hk).
Qed.

Lemma value_is_profit_and_loss_witness :
  snd (nth 2 demo_series (0%Z, 0))
  = default_start_val
    + sumQ (map (fun o =>
                   if has_side o then
                     quantity o * (rising 2 (Symbol o)
                                   - rising (Date o) (Symbol o))
                     - default_impact * rising (Date o) (Symbol o) * Shares o
                     - default_commission
                   else 0)
              (filter (fun o => Z.leb (Date o) 2) demo_orders)).
Proof.
  apply (value_is_profit_and_loss every_day rising demo_orders
           default_start_val default_commission default_impact
           demo_series 2 2).
  - vm_compute. reflexivity.
  - vm_compute. reflexivity.
Defined.

(** * Comparing two runs *)

Lemma run_returns_whatever_the_money (tr : Z -> bool)
    (pr : Z -> string -> Qc) (os : list order) (sv com imp sv' com' imp' : Qc)
    (series : list (Z * Qc)) :
  run tr pr os sv com imp = Ok series ->
  exists series',
    run tr pr os sv' com' imp' = Ok series' /\
    map fst series' = map fst series.
Proof.
  intro Hrun. unfold run in *.
  destruct (compute_portvals tr pr sv com imp (init_heap os)) as [res h']
    eqn:E.
  simpl in Hrun. subst res.
  destruct (run_returns tr pr os sv com imp series h' E)
    as [Hne [Hw [Hall [Hs _]]]].
  destruct os as [|o rest]; [contradiction|].
  rewrite (run_ok tr pr o rest sv' com' imp' Hw Hall). simpl.
  eexists. split; [reflexivity|].
  subst series. now rewrite !index_port_vals.
Qed.

(** Two series on the same days whose values are related day by day. *)
Lemma series_ext (f : Z -> Qc -> Qc) (a : list (Z * Qc)) :
  forall b : list (Z * Qc),
  map fst b = map fst a ->
  (forall d v w, In (d, v) a -> In (d, w) b -> w = f d v) ->
  b = map (fun p => (fst p, f (fst p) (snd p))) a.
Proof.
  induction a as [|[d v] a IH]; intros b Hd H.
  - destruct b; [reflexivity | discriminate].
  - destruct b as [|[d' w] b]; [discriminate|].
    simpl in Hd. inversion Hd; subst d'. simpl. f_equal.
    + f_equal. apply (H d v w); now left.
    + apply IH; auto. intros d0 v0 w0 Ha Hb. apply (H d0 v0 w0); now right.
Qed.

Lemma sumQ_map_minus {A} (f g : A -> Qc) (l : list A) :
  sumQ (map (fun x => f x - g x) l) = sumQ (map f l) - sumQ (map g l).
Proof.
  induction l as [|x l IH]; simpl.
  - ring.
  - rewrite IH. ring.
Qed.

Lemma sumQ_nonneg {A} (f : A -> Qc) (l : list A) :
  (forall x, In x l -> 0 <= f x) -> 0 <= sumQ (map f l).
Proof.
  induction l as [|x l IH]; intro H; simpl.
  - apply Qcle_refl.
  - replace 0 with (0 + 0) by ring. apply Qcplus_le_compat.
    + apply H. now left.
    + apply IH. intros y Hy. apply H. now right.
Qed.

Lemma Qcmult_nonneg (a b : Qc) : 0 <= a -> 0 <= b -> 0 <= a * b.
Proof.
  intros Ha Hb. replace 0 with (0 * b) by ring.
  now apply Qcmult_le_compat_r.
Qed.

Lemma worth_costs (pr : Z -> string -> Qc) (imp com : Qc)
    (os : list order) (sv : Qc) (d : Z) :
  worth pr imp com os sv d
  = worth pr 0 0 os sv d - costs_paid pr imp com os d.
Proof.
  unfold worth, costs_paid.
  unfold Qcminus at 1. rewrite <- Qcplus_assoc. f_equal.
  fold (Qcminus
          (sumQ (map (order_worth pr 0 0 d)
                   (filter (fun o => Z.leb (Date o) d) os)))
          (sumQ (map (fun o =>
                        if has_side o then
                          com + imp * pr (Date o) (Symbol o) * Shares o
                        else 0)
                   (filter (fun o => Z.leb (Date o) d) os)))).
  rewrite <- sumQ_map_minus. apply sumQ_map_ext. intros o _.
  unfold order_worth. destruct (has_side o); ring.
Qed.

(** X4.  The starting cash only shifts the series: a run with
    [start_val + extra] returns the series of the run with [start_val],
    every value raised by [extra]. *)
Theorem start_val_shifts_series (tr : Z -> bool) (pr : Z -> string -> Qc)
    (os : list order) (sv extra com imp : Qc) (series : list (Z * Qc)) :
  run tr pr os sv com imp = Ok series ->
  run tr pr os (sv + extra) com imp
  = Ok (map (fun p => (fst p, snd p + extra)) series).
Proof.
  intro Hrun.
  destruct (run_returns_whatever_the_money tr pr os sv com imp
              (sv + extra) com imp series Hrun) as [s' [Hrun' Hd]].
  rewrite Hrun'. f_equal.
  apply (series_ext (fun _ v => v + extra)); auto.
  intros d v w Hv Hw.
  rewrite (value_closed_form tr pr os sv com imp series d v Hrun Hv).
  rewrite (value_closed_form tr pr os (sv + extra) com imp s' d w Hrun' Hw).
  unfold worth. ring.
Qed.

Lemma start_val_shifts_series_witness :
  run every_day rising demo_orders (default_start_val + qz 500)
    default_commission default_impact
  = Ok (map (fun p => (fst p, snd p + qz 500)) demo_series).
Proof.
  apply (start_val_shifts_series every_day rising demo_orders
           default_start_val (qz 500) default_commission default_impact
           demo_series).
  vm_compute. reflexivity.
Defined.

(** X5.  Commission and impact come off the value and touch nothing else:
    a run returns the series of the same run without costs, each value
    lowered by [commission + impact * price * shares] for every row with a
    side dated on or before its day, a buy and a sell alike. *)
Theorem costs_come_off_the_value (tr : Z -> bool) (pr : Z -> string -> Qc)
    (os : list order) (sv com imp : Qc) (series : list (Z * Qc)) :
  run tr pr os sv com imp = Ok series ->
  exists free,
    run tr pr os sv 0 0 = Ok free /\
    series
    = map (fun p => (fst p, snd p - costs_paid pr imp com os (fst p))) free.
Proof.
  intro Hrun.
  destruct (run_returns_whatever_the_money tr pr os sv com imp
              sv 0 0 series Hrun) as [free [Hfree Hd]].
  exists free. split; [exact Hfree|].
  apply (series_ext (fun d v => v - costs_paid pr imp com os d)); auto.
  intros d v w Hv Hw.
  rewrite (value_closed_form tr pr os sv 0 0 free d v Hfree Hv).
  rewrite (value_closed_form tr pr os sv com imp series d w Hrun Hw).
  apply worth_costs.
Qed.

Lemma costs_come_off_witness :
  exists free,
    run every_day rising demo_orders default_start_val 0 0 = Ok free /\
    demo_series
    = map (fun p =>
             (fst p,
              snd p - costs_paid rising default_impact default_commission
                        demo_orders (fst p))) free.
Proof.
  apply (costs_come_off_the_value every_day rising demo_orders
           default_start_val default_commission default_impact demo_series).
  vm_compute. reflexivity.
Defined.

(** X6.  With a commission and an impact that are not negative, and
    orders of non-negative shares at non-negative prices, costs never
    raise a snapshot: every value is at most the value of the same day in
    the run without costs. *)
Theorem costs_never_help (tr : Z -> bool) (pr : Z -> string -> Qc)
    (os : list order) (sv com imp : Qc) (series free : list (Z * Qc))
    (d : Z) (v v0 : Qc) :
  0 <= com -> 0 <= imp ->
  (forall o, In o os -> 0 <= Shares o /\ 0 <= pr (Date o) (Symbol o)) ->
  run tr pr os sv com imp = Ok series ->
  run tr pr os sv 0 0 = Ok free ->
  In (d, v) series -> In (d, v0) free ->
  v <= v0.
Proof.
  intros Hc Hi Hpos Hrun Hfree Hv Hv0.
  rewrite (value_closed_form tr pr os sv com imp series d v Hrun Hv).
  rewrite (value_closed_form tr pr os sv 0 0 free d v0 Hfree Hv0).
  rewrite worth_costs. apply Qcle_minus_iff.
  replace (worth pr 0 0 os sv d
           + - (worth pr 0 0 os sv d - costs_paid pr imp com os d))
    with (costs_paid pr imp com os d) by ring.
  unfold costs_paid. apply sumQ_nonneg. intros o Ho.
  apply filter_In in Ho. destruct Ho as [Ho _].
  destruct (has_side o); [|apply Qcle_refl].
  destruct (Hpos o Ho) as [Hs Hp].
  replace 0 with (0 + 0) by ring. apply Qcplus_le_compat; auto.
  apply Qcmult_nonneg; auto. apply Qcmult_nonneg; auto.
Qed.

Lemma costs_never_help_witness :
  snd (nth 3 demo_series (0%Z, 0))
  <= snd (nth 3 (match run every_day rising demo_orders default_start_val
                         0 0 with
                 | Ok s => s
                 | Raise _ => []
                 end) (0%Z, 0)).
Proof.
  apply (costs_never_help every_day rising demo_orders default_start_val
           default_commission default_impact demo_series
           (match run every_day rising demo_orders default_start_val 0 0 with
            | Ok s => s
            | Raise _ => []
            end) 3).
  - vm_compute. discriminate.
  - vm_compute. discriminate.
  - intros o [<-|[<-|[]]]; split; vm_compute; discriminate.
  - vm_compute. reflexivity.
  - vm_compute. reflexivity.
  - vm_compute. right. right. right. left. reflexivity.
  - vm_compute. right. right. right. left. reflexivity.
Defined.

(** Two frames of orders with the same labels, the same dated rows with a
    side and the same worth on every day run alike. *)
Lemma run_same (tr : Z -> bool) (pr : Z -> string -> Qc)
    (os os' : list order) (sv com imp : Qc) :
  (os = [] <-> os' = []) ->
  window tr os = window tr os' ->
  (dates_ok tr os <-> dates_ok tr os') ->
  (forall d, worth pr imp com os sv d = worth pr imp com os' sv d) ->
  run tr pr os sv com imp = run tr pr os' sv com imp.
Proof.
  intros He Hw Hd Hv.
  assert (Ho : outcome (run tr pr os sv com imp)
               = outcome (run tr pr os' sv com imp)).
  { unfold run. rewrite !run_outcome. unfold predicted_outcome.
    rewrite <- Hw.
    assert (Hb : forallb (fun d => existsb (Z.eqb d) (window tr os))
                   (map Date (filter has_side os))
                 = forallb (fun d => existsb (Z.eqb d) (window tr os))
                     (map Date (filter has_side os'))).
    { destruct (forallb _ (map Date (filter has_side os))) eqn:B1.
      - symmetry. rewrite Hw. apply dates_ok_forallb, Hd, dates_ok_forallb.
        exact B1.
      - destruct (forallb _ (map Date (filter has_side os'))) eqn:B2; auto.
        rewrite Hw in B2. apply dates_ok_forallb, Hd, dates_ok_forallb in B2.
        congruence. }
    rewrite Hb.
    destruct os, os'; auto.
    destruct He as [_ He]. specialize (He eq_refl). discriminate. }
  destruct (run tr pr os sv com imp) as [s|e] eqn:R,
           (run tr pr os' sv com imp) as [s'|e'] eqn:R';
    simpl in Ho; try discriminate; [|congruence].
  f_equal.
  assert (Hs : map fst s' = map fst s).
  { unfold run in R, R'.
    destruct (compute_portvals tr pr sv com imp (init_heap os))
      as [res h] eqn:E.
    destruct (compute_portvals tr pr sv com imp (init_heap os'))
      as [res' h'] eqn:E'.
    simpl in R, R'. subst res res'.
    destruct (run_returns tr pr os sv com imp s h E) as [_ [_ [_ [Es _]]]].
    destruct (run_returns tr pr os' sv com imp s' h' E')
      as [_ [_ [_ [Es' _]]]].
    subst s s'. rewrite !index_port_vals. now symmetry. }
  rewrite (series_ext (fun _ v => v) s s' Hs).
  - rewrite <- (map_id s) at 1. apply map_ext. now intros [d v].
  - intros d v w Hin Hin'.
    rewrite (value_closed_form tr pr os sv com imp s d v R Hin).
    rewrite (value_closed_form tr pr os' sv com imp s' d w R' Hin').
    symmetry. apply Hv.
Qed.

Lemma last_map {A B} (f : A -> B) (l : list A) (a : A) :
  last (map f l) (f a) = f (last l a).
Proof.
  induction l as [|x l IH]; simpl; auto.
  destruct l; simpl in *; auto.
Qed.

Lemma window_map (tr : Z -> bool) (f : order -> order) (os : list order) :
  (forall o, Date (f o) = Date o) ->
  window tr (map f os) = window tr os.
Proof.
  intro H. destruct os as [|o rest]; simpl; auto.
  now rewrite last_map, !H.
Qed.

Lemma filter_map_swap {A} (f : A -> A) (p : A -> bool) (l : list A) :
  (forall x, p (f x) = p x) ->
  filter p (map f l) = map f (filter p l).
Proof.
  intro H. induction l as [|x l IH]; simpl; auto.
  rewrite H. destruct (p x); simpl; congruence.
Qed.

(** X7.  A side that is not ['SELL'] is a buy: the run on the rows as
    they are and the run on the rows with every such side rewritten to
    ['BUY'] end alike, with the same series or the same exception. *)
Theorem side_not_SELL_is_BUY (tr : Z -> bool) (pr : Z -> string -> Qc)
    (os : list order) (sv com imp : Qc) :
  run tr pr (map as_read os) sv com imp = run tr pr os sv com imp.
Proof.
  assert (HD : forall o, Date (as_read o) = Date o)
    by (intro o; unfold as_read; destruct (has_side o); reflexivity).
  assert (HS : forall o, has_side (as_read o) = has_side o)
    by (intro o; unfold as_read; destruct (has_side o) eqn:E; auto).
  assert (HW : forall d o,
             order_worth pr imp com d (as_read o) = order_worth pr imp com d o).
  { intros d o. unfold order_worth. rewrite HS. unfold as_read.
    destruct (has_side o) eqn:E; auto. simpl.
    unfold quantity, bos_of, is_sell. simpl.
    unfold is_sell. unfold has_side in E.
    destruct (Order o) as [s|]; [|discriminate].
    destruct (String.eqb s "SELL"); reflexivity. }
  apply run_same.
  - destruct os; simpl; split; intro; auto; discriminate.
  - now apply window_map.
  - unfold dates_ok. rewrite (window_map tr as_read os HD).
    rewrite (filter_map_swap as_read has_side os HS).
    rewrite !Forall_forall. split.
    + intros H x Hx. rewrite <- HD. apply H. now apply in_map.
    + intros H x Hx. apply in_map_iff in Hx. destruct Hx as [y [<- Hy]].
      rewrite HD. now apply H.
  - intro d. unfold worth. f_equal.
    rewrite (filter_map_swap as_read (fun o => Z.leb (Date o) d) os)
      by (intro x; now rewrite HD).
    rewrite map_map. apply sumQ_map_ext. intros o _. apply HW.
Qed.

Lemma last_indep {A} (l : list A) (a b : A) :
  l <> [] -> last l a = last l b.
Proof.
  induction l as [|x l IH]; intro H; [contradiction|].
  simpl. destruct l; auto. apply IH. discriminate.
Qed.

Lemma last_app_nonempty {A} (l m : list A) (a : A) :
  m <> [] -> last (l ++ m) a = last m a.
Proof.
  intro H. induction l as [|x l IH]; simpl; auto.
  destruct (l ++ m) eqn:E; auto.
  destruct l, m; try discriminate. contradiction.
Qed.

(** X8.  A row without a side that is neither the first nor the last row
    counts for nothing: with or without it the run ends alike. *)
Theorem sideless_row_is_ignored (tr : Z -> bool) (pr : Z -> string -> Qc)
    (pre post : list order) (x : order) (sv com imp : Qc) :
  pre <> [] -> post <> [] -> has_side x = false ->
  run tr pr (pre ++ x :: post) sv com imp
  = run tr pr (pre ++ post) sv com imp.
Proof.
  intros Hpre Hpost Hx.
  assert (Hlast : forall (l : list order) (a b : order),
             last (l ++ x :: post) a = last (l ++ post) b).
  { intros l a b.
    rewrite (last_app_nonempty l (x :: post) a) by discriminate.
    rewrite (last_app_nonempty l post b) by exact Hpost.
    destruct post as [|p post']; [contradiction|].
    change (last (x :: p :: post') a) with (last (p :: post') a).
    now apply last_indep. }
  assert (Hw : window tr (pre ++ x :: post) = window tr (pre ++ post)).
  { destruct pre as [|o pre']; [contradiction|]. simpl.
    now rewrite (Hlast pre' o o). }
  apply run_same.
  - split; intro E; destruct pre; try contradiction; discriminate.
  - exact Hw.
  - unfold dates_ok. rewrite Hw, !filter_app. simpl. now rewrite Hx.
  - intro d. unfold worth. f_equal. rewrite !filter_app. simpl.
    destruct (Z.leb (Date x) d); auto.
    rewrite !map_app, !sumQ_app. simpl.
    unfold order_worth at 2. rewrite Hx. ring.
Qed.

Lemma sideless_row_witness :
  run every_day rising
    ([buy 1 "JPM" 1000] ++ mk_order 9 "IBM" None 0 :: [sell 3 "JPM" 1000])
    default_start_val default_commission default_impact
  = run every_day rising ([buy 1 "JPM" 1000] ++ [sell 3 "JPM" 1000])
      default_start_val default_commission default_impact.
Proof.
  apply (sideless_row_is_ignored every_day rising [buy 1 "JPM" 1000]
           [sell 3 "JPM" 1000] (mk_order 9 "IBM" None 0)
           default_start_val default_commission default_impact).
  - discriminate.
  - discriminate.
  - reflexivity.
Defined.

(** X9.  The rows may come in any order, as long as the first row keeps
    its date and the last row keeps its date: two frames of orders that
    are permutations of one another and agree on these two dates run
    alike. *)
Theorem rows_in_any_order (tr : Z -> bool) (pr : Z -> string -> Qc)
    (o o' : order) (rest rest' : list order) (sv com imp : Qc) :
  Permutation (o :: rest) (o' :: rest') ->
  Date o = Date o' -> Date (last rest o) = Date (last rest' o') ->
  run tr pr (o :: rest) sv com imp = run tr pr (o' :: rest') sv com imp.
Proof.
  intros Hp Hf Hl.
  assert (Hw : window tr (o :: rest) = window tr (o' :: rest'))
    by (simpl; now rewrite Hf, Hl).
  assert (Hp' : Permutation (filter has_side (o :: rest))
                  (filter has_side (o' :: rest'))).
  { clear -Hp. induction Hp; simpl.
    - constructor.
    - destruct (has_side x); auto.
    - destruct (has_side x), (has_side y); auto. constructor.
    - eapply perm_trans; eauto. }
  apply run_same.
  - split; discriminate.
  - exact Hw.
  - unfold dates_ok. rewrite Hw, !Forall_forall. split; intros H x Hx.
    + apply H. eapply Permutation_in; [apply Permutation_sym; exact Hp'|].
      exact Hx.
    + apply H. eapply Permutation_in; [exact Hp' | exact Hx].
  - intro d. unfold worth. f_equal. now apply sum_filter_perm.
Qed.

Lemma rows_in_any_order_witness :
  run every_day rising
    [buy 1 "JPM" 1000; sell 2 "JPM" 10; buy 2 "IBM" 5; sell 3 "JPM" 1000]
    default_start_val default_commission default_impact
  = run every_day rising
      [buy 1 "JPM" 1000; buy 2 "IBM" 5; sell 2 "JPM" 10; sell 3 "JPM" 1000]
      default_start_val default_commission default_impact.
Proof.
  apply (rows_in_any_order every_day rising).
  - apply perm_skip. apply perm_swap.
  - reflexivity.
  - reflexivity.
Defined.

(** * Day over day *)

Lemma sumQ_filter {A} (p : A -> bool) (f : A -> Qc) (l : list A) :
  sumQ (map f (filter p l)) = sumQ (map (fun x => if p x then f x else 0) l).
Proof.
  induction l as [|x l IH]; simpl; auto.
  destruct (p x); simpl; rewrite IH; ring.
Qed.

(** Two labels next to one another in a sorted index: the second is
    later, and no label lies strictly between them. *)
Lemma sorted_adjacent (l : list Z) :
  StronglySorted Z.lt l ->
  forall k a b,
  nth_error l k = Some a -> nth_error l (S k) = Some b ->
  (a < b)%Z /\ forall x, In x l -> (x <= a)%Z \/ (b <= x)%Z.
Proof.
  induction 1 as [|y l Hs IH Hy]; intros k a b Ha Hb.
  - destruct k; discriminate.
  - rewrite Forall_forall in Hy. destruct k as [|k].
    + simpl in Ha. inversion Ha; subst y. simpl in Hb.
      destruct l as [|z l]; [discriminate|]. simpl in Hb.
      inversion Hb; subst z. split.
      * apply Hy. now left.
      * intros x [Hx|[Hx|Hx]]; [lia | lia |].
        right. inversion Hs as [|? ? _ Hz]; subst.
        rewrite Forall_forall in Hz. specialize (Hz x Hx). lia.
    + simpl in Ha. change (nth_error (y :: l) (S (S k)))
        with (nth_error l (S k)) in Hb.
      destruct (IH k a b Ha Hb) as [Hab Hbetween]. split; auto.
      intros x [Hx|Hx]; auto.
      left. subst x. apply nth_error_In in Ha. specialize (Hy a Ha). lia.
Qed.

(** X10.  Without costs, what the portfolio gains from one day of the
    series to the next is what it held at the end of the first day times
    the moves of the prices: trading itself changes no value. *)
Theorem zero_cost_day_over_day (tr : Z -> bool) (pr : Z -> string -> Qc)
    (os : list order) (sv : Qc) (series : list (Z * Qc)) (k : nat)
    (dp : Z) (vp : Qc) (d : Z) (v : Qc) :
  run tr pr os sv 0 0 = Ok series ->
  nth_error series k = Some (dp, vp) ->
  nth_error series (S k) = Some (d, v) ->
  v = vp
      + sumQ (map (fun o =>
                     if has_side o then
                       quantity o * (pr d (Symbol o) - pr dp (Symbol o))
                     else 0)
                (filter (fun o => Z.leb (Date o) dp) os)).
Proof.
  intros Hrun Hk HSk.
  rewrite (value_closed_form tr pr os sv 0 0 series d v Hrun
             (nth_error_In _ _ HSk)).
  rewrite (value_closed_form tr pr os sv 0 0 series dp vp Hrun
             (nth_error_In _ _ Hk)).
  unfold run in Hrun.
  destruct (compute_portvals tr pr sv 0 0 (init_heap os)) as [res h'] eqn:E.
  simpl in Hrun. subst res.
  destruct (run_returns tr pr os sv 0 0 series h' E)
    as [_ [_ [Hall [Hs _]]]].
  assert (Hadj : (dp < d)%Z /\
                 forall x, In x (window tr os) -> (x <= dp)%Z \/ (d <= x)%Z).
  { apply (sorted_adjacent (window tr os) (window_sorted tr os) k).
    - rewrite <- (index_port_vals tr pr os sv 0 0), <- Hs.
      rewrite nth_error_map, Hk. reflexivity.
    - rewrite <- (index_port_vals tr pr os sv 0 0), <- Hs.
      rewrite nth_error_map, HSk. reflexivity. }
  destruct Hadj as [Hlt Hbetween].
  unfold worth. rewrite <- Qcplus_assoc. f_equal.
  rewrite !sumQ_filter. rewrite <- sumQ_map_plus.
  apply sumQ_map_ext. intros o Ho.
  unfold order_worth. destruct (has_side o) eqn:Es.
  - assert (Hin : In (Date o) (window tr os)).
    { unfold dates_ok in Hall. rewrite Forall_forall in Hall.
      apply Hall. apply filter_In. auto. }
    destruct (Hbetween _ Hin) as [Hle|Hge].
    + replace (Z.leb (Date o) dp) with true
        by (symmetry; apply Z.leb_le; lia).
      replace (Z.leb (Date o) d) with true
        by (symmetry; apply Z.leb_le; lia).
      ring.
    + replace (Z.leb (Date o) dp) with false
        by (symmetry; apply Z.leb_gt; lia).
      destruct (Z.leb (Date o) d) eqn:El; [|ring].
      apply Z.leb_le in El. assert (Ed : Date o = d) by lia.
      rewrite Ed. ring.
  - destruct (Z.leb (Date o) d), (Z.leb (Date o) dp); ring.
Qed.

Lemma zero_cost_day_over_day_witness :
  snd (nth 3 free_series (0%Z, 0))
  = snd (nth 2 free_series (0%Z, 0))
    + sumQ (map (fun o =>
                   if has_side o then
                     quantity o * (flat50 3 (Symbol o) - flat50 2 (Symbol o))
                   else 0)
              (filter (fun o => Z.leb (Date o) 2) demo_orders)).
Proof.
  apply (zero_cost_day_over_day every_day flat50 demo_orders (qz 100000)
           free_series 2 2 (snd (nth 2 free_series (0%Z, 0))) 3).
  - vm_compute. reflexivity.
  - vm_compute. reflexivity.
  - vm_compute. reflexivity.
Defined.

(** * What [calculate_data_2] and lines 79-90 touch *)

(** X11.  One call of [calculate_data_2] on frames with the same labels
    either raises [KeyError] and leaves every frame as it was (the date is
    not a label), or returns having changed two cells of [data_2] at most:
    the symbol's and the cash of the row of its date.  The price frame,
    [data_3], the orders and the labels are never touched. *)
Theorem calculate_data_2_touches_two_cells (os : list order)
    (d1 d2 : frame) (x3 : option frame) (date : Z) (symbol : string)
    (shares impact commission bos : Qc) :
  index d1 = index d2 ->
  (~ In date (index d2) ->
   calculate_data_2 Data2 Data1 date symbol shares impact commission bos
     (mk_heap os (Some d1) (Some d2) x3)
   = (Raise KeyError, mk_heap os (Some d1) (Some d2) x3)) /\
  (In date (index d2) ->
   exists d2',
     calculate_data_2 Data2 Data1 date symbol shares impact commission bos
       (mk_heap os (Some d1) (Some d2) x3)
     = (Ok tt, mk_heap os (Some d1) (Some d2') x3) /\
     index d2' = index d2 /\
     forall d c,
       d <> date \/ (c <> Sym symbol /\ c <> Cash) ->
       cell d2' d c = cell d2 d c).
Proof.
  intro Hi. split.
  - intro Hout. now apply (calculate_data_2_KeyError _ d2).
  - intro Hin. eexists. split; [|split].
    + apply calculate_data_2_ok; [exact Hin | now rewrite Hi].
    + apply index_post.
    + intros d c Hdc. rewrite cell_post by exact Hin. simpl Date.
      destruct (Z.eqb_spec date d) as [E|E].
      * destruct Hdc as [Hd|[Hs Hc]]; [congruence|].
        destruct c as [s|]; [|congruence]. simpl.
        destruct (String.eqb_spec symbol s); [congruence | ring].
      * ring.
Qed.

Lemma calculate_data_2_witness :
  (~ In 1%Z (index demo_deltas) ->
   calculate_data_2 Data2 Data1 1 "JPM" (qz 10) default_impact
     default_commission 1
     (mk_heap [] (Some demo_prices) (Some demo_deltas) None)
   = (Raise KeyError,
      mk_heap [] (Some demo_prices) (Some demo_deltas) None)) /\
  (In 1%Z (index demo_deltas) ->
   exists d2',
     calculate_data_2 Data2 Data1 1 "JPM" (qz 10) default_impact
       default_commission 1
       (mk_heap [] (Some demo_prices) (Some demo_deltas) None)
     = (Ok tt, mk_heap [] (Some demo_prices) (Some d2') None) /\
     index d2' = index demo_deltas /\
     forall d c,
       d <> 1%Z \/ (c <> Sym "JPM" /\ c <> Cash) ->
       cell d2' d c = cell demo_deltas d c).
Proof.
  apply (calculate_data_2_touches_two_cells [] demo_prices demo_deltas None
           1 "JPM" (qz 10) default_impact default_commission 1).
  reflexivity.
Defined.

Lemma ledger_of_rows (c : col) (d3 d2 : frame) (d0 : Z) (r3 : row)
    (d : Z) (r : row) :
  index d3 = index d2 -> StronglySorted Z.lt (index d2) ->
  nth_error d3 0 = Some (d0, r3) ->
  In (d, r) (ledger_of d3 d2) ->
  r c = (match c with Sym _ => 0 | Cash => r3 Cash end)
        + sumQ (map (fun p => snd p c)
                  (filter (fun p => Z.leb (fst p) d) d2)).
Proof.
  intros Hi Hs H0 Hin. unfold ledger_of in Hin.
  destruct d3 as [|[d0' r3'] rest3]; [discriminate|].
  simpl in H0. inversion H0; subst d0' r3'.
  destruct d2 as [|[d0' r2] rest2]; [discriminate|].
  simpl in Hi. inversion Hi as [[Hd I3]]. subst d0'.
  assert (Hseed : seed_row r3 r2 c
                  = (match c with Sym _ => 0 | Cash => r3 Cash end) + r2 c).
  { unfold seed_row, upd, upd_syms. destruct c; simpl; ring. }
  simpl in Hs. inversion Hs as [|? ? Hs' Hd0]; subst.
  rewrite Forall_forall in Hd0.
  destruct Hin as [E|Hin].
  - inversion E; subst. simpl. rewrite Z.leb_refl. simpl.
    rewrite Hseed. rewrite sumQ_map_zero; [ring|].
    intros p Hp. apply filter_In in Hp. destruct Hp as [Hp Hle].
    assert (H : (d < fst p)%Z) by (apply Hd0; apply in_map; exact Hp).
    apply Z.leb_le in Hle. exfalso.
    exact (Z.lt_irrefl _ (Z.lt_le_trans _ _ _ H Hle)).
  - assert (Hdin : In d (index rest2)).
    { rewrite <- I3. rewrite <- (index_scan (seed_row r3 r2) rest3 rest2).
      apply (in_map fst) in Hin. exact Hin. }
    specialize (Hd0 d Hdin).
    rewrite (scan_rows c rest3 rest2 _ I3 Hs' d r Hin).
    rewrite Hseed. simpl.
    replace (Z.leb d0 d) with true by (symmetry; apply Z.leb_le; lia).
    simpl. ring.
Qed.

(** X12.  Lines 79-90 on three frames with the same ascending labels, at
    least one: they return, and leave in [data_3] running totals of
    [data_2]: each row holds, column by column, the sum of the rows of
    [data_2] up to its day, plus, in the cash column only, the cash
    [data_3] had in its first row.  Nothing else of what [data_3] held
    before counts. *)
Theorem lines_79_90_running_totals (os : list order)
    (symbols : list string) (d1 d2 d3 : frame) (d0 : Z) (r3 : row) :
  index d3 = index d2 -> StronglySorted Z.lt (index d2) ->
  nth_error d3 0 = Some (d0, r3) ->
  exists series ledger,
    lines_79_90 symbols (mk_heap os (Some d1) (Some d2) (Some d3))
    = (Ok series, mk_heap os (Some d1) (Some d2) (Some ledger)) /\
    index ledger = index d2 /\
    forall d r, In (d, r) ledger ->
      r Cash = r3 Cash
               + sumQ (map (fun p => snd p Cash)
                         (filter (fun p => Z.leb (fst p) d) d2)) /\
      forall s, r (Sym s)
                = sumQ (map (fun p => snd p (Sym s))
                          (filter (fun p => Z.leb (fst p) d) d2)).
Proof.
  intros Hi Hs H0.
  assert (Hne : d2 <> []).
  { intro E. subst d2. destruct d3; discriminate. }
  exists (mul_sum symbols d1 (ledger_of d3 d2)), (ledger_of d3 d2).
  split; [|split].
  - apply lines_79_90_ok; auto. now apply same_index_length.
  - unfold ledger_of.
    destruct d3 as [|[a ra] rest3]; [discriminate|].
    destruct d2 as [|[b rb] rest2]; [contradiction|].
    simpl in Hi |- *. rewrite index_scan. exact Hi.
  - intros d r Hin. split; [|intro s].
    + exact (ledger_of_rows Cash d3 d2 d0 r3 d r Hi Hs H0 Hin).
    + rewrite (ledger_of_rows (Sym s) d3 d2 d0 r3 d r Hi Hs H0 Hin).
      ring.
Qed.

Lemma lines_79_90_witness :
  exists series ledger,
    lines_79_90 ["JPM"%string]
      (mk_heap [] (Some demo_prices) (Some demo_deltas) (Some demo_holdings))
    = (Ok series,
       mk_heap [] (Some demo_prices) (Some demo_deltas) (Some ledger)) /\
    index ledger = index demo_deltas /\
    forall d r, In (d, r) ledger ->
      r Cash = snd (nth 0 demo_holdings (0%Z, seed 0)) Cash
               + sumQ (map (fun p => snd p Cash)
                         (filter (fun p => Z.leb (fst p) d) demo_deltas)) /\
      forall s, r (Sym s)
                = sumQ (map (fun p => snd p (Sym s))
                          (filter (fun p => Z.leb (fst p) d) demo_deltas)).
Proof.
  apply (lines_79_90_running_totals [] ["JPM"%string] demo_prices
           demo_deltas demo_holdings 0
           (snd (nth 0 demo_holdings (0%Z, seed 0)))).
  - reflexivity.
  - apply (window_sorted every_day demo_orders).
  - reflexivity.
Defined.

(** * [TheoreticallyOptimalStrategy.py]: the rows of [testPolicy] *)

Lemma Qclt_bool_true (a b : Qc) : Qclt_bool a b = true <-> a < b.
Proof.
  unfold Qclt_bool. rewrite Qclt_alt.
  destruct (a ?= b); split; congruence.
Qed.

Lemma Qclt_bool_false (a b : Qc) : Qclt_bool a b = false <-> b <= a.
Proof.
  unfold Qclt_bool. change (b <= a) with (a >= b). rewrite Qcge_alt.
  destruct (a ?= b); split; congruence.
Qed.

Lemma index_get_data (tr : Z -> bool) (pr : Z -> string -> Qc)
    (symbols : list string) (dates : list Z) :
  index (get_data tr pr symbols dates) = filter tr dates.
Proof.
  unfold index, get_data. rewrite map_map. simpl. apply map_id.
Qed.

Lemma trading_days_In (tr : Z -> bool) (sd ed d : Z) :
  In d (trading_days tr sd ed) <-> tr d = true /\ (sd <= d <= ed)%Z.
Proof.
  unfold trading_days. rewrite filter_In, date_range_In. tauto.
Qed.

Lemma trading_days_sorted (tr : Z -> bool) (sd ed : Z) :
  StronglySorted Z.lt (trading_days tr sd ed).
Proof.
  apply filter_sorted, date_range_sorted.
Qed.

Lemma testPolicy_rows (tr : Z -> bool) (pr : Z -> string -> Qc)
    (s : string) (syms : list string) (sd ed : Z) (sv : Qc) :
  ~ In s syms ->
  testPolicy tr pr (s :: syms) sd ed sv
  = Ok (trade_rows pr s 0 (trading_days tr sd ed)).
Proof.
  intro Hn. unfold testPolicy. rewrite index_get_data.
  destruct (existsb (String.eqb s) syms) eqn:E; [|reflexivity].
  exfalso. apply existsb_exists in E. destruct E as [x [Hx E]].
  apply String.eqb_eq in E. now subst.
Qed.

Lemma testPolicy_inv (tr : Z -> bool) (pr : Z -> string -> Qc)
    (s : string) (syms : list string) (sd ed : Z) (sv : Qc)
    (rows : list order) :
  testPolicy tr pr (s :: syms) sd ed sv = Ok rows ->
  rows = trade_rows pr s 0 (trading_days tr sd ed).
Proof.
  unfold testPolicy. rewrite index_get_data.
  destruct (_ && _); [discriminate|]. intro E. now inversion E.
Qed.

Lemma trade_rows_cons (pr : Z -> string -> Qc) (s : string) (h : Qc)
    (d d' : Z) (rest : list Z) :
  trade_rows pr s h (d :: d' :: rest)
  = mk_order d s
      (Some (if Qclt_bool (new_trade pr s h d d') 0
             then "SELL" else "BUY")%string)
      (py_abs (new_trade pr s h d d'))
    :: trade_rows pr s (h + new_trade pr s h d d') (d' :: rest).
Proof.
  reflexivity.
Qed.

Lemma trade_rows_dates (pr : Z -> string -> Qc) (s : string)
    (dates : list Z) :
  forall h, map Date (trade_rows pr s h dates) = dates.
Proof.
  induction dates as [|d rest IH]; intro h; [reflexivity|].
  destruct rest as [|d' rest]; [reflexivity|].
  rewrite trade_rows_cons. cbn [map Date]. f_equal. apply IH.
Qed.

Lemma trade_rows_symbol (pr : Z -> string -> Qc) (s : string)
    (dates : list Z) :
  forall h o, In o (trade_rows pr s h dates) -> Symbol o = s.
Proof.
  induction dates as [|d rest IH]; intros h o Ho; [destruct Ho|].
  destruct rest as [|d' rest].
  - destruct Ho as [<-|[]]. reflexivity.
  - rewrite trade_rows_cons in Ho. destruct Ho as [<-|Ho]; [reflexivity|].
    exact (IH _ _ Ho).
Qed.

Lemma trade_rows_In_date (pr : Z -> string -> Qc) (s : string)
    (dates : list Z) (h : Qc) (o : order) :
  In o (trade_rows pr s h dates) -> In (Date o) dates.
Proof.
  intro Ho. rewrite <- (trade_rows_dates pr s dates h). now apply in_map.
Qed.

Lemma traded_trade (d : Z) (s : string) (nt : Qc) :
  traded (mk_order d s
            (Some (if Qclt_bool nt 0 then "SELL" else "BUY")%string)
            (py_abs nt)) = nt.
Proof.
  unfold traded, has_side, quantity, bos_of, is_sell, py_abs. simpl.
  destruct (Qclt_bool nt 0); simpl; ring.
Qed.

Lemma filter_none {A} (p : A -> bool) (l : list A) :
  (forall x, In x l -> p x = false) -> filter p l = [].
Proof.
  induction l as [|x l IH]; intro H; simpl; auto.
  rewrite (H x) by now left. apply IH. intros y Hy. apply H. now right.
Qed.

Lemma new_trade_target (pr : Z -> string -> Qc) (s : string) (h : Qc)
    (d d' : Z) :
  h + new_trade pr s h d d'
  = if Qclt_bool (pr d s) (pr d' s) then qz 1000 else - qz 1000.
Proof.
  unfold new_trade. destruct (Qclt_bool (pr d s) (pr d' s)); ring.
Qed.

(** After the row of a day that is not the last, the rows hold 1000
    shares long when the price is higher on the next day of the index,
    and 1000 shares short when it is not. *)
Lemma held_trade_rows (pr : Z -> string -> Qc) (s : string)
    (dates : list Z) :
  StronglySorted Z.lt dates ->
  forall h k d d',
  nth_error dates k = Some d -> nth_error dates (S k) = Some d' ->
  h + held (trade_rows pr s h dates) d
  = if Qclt_bool (pr d s) (pr d' s) then qz 1000 else - qz 1000.
Proof.
  induction 1 as [|d0 rest Hs IH H0]; intros h k d d' Hk HSk.
  - destruct k; discriminate.
  - rewrite Forall_forall in H0.
    destruct rest as [|d1 rest]; [destruct k as [|[|k]]; discriminate|].
    rewrite trade_rows_cons. unfold held. cbn [filter Date].
    destruct k as [|k].
    + simpl in Hk, HSk. inversion Hk; subst d0. inversion HSk; subst d1.
      rewrite Z.leb_refl. rewrite filter_none.
      * cbn [map sumQ fold_right]. rewrite traded_trade.
        rewrite Qcplus_0_r. apply new_trade_target.
      * intros o Ho. apply trade_rows_In_date in Ho.
        apply Z.leb_gt. now apply H0.
    + change (nth_error (d0 :: d1 :: rest) (S k))
        with (nth_error (d1 :: rest) k) in Hk.
      change (nth_error (d0 :: d1 :: rest) (S (S k)))
        with (nth_error (d1 :: rest) (S k)) in HSk.
      assert (Hlt : (d0 < d)%Z) by (apply H0; eapply nth_error_In; eauto).
      replace (Z.leb d0 d) with true by (symmetry; apply Z.leb_le; lia).
      cbn [map sumQ fold_right]. rewrite traded_trade.
      rewrite Qcplus_assoc.
      exact (IH (h + new_trade pr s h d0 d1) k d d' Hk HSk).
Qed.

(** * The worth of a frame of orders in one symbol, without costs *)

Lemma worth_before (pr : Z -> string -> Qc) (imp com : Qc)
    (os : list order) (sv : Qc) (d : Z) :
  (forall o, In o os -> has_side o = true -> (d < Date o)%Z) ->
  worth pr imp com os sv d = sv.
Proof.
  intro H. unfold worth. rewrite sumQ_map_zero; [ring|].
  intros o Ho. apply filter_In in Ho. destruct Ho as [Ho Hle].
  apply Z.leb_le in Hle. unfold order_worth.
  destruct (has_side o) eqn:Es; auto.
  specialize (H o Ho Es). lia.
Qed.

Lemma worth_first (pr : Z -> string -> Qc) (os : list order) (sv : Qc)
    (d0 : Z) :
  (forall o, In o os -> has_side o = true -> (d0 <= Date o)%Z) ->
  worth pr 0 0 os sv d0 = sv.
Proof.
  intro H. unfold worth. rewrite sumQ_map_zero; [ring|].
  intros o Ho. apply filter_In in Ho. destruct Ho as [Ho Hle].
  apply Z.leb_le in Hle. unfold order_worth.
  destruct (has_side o) eqn:Es; auto.
  specialize (H o Ho Es). assert (E : Date o = d0) by lia.
  rewrite E. ring.
Qed.

(** From a day to a later one with no dated row in between, the worth
    moves by the shares held on the first day times the move of the
    price. *)
Lemma worth_step (pr : Z -> string -> Qc) (s : string) (os : list order)
    (sv : Qc) (dp d : Z) :
  (forall o, In o os -> has_side o = true -> Symbol o = s) ->
  (forall o, In o os -> has_side o = true ->
             (Date o <= dp)%Z \/ (d <= Date o)%Z) ->
  (dp <= d)%Z ->
  worth pr 0 0 os sv d
  = worth pr 0 0 os sv dp + held os dp * (pr d s - pr dp s).
Proof.
  intros Hsym Hbetween Hle.
  unfold worth, held. rewrite <- Qcplus_assoc. f_equal.
  rewrite <- sumQ_map_scale. rewrite !sumQ_filter.
  rewrite <- sumQ_map_plus. apply sumQ_map_ext. intros o Ho.
  unfold order_worth, traded. destruct (has_side o) eqn:Es.
  - rewrite (Hsym o Ho Es).
    destruct (Hbetween o Ho Es) as [H1|H1].
    + replace (Z.leb (Date o) dp) with true
        by (symmetry; apply Z.leb_le; lia).
      replace (Z.leb (Date o) d) with true
        by (symmetry; apply Z.leb_le; lia).
      ring.
    + destruct (Z.leb (Date o) dp) eqn:E1.
      * apply Z.leb_le in E1. assert (E : dp = d) by lia. subst dp.
        replace (Z.leb (Date o) d) with true
          by (symmetry; apply Z.leb_le; lia).
        ring.
      * destruct (Z.leb (Date o) d) eqn:E2; [|ring].
        apply Z.leb_le in E2. assert (E : Date o = d) by lia.
        rewrite E. ring.
  - destruct (Z.leb (Date o) d), (Z.leb (Date o) dp); ring.
Qed.

(** With at most 1000 shares held either way, a day's gain is at most
    1000 times the size of the move of the price. *)
Lemma gain_bound (h x : Qc) :
  - qz 1000 <= h -> h <= qz 1000 -> h * x <= qz 1000 * py_abs x.
Proof.
  intros Hlo Hhi. unfold py_abs. destruct (Qclt_bool x 0) eqn:E.
  - apply Qclt_bool_true in E.
    replace (h * x) with ((- h) * (- x)) by ring.
    apply Qcmult_le_compat_r.
    + replace (qz 1000) with (- - qz 1000) by ring.
      now apply Qcopp_le_compat.
    + replace 0 with (- 0) by ring. apply Qcopp_le_compat.
      now apply Qclt_le_weak.
  - apply Qclt_bool_false in E. now apply Qcmult_le_compat_r.
Qed.

(** The target of a day, 1000 shares long or short with the move of the
    price, gains 1000 times the size of the move. *)
Lemma gain_target (a b : Qc) :
  (if Qclt_bool a b then qz 1000 else - qz 1000) * (b - a)
  = qz 1000 * py_abs (b - a).
Proof.
  unfold py_abs.
  destruct (Qclt_bool a b) eqn:E; destruct (Qclt_bool (b - a) 0) eqn:F.
  - apply Qclt_bool_true in E. apply Qclt_bool_true in F. exfalso.
    apply (Qclt_not_le _ _ F). apply Qclt_le_weak.
    apply -> Qclt_minus_iff. exact E.
  - reflexivity.
  - ring.
  - apply Qclt_bool_false in E. apply Qclt_bool_false in F.
    assert (Hba : 0 <= a + - b) by (apply -> Qcle_minus_iff; exact E).
    assert (Z0 : b - a = 0).
    { apply Qcle_antisym; [|exact F].
      replace (b - a) with (- (a + - b)) by ring.
      replace 0 with (- 0) by ring. now apply Qcopp_le_compat. }
    rewrite Z0. ring.
Qed.

(** * Sorted labels, once more *)

Lemma sorted_next (l : list Z) :
  StronglySorted Z.lt l ->
  forall j a b,
  nth_error l j = Some a -> In b l -> (a < b)%Z ->
  (forall x, In x l -> (x <= a)%Z \/ (b <= x)%Z) ->
  nth_error l (S j) = Some b.
Proof.
  induction 1 as [|y l Hs IH Hy]; intros j a b Ha Hb Hab Hbetween.
  - destruct j; discriminate.
  - rewrite Forall_forall in Hy. destruct j as [|j].
    + simpl in Ha. inversion Ha; subst y.
      destruct Hb as [Hb|Hb]; [lia|].
      destruct l as [|z l]; [destruct Hb|]. simpl.
      assert (Hz : (a < z)%Z) by (apply Hy; now left).
      destruct (Hbetween z) as [H1|H1]; [right; now left | lia |].
      destruct Hb as [Hb|Hb]; [now rewrite Hb|].
      inversion Hs as [|? ? _ Hzl]; subst. rewrite Forall_forall in Hzl.
      specialize (Hzl b Hb). lia.
    + simpl in Ha.
      assert (Hya : (y < a)%Z) by (apply Hy; eapply nth_error_In; eauto).
      destruct Hb as [Hb|Hb]; [lia|].
      change (nth_error (y :: l) (S (S j))) with (nth_error l (S j)).
      apply (IH j a b Ha Hb Hab). intros x Hx. apply Hbetween. now right.
Qed.

Lemma sorted_head_min (a : Z) (l : list Z) :
  StronglySorted Z.lt (a :: l) -> forall x, In x (a :: l) -> (a <= x)%Z.
Proof.
  intros Hs x [Hx|Hx]; [lia|].
  inversion Hs as [|? ? _ Ha]; subst. rewrite Forall_forall in Ha.
  specialize (Ha x Hx). lia.
Qed.

Lemma sorted_last_max (l : list Z) :
  forall a, StronglySorted Z.lt (a :: l) ->
  forall x, In x (a :: l) -> (x <= last l a)%Z.
Proof.
  induction l as [|b l IH]; intros a Hs x Hx.
  - destruct Hx as [<-|[]]. simpl. lia.
  - change (last (b :: l) a) with
      (match l with [] => b | _ :: _ => last l a end).
    assert (E : match l with [] => b | _ :: _ => last l a end = last l b).
    { destruct l; [reflexivity|]. apply last_indep. discriminate. }
    rewrite E.
    inversion Hs as [|? ? Hs' Ha]; subst. rewrite Forall_forall in Ha.
    destruct Hx as [<-|Hx].
    + assert (Hab : (a < b)%Z) by (apply Ha; now left).
      specialize (IH b Hs' b (or_introl eq_refl)). lia.
    + exact (IH b Hs' x Hx).
Qed.

Lemma last_In {A} (l : list A) (a : A) : In (last l a) (a :: l).
Proof.
  revert a. induction l as [|b l IH]; intro a; [now left|].
  right. destruct l as [|c l]; [now left|].
  change (last (b :: c :: l) a) with (last (c :: l) a).
  rewrite (last_indep (c :: l) a b) by discriminate. apply IH.
Qed.

Lemma window_trading (tr : Z -> bool) (os : list order) (d : Z) :
  In d (window tr os) -> tr d = true.
Proof.
  destruct os as [|o rest]; [intros []|].
  intro H. apply in_window in H. tauto.
Qed.

(** A returned series: its days, and what its orders had to be. *)
Lemma run_index (tr : Z -> bool) (pr : Z -> string -> Qc)
    (os : list order) (sv com imp : Qc) (series : list (Z * Qc)) :
  run tr pr os sv com imp = Ok series ->
  map fst series = window tr os /\
  forall o, In o os -> has_side o = true -> In (Date o) (window tr os).
Proof.
  intro Hrun. unfold run in Hrun.
  destruct (compute_portvals tr pr sv com imp (init_heap os)) as [res h']
    eqn:E.
  simpl in Hrun. subst res.
  destruct (run_returns tr pr os sv com imp series h' E)
    as [_ [_ [Hall [Hs _]]]].
  split.
  - rewrite Hs. apply index_port_vals.
  - intros o Ho Es. unfold dates_ok in Hall. rewrite Forall_forall in Hall.
    apply Hall. apply filter_In. auto.
Qed.

(** Rows dated on trading days in increasing order of date always run. *)
Lemma run_sorted (tr : Z -> bool) (pr : Z -> string -> Qc)
    (o : order) (rest : list order) (sv com imp : Qc) :
  StronglySorted Z.lt (map Date (o :: rest)) ->
  (forall x, In x (o :: rest) -> tr (Date x) = true) ->
  run tr pr (o :: rest) sv com imp
  = Ok (port_vals tr pr (o :: rest) sv imp com).
Proof.
  intros Hs Htr.
  assert (Hin : forall x, In x (o :: rest) ->
                          In (Date x) (window tr (o :: rest))).
  { intros x Hx. apply in_window. split; [now apply Htr|].
    assert (Hd : In (Date x) (Date o :: map Date rest))
      by (apply (in_map Date (o :: rest)); exact Hx).
    pose proof (sorted_head_min (Date o) (map Date rest) Hs _ Hd) as H1.
    pose proof (sorted_last_max (map Date rest) (Date o) Hs _ Hd) as H2.
    rewrite last_map in H2. lia. }
  unfold run. rewrite run_ok.
  - reflexivity.
  - intro E. specialize (Hin o (or_introl eq_refl)).
    rewrite E in Hin. destruct Hin.
  - apply Forall_forall. intros x Hx. apply filter_In in Hx.
    apply Hin. tauto.
Qed.

(** * The rows of [testPolicy], one by one *)

Lemma trade_rows_nonempty (pr : Z -> string -> Qc) (s : string) (h : Qc)
    (dates : list Z) :
  dates <> [] -> trade_rows pr s h dates <> [].
Proof.
  intros Hne E. apply Hne. rewrite <- (trade_rows_dates pr s dates h).
  now rewrite E.
Qed.

Lemma trade_rows_last (pr : Z -> string -> Qc) (s : string)
    (dates : list Z) (dflt : order) :
  forall h, dates <> [] ->
  last (trade_rows pr s h dates) dflt = mk_order (last dates 0%Z) s None 0.
Proof.
  induction dates as [|d rest IH]; intros h Hne; [contradiction|].
  destruct rest as [|d' rest]; [reflexivity|].
  rewrite trade_rows_cons.
  assert (Hr : trade_rows pr s (h + new_trade pr s h d d') (d' :: rest)
               <> []) by (apply trade_rows_nonempty; discriminate).
  specialize (IH (h + new_trade pr s h d d')).
  destruct (trade_rows pr s (h + new_trade pr s h d d') (d' :: rest))
    as [|r rows] eqn:E; [contradiction|].
  change (last (d :: d' :: rest) 0%Z) with (last (d' :: rest) 0%Z).
  rewrite <- IH by discriminate. reflexivity.
Qed.

Lemma trade_rows_sides (pr : Z -> string -> Qc) (s : string)
    (dates : list Z) :
  forall h o, In o (removelast (trade_rows pr s h dates)) ->
  Order o = Some "BUY"%string \/ Order o = Some "SELL"%string.
Proof.
  induction dates as [|d rest IH]; intros h o Ho; [destruct Ho|].
  destruct rest as [|d' rest]; [destruct Ho|].
  rewrite trade_rows_cons in Ho.
  assert (Hr : trade_rows pr s (h + new_trade pr s h d d') (d' :: rest)
               <> []) by (apply trade_rows_nonempty; discriminate).
  specialize (IH (h + new_trade pr s h d d') o).
  destruct (trade_rows pr s (h + new_trade pr s h d d') (d' :: rest))
    as [|r rows] eqn:E; [contradiction|].
  destruct Ho as [<-|Ho]; [|now apply IH].
  simpl. destruct (Qclt_bool (new_trade pr s h d d') 0); auto.
Qed.

Lemma qz_2000 : qz 1000 + qz 1000 = qz 2000.
Proof.
  apply Qc_is_canon. reflexivity.
Qed.

(** The row of a day after the first: nothing to trade when the price
    goes on as on the day before, 2000 shares when it turns. *)
Lemma trade_rows_turn (pr : Z -> string -> Qc) (s : string)
    (dates : list Z) :
  forall h k d d' d'',
  nth_error dates k = Some d -> nth_error dates (S k) = Some d' ->
  nth_error dates (S (S k)) = Some d'' ->
  nth_error (trade_rows pr s h dates) (S k)
  = Some (mk_order d' s
            (Some (if Qclt_bool (pr d' s) (pr d'' s) then "BUY"
                   else if Qclt_bool (pr d s) (pr d' s) then "SELL"
                   else "BUY")%string)
            (if Bool.eqb (Qclt_bool (pr d s) (pr d' s))
                         (Qclt_bool (pr d' s) (pr d'' s))
             then 0 else qz 2000)).
Proof.
  induction dates as [|d0 rest IH]; intros h k d d' d'' Hk H1 H2.
  - destruct k; discriminate.
  - destruct rest as [|d1 rest]; [destruct k as [|[|k]]; discriminate|].
    rewrite trade_rows_cons.
    change (nth_error (?x :: ?l) (S k)) with (nth_error l k).
    destruct k as [|k].
    + simpl in Hk, H1. inversion Hk; subst d0. inversion H1; subst d1.
      destruct rest as [|d2 rest]; [discriminate|].
      simpl in H2. inversion H2; subst d2.
      rewrite trade_rows_cons. cbn [nth_error]. f_equal.
      rewrite new_trade_target. unfold new_trade.
      destruct (Qclt_bool (pr d s) (pr d' s)),
               (Qclt_bool (pr d' s) (pr d'' s)); cbn [Bool.eqb].
      * replace (qz 1000 - qz 1000) with 0 by ring. reflexivity.
      * replace (- qz 1000 - qz 1000) with (- qz 2000)
          by (rewrite <- qz_2000; ring).
        change (Qclt_bool (- qz 2000) 0) with true.
        unfold py_abs. change (Qclt_bool (- qz 2000) 0) with true.
        cbv iota. f_equal; ring.
      * replace (qz 1000 - - qz 1000) with (qz 2000)
          by (rewrite <- qz_2000; ring).
        reflexivity.
      * replace (- qz 1000 - - qz 1000) with 0 by ring. reflexivity.
    + apply (IH _ k d d' d''); assumption.
Qed.

Lemma trade_rows_first (pr : Z -> string -> Qc) (s : string)
    (d d' : Z) (rest : list Z) :
  nth_error (trade_rows pr s 0 (d :: d' :: rest)) 0
  = Some (mk_order d s
            (Some (if Qclt_bool (pr d s) (pr d' s) then "BUY" else "SELL")
               %string)
            (qz 1000)).
Proof.
  rewrite trade_rows_cons. cbn [nth_error]. f_equal. unfold new_trade.
  destruct (Qclt_bool (pr d s) (pr d' s)).
  - replace (qz 1000 - 0) with (qz 1000) by ring. reflexivity.
  - replace (- qz 1000 - 0) with (- qz 1000) by ring.
    unfold py_abs. change (Qclt_bool (- qz 1000) 0) with true.
    cbv iota. f_equal; ring.
Qed.

(** X13.  The frame [testPolicy] returns when [symbols[0]] is listed
    once and there is a trading day from [sd] to [ed]: one row for every trading day of the range, in date
    order, all in [symbols[0]]; every row but the last is a ['BUY'] or a
    ['SELL'], and the row of the last trading day has no side and no
    shares. *)
Theorem testPolicy_frame (tr : Z -> bool) (pr : Z -> string -> Qc)
    (s : string) (syms : list string) (sd ed : Z) (sv : Qc) :
  ~ In s syms ->
  trading_days tr sd ed <> [] ->
  exists rows,
    testPolicy tr pr (s :: syms) sd ed sv = Ok rows /\
    map Date rows = trading_days tr sd ed /\
    (forall o, In o rows -> Symbol o = s) /\
    (forall o, In o (removelast rows) ->
               Order o = Some "BUY"%string \/ Order o = Some "SELL"%string) /\
    last rows (mk_order 0 s None 0)
    = mk_order (last (trading_days tr sd ed) 0%Z) s None 0.
Proof.
  intros Hn Hne. exists (trade_rows pr s 0 (trading_days tr sd ed)).
  split; [now apply testPolicy_rows|]. split; [apply trade_rows_dates|].
  split; [apply trade_rows_symbol|]. split; [apply trade_rows_sides|].
  now apply trade_rows_last.
Qed.

Lemma testPolicy_frame_witness :
  exists rows,
    testPolicy every_day seesaw ["JPM"%string] 1 4 (qz 100000) = Ok rows /\
    map Date rows = trading_days every_day 1 4 /\
    (forall o, In o rows -> Symbol o = "JPM"%string) /\
    (forall o, In o (removelast rows) ->
               Order o = Some "BUY"%string \/ Order o = Some "SELL"%string) /\
    last rows (mk_order 0 "JPM" None 0)
    = mk_order (last (trading_days every_day 1 4) 0%Z) "JPM" None 0.
Proof.
  apply (testPolicy_frame every_day seesaw "JPM"%string [] 1 4 (qz 100000)).
  - intros [].
  - vm_compute. discriminate.
Defined.

(** X14.  The position of the strategy: at the end of every trading day
    of the range but the last, the rows of [testPolicy] hold 1000 shares
    long when the price is higher on the next trading day, and 1000
    shares short when it is not. *)
Theorem testPolicy_position (tr : Z -> bool) (pr : Z -> string -> Qc)
    (s : string) (syms : list string) (sd ed : Z) (sv : Qc)
    (rows : list order) (k : nat) (d d' : Z) :
  testPolicy tr pr (s :: syms) sd ed sv = Ok rows ->
  nth_error (trading_days tr sd ed) k = Some d ->
  nth_error (trading_days tr sd ed) (S k) = Some d' ->
  held rows d = if Qclt_bool (pr d s) (pr d' s) then qz 1000 else - qz 1000.
Proof.
  intros E Hk HSk. apply testPolicy_inv in E. subst rows.
  rewrite <- (held_trade_rows pr s (trading_days tr sd ed)
                (trading_days_sorted tr sd ed) 0 k d d' Hk HSk).
  ring.
Qed.

Lemma testPolicy_position_witness :
  held seesaw_rows 2
  = if Qclt_bool (seesaw 2 "JPM") (seesaw 3 "JPM")
    then qz 1000 else - qz 1000.
Proof.
  apply (testPolicy_position every_day seesaw "JPM"%string [] 1 4
           (qz 100000) seesaw_rows 1 2 3); reflexivity.
Defined.

(** X15.  The sizes of the trades of [testPolicy].  The first row trades
    1000 shares, a ['BUY'] when the price is higher on the next trading
    day and a ['SELL'] when it is not.  A later row that is not the last
    trades 2000 shares when the move to the next day is not in the
    direction of the move from the day before, and is a ['BUY'] of no
    shares when it is. *)
Theorem testPolicy_trade_sizes (tr : Z -> bool) (pr : Z -> string -> Qc)
    (s : string) (syms : list string) (sd ed : Z) (sv : Qc)
    (rows : list order) :
  testPolicy tr pr (s :: syms) sd ed sv = Ok rows ->
  (forall d d',
     nth_error (trading_days tr sd ed) 0 = Some d ->
     nth_error (trading_days tr sd ed) 1 = Some d' ->
     nth_error rows 0
     = Some (mk_order d s
               (Some (if Qclt_bool (pr d s) (pr d' s)
                      then "BUY" else "SELL")%string)
               (qz 1000))) /\
  (forall k d d' d'',
     nth_error (trading_days tr sd ed) k = Some d ->
     nth_error (trading_days tr sd ed) (S k) = Some d' ->
     nth_error (trading_days tr sd ed) (S (S k)) = Some d'' ->
     nth_error rows (S k)
     = Some (mk_order d' s
               (Some (if Qclt_bool (pr d' s) (pr d'' s) then "BUY"
                      else if Qclt_bool (pr d s) (pr d' s) then "SELL"
                      else "BUY")%string)
               (if Bool.eqb (Qclt_bool (pr d s) (pr d' s))
                            (Qclt_bool (pr d' s) (pr d'' s))
                then 0 else qz 2000))).
Proof.
  intro E. apply testPolicy_inv in E. subst rows. split.
  - intros d d' H0 H1.
    destruct (trading_days tr sd ed) as [|a [|b rest]]; try discriminate.
    simpl in H0, H1. inversion H0; subst a. inversion H1; subst b.
    apply trade_rows_first.
  - intros k d d' d''. apply trade_rows_turn.
Qed.

Lemma testPolicy_trade_sizes_witness :
  nth_error seesaw_rows 0
  = Some (mk_order 1 "JPM" (Some "SELL"%string) (qz 1000)) /\
  nth_error seesaw_rows 1
  = Some (mk_order 2 "JPM" (Some "BUY"%string) (qz 2000)).
Proof.
  destruct (testPolicy_trade_sizes every_day seesaw "JPM"%string [] 1 4
              (qz 100000) seesaw_rows eq_refl) as [H0 H1].
  split.
  - exact (H0 1%Z 2%Z eq_refl eq_refl).
  - exact (H1 0%nat 1%Z 2%Z 3%Z eq_refl eq_refl eq_refl).
Defined.

(** X16.  The rows of [testPolicy] always run: when there is a trading
    day from [sd] to [ed], [compute_portvals] returns a series for them
    whatever the starting cash and the costs, and the days of the series
    are the trading days of the range, with the day before the first of
    them when it is a trading day. *)
Theorem testPolicy_orders_run (tr : Z -> bool) (pr : Z -> string -> Qc)
    (s : string) (syms : list string) (sd ed : Z) (sv : Qc)
    (rows : list order) (start_val commission impact : Qc) :
  trading_days tr sd ed <> [] ->
  testPolicy tr pr (s :: syms) sd ed sv = Ok rows ->
  exists series,
    run tr pr rows start_val commission impact = Ok series /\
    forall d, In d (map fst series) <->
              In d (trading_days tr sd ed) \/
              (tr d = true /\ d = (hd 0%Z (trading_days tr sd ed) - 1)%Z).
Proof.
  intros Hne E. apply testPolicy_inv in E. subst rows.
  pose proof (trade_rows_dates pr s (trading_days tr sd ed) 0) as Hd.
  pose proof (trading_days_sorted tr sd ed) as Hs.
  assert (Hin : forall o, In o (trade_rows pr s 0 (trading_days tr sd ed))
                          -> In (Date o) (trading_days tr sd ed))
    by (intro o; apply trade_rows_In_date).
  destruct (trade_rows pr s 0 (trading_days tr sd ed)) as [|o rest] eqn:Er.
  - symmetry in Hd. contradiction.
  - exists (port_vals tr pr (o :: rest) start_val impact commission).
    split.
    + apply run_sorted.
      * rewrite Hd. exact Hs.
      * intros x Hx. apply Hin in Hx. apply trading_days_In in Hx. tauto.
    + intro d. rewrite index_port_vals, in_window.
      rewrite <- Hd in Hs |- *. cbn [map hd].
      cbn [map] in Hs.
      pose proof (sorted_head_min (Date o) (map Date rest) Hs) as Hmin.
      pose proof (sorted_last_max (map Date rest) (Date o) Hs) as Hmax.
      rewrite last_map in Hmax.
      assert (Ho : In (Date o) (trading_days tr sd ed))
        by (apply Hin; now left).
      assert (Hl : In (Date (last rest o)) (trading_days tr sd ed))
        by (apply Hin; apply last_In).
      apply trading_days_In in Ho. apply trading_days_In in Hl.
      split.
      * intros [Ht Hr].
        destruct (Z.eq_dec d (Date o - 1)) as [Eq|Ne]; [now right|].
        left. change (Date o :: map Date rest) with (map Date (o :: rest)).
        rewrite Hd. apply trading_days_In. split; [exact Ht|lia].
      * intros [Hx|[Ht Eq]].
        -- split.
           ++ change (Date o :: map Date rest)
                with (map Date (o :: rest)) in Hx.
              rewrite Hd in Hx. apply trading_days_In in Hx. tauto.
           ++ specialize (Hmin d Hx). specialize (Hmax d Hx). lia.
        -- split; [exact Ht|].
           specialize (Hmax (Date o) (or_introl eq_refl)). lia.
Qed.

Lemma testPolicy_orders_run_witness :
  exists series,
    run every_day seesaw seesaw_rows default_start_val default_commission
      default_impact = Ok series /\
    forall d, In d (map fst series) <->
              In d (trading_days every_day 1 4) \/
              (every_day d = true /\
               d = (hd 0%Z (trading_days every_day 1 4) - 1)%Z).
Proof.
  apply (testPolicy_orders_run every_day seesaw "JPM"%string [] 1 4
           (qz 100000)).
  - vm_compute. discriminate.
  - reflexivity.
Defined.

(** * The strategy against any other *)

Lemma py_abs_nonneg (x : Qc) : 0 <= py_abs x.
Proof.
  unfold py_abs. destruct (Qclt_bool x 0) eqn:E.
  - apply Qclt_bool_true in E. replace 0 with (- 0) by ring.
    apply Qcopp_le_compat. now apply Qclt_le_weak.
  - now apply Qclt_bool_false in E.
Qed.

Lemma nth_error_pred {A} (l : list A) (k : nat) (x : A) :
  nth_error l (S k) = Some x -> exists y, nth_error l k = Some y.
Proof.
  intro H. destruct (nth_error l k) as [y|] eqn:E; [now exists y|].
  apply nth_error_None in E.
  assert (N : nth_error l (S k) = None) by (apply nth_error_None; lia).
  congruence.
Qed.

(** Day by day, no frame of orders in the same symbol that holds at most
    1000 shares either way is worth more than the rows of the strategy. *)
Lemma optimal_worth (pr : Z -> string -> Qc) (s : string) (T : list Z)
    (os : list order) (sv : Qc) :
  StronglySorted Z.lt T ->
  (forall o, In o os -> has_side o = true ->
             Symbol o = s /\ In (Date o) T) ->
  (forall d, In d T -> - qz 1000 <= held os d /\ held os d <= qz 1000) ->
  forall k d, nth_error T k = Some d ->
  worth pr 0 0 os sv d <= worth pr 0 0 (trade_rows pr s 0 T) sv d.
Proof.
  intros Hs Hos Hb.
  assert (Hrows : forall o, In o (trade_rows pr s 0 T) ->
                            has_side o = true ->
                            Symbol o = s /\ In (Date o) T).
  { intros o Ho _. split.
    - exact (trade_rows_symbol pr s T 0 o Ho).
    - exact (trade_rows_In_date pr s T 0 o Ho). }
  induction k as [|k IH]; intros d Hk.
  - destruct T as [|d0 T']; [discriminate|].
    simpl in Hk. inversion Hk; subst d0.
    rewrite (worth_first pr os sv d).
    + rewrite (worth_first pr (trade_rows pr s 0 (d :: T')) sv d).
      * apply Qcle_refl.
      * intros o Ho Es. apply (sorted_head_min d T' Hs).
        now apply Hrows.
    + intros o Ho Es. apply (sorted_head_min d T' Hs). now apply Hos.
  - destruct (nth_error_pred T k d Hk) as [dp Ek].
    destruct (sorted_adjacent T Hs k dp d Ek Hk) as [Hlt Hbetween].
    assert (Hle : (dp <= d)%Z) by lia.
    rewrite (worth_step pr s os sv dp d
               (fun o Ho Es => proj1 (Hos o Ho Es))
               (fun o Ho Es => Hbetween _ (proj2 (Hos o Ho Es))) Hle).
    rewrite (worth_step pr s (trade_rows pr s 0 T) sv dp d
               (fun o Ho Es => proj1 (Hrows o Ho Es))
               (fun o Ho Es => Hbetween _ (proj2 (Hrows o Ho Es))) Hle).
    apply Qcplus_le_compat; [now apply IH|].
    pose proof (held_trade_rows pr s T Hs 0 k dp d Ek Hk) as Hh.
    rewrite Qcplus_0_l in Hh. rewrite Hh, gain_target.
    apply gain_bound; apply Hb; exact (nth_error_In _ _ Ek).
Qed.

(** The same, on the series of two runs. *)
Lemma optimal_series (tr : Z -> bool) (pr : Z -> string -> Qc)
    (s : string) (sd ed : Z) (os : list order) (sv : Qc)
    (series series' : list (Z * Qc)) (d : Z) (v v' : Qc) :
  run tr pr (trade_rows pr s 0 (trading_days tr sd ed)) sv 0 0
  = Ok series ->
  run tr pr os sv 0 0 = Ok series' ->
  (forall o, In o os -> has_side o = true ->
             Symbol o = s /\ (sd <= Date o <= ed)%Z) ->
  (forall x, In x (trading_days tr sd ed) ->
             - qz 1000 <= held os x /\ held os x <= qz 1000) ->
  In (d, v) series -> In (d, v') series' -> v' <= v.
Proof.
  intros Hrun Hrun' Hos Hb Hin Hin'.
  rewrite (value_closed_form tr pr _ sv 0 0 series d v Hrun Hin).
  rewrite (value_closed_form tr pr os sv 0 0 series' d v' Hrun' Hin').
  destruct (run_index tr pr _ sv 0 0 series Hrun) as [Hi _].
  destruct (run_index tr pr os sv 0 0 series' Hrun') as [_ Hd'].
  assert (Hos' : forall o, In o os -> has_side o = true ->
                           Symbol o = s /\
                           In (Date o) (trading_days tr sd ed)).
  { intros o Ho Es. destruct (Hos o Ho Es) as [E R]. split; auto.
    apply trading_days_In. split; auto.
    exact (window_trading tr os _ (Hd' o Ho Es)). }
  assert (Hw : In d (window tr (trade_rows pr s 0 (trading_days tr sd ed)))).
  { rewrite <- Hi. apply (in_map fst series (d, v)). exact Hin. }
  pose proof (trade_rows_dates pr s (trading_days tr sd ed) 0) as Hdates.
  assert (Hrd : forall o,
            In o (trade_rows pr s 0 (trading_days tr sd ed)) ->
            In (Date o) (trading_days tr sd ed))
    by (intro o; apply trade_rows_In_date).
  destruct (trade_rows pr s 0 (trading_days tr sd ed)) as [|o rest] eqn:Er.
  - destruct Hw.
  - apply in_window in Hw. destruct Hw as [Ht Hr].
    assert (Hl : In (Date (last rest o)) (trading_days tr sd ed))
      by (apply Hrd; apply last_In).
    apply trading_days_In in Hl.
    destruct (Z_lt_le_dec d sd) as [Hlt|Hge].
    + rewrite (worth_before pr 0 0 os sv d).
      * rewrite (worth_before pr 0 0 (o :: rest) sv d);
          [apply Qcle_refl|].
        intros x Hx _. apply Hrd in Hx. apply trading_days_In in Hx. lia.
      * intros x Hx Es. destruct (Hos x Hx Es) as [_ R]. lia.
    + assert (HdT : In d (trading_days tr sd ed))
        by (apply trading_days_In; split; [exact Ht|lia]).
      apply In_nth_error in HdT. destruct HdT as [k Hk].
      rewrite <- Er.
      exact (optimal_worth pr s (trading_days tr sd ed) os sv
               (trading_days_sorted tr sd ed) Hos' Hb k d Hk).
Qed.

(** The rows of the strategy from one day of their series to the next. *)
Lemma optimal_step (tr : Z -> bool) (pr : Z -> string -> Qc)
    (s : string) (sd ed : Z) (sv : Qc) (series : list (Z * Qc))
    (k : nat) (dp : Z) (vp : Qc) (d : Z) (v : Qc) :
  run tr pr (trade_rows pr s 0 (trading_days tr sd ed)) sv 0 0
  = Ok series ->
  nth_error series k = Some (dp, vp) ->
  nth_error series (S k) = Some (d, v) ->
  (sd <= dp)%Z ->
  v = vp + qz 1000 * py_abs (pr d s - pr dp s).
Proof.
  intros Hrun Hk HSk Hsd.
  rewrite (value_closed_form tr pr _ sv 0 0 series d v Hrun
             (nth_error_In _ _ HSk)).
  rewrite (value_closed_form tr pr _ sv 0 0 series dp vp Hrun
             (nth_error_In _ _ Hk)).
  destruct (run_index tr pr _ sv 0 0 series Hrun) as [Hi _].
  set (T := trading_days tr sd ed) in *.
  set (rows := trade_rows pr s 0 T) in *.
  assert (Hadj : (dp < d)%Z /\
                 forall x, In x (window tr rows) -> (x <= dp)%Z \/ (d <= x)%Z).
  { apply (sorted_adjacent (window tr rows) (window_sorted tr rows) k).
    - rewrite <- Hi, nth_error_map, Hk. reflexivity.
    - rewrite <- Hi, nth_error_map, HSk. reflexivity. }
  destruct Hadj as [Hlt Hbetween].
  assert (Hrd : forall o, In o rows -> In (Date o) T)
    by (intro o; apply trade_rows_In_date).
  assert (Hsub : forall x, In x T -> In x (window tr rows)).
  { intros x Hx. pose proof (trade_rows_dates pr s T 0) as Hdates.
    fold rows in Hdates. pose proof (trading_days_sorted tr sd ed) as Hs.
    fold T in Hs. rewrite <- Hdates in Hs, Hx.
    destruct rows as [|o rest]; [destruct Hx|].
    apply in_window. cbn [map] in Hs, Hx.
    pose proof (sorted_head_min (Date o) (map Date rest) Hs x Hx) as H1.
    pose proof (sorted_last_max (map Date rest) (Date o) Hs x Hx) as H2.
    rewrite last_map in H2. split; [|lia].
    change (Date o :: map Date rest) with (map Date (o :: rest)) in Hx.
    rewrite Hdates in Hx. apply trading_days_In in Hx. tauto. }
  assert (Hwin : forall x, In x (window tr rows) -> (sd <= x)%Z ->
                           In x T).
  { intros x Hx Hge. apply trading_days_In.
    split; [exact (window_trading tr rows x Hx)|]. split; [exact Hge|].
    destruct rows as [|o rest] eqn:Er; [destruct Hx|].
    apply in_window in Hx.
    assert (Hl : In (Date (last rest o)) T) by (apply Hrd; apply last_In).
    apply trading_days_In in Hl. lia. }
  assert (Hdp : In dp T).
  { apply Hwin; [|exact Hsd]. rewrite <- Hi.
    apply (in_map fst series (dp, vp)). exact (nth_error_In _ _ Hk). }
  assert (Hd : In d T).
  { apply Hwin; [|lia]. rewrite <- Hi.
    apply (in_map fst series (d, v)). exact (nth_error_In _ _ HSk). }
  apply In_nth_error in Hdp. destruct Hdp as [j Hj].
  assert (HSj : nth_error T (S j) = Some d).
  { apply (sorted_next T (trading_days_sorted tr sd ed) j dp d Hj Hd Hlt).
    intros x Hx. apply Hbetween. now apply Hsub. }
  rewrite (worth_step pr s rows sv dp d).
  - pose proof (held_trade_rows pr s T (trading_days_sorted tr sd ed)
                  0 j dp d Hj HSj) as Hh.
    rewrite Qcplus_0_l in Hh. fold rows in Hh.
    rewrite Hh, gain_target. reflexivity.
  - intros o Ho _. exact (trade_rows_symbol pr s T 0 o Ho).
  - intros o Ho _. apply Hbetween, Hsub, Hrd, Ho.
  - lia.
Qed.

(** X17.  Without costs, the series of the strategy's rows gains, from
    each day on or after [sd] to the next, 1000 times the size of the
    move of the price: from [sd] on it never goes down. *)
Theorem optimal_gain_day_over_day (tr : Z -> bool)
    (pr : Z -> string -> Qc) (s : string) (syms : list string)
    (sd ed : Z) (sv0 : Qc) (rows : list order) (sv : Qc)
    (series : list (Z * Qc)) (k : nat) (dp : Z) (vp : Qc) (d : Z)
    (v : Qc) :
  testPolicy tr pr (s :: syms) sd ed sv0 = Ok rows ->
  run tr pr rows sv 0 0 = Ok series ->
  nth_error series k = Some (dp, vp) ->
  nth_error series (S k) = Some (d, v) ->
  (sd <= dp)%Z ->
  v = vp + qz 1000 * py_abs (pr d s - pr dp s) /\ vp <= v.
Proof.
  intros E Hrun Hk HSk Hsd. apply testPolicy_inv in E. subst rows.
  pose proof (optimal_step tr pr s sd ed sv series k dp vp d v
                Hrun Hk HSk Hsd) as Hv.
  split; [exact Hv|].
  rewrite Hv. rewrite <- (Qcplus_0_r vp) at 1.
  apply Qcplus_le_compat; [apply Qcle_refl|].
  apply Qcmult_nonneg; [|apply py_abs_nonneg].
  unfold Qcle. vm_compute. discriminate.
Qed.

Lemma optimal_gain_witness :
  snd (nth 2 seesaw_series (0%Z, 0))
  = snd (nth 1 seesaw_series (0%Z, 0))
    + qz 1000 * py_abs (seesaw 2 "JPM" - seesaw 1 "JPM") /\
  snd (nth 1 seesaw_series (0%Z, 0)) <= snd (nth 2 seesaw_series (0%Z, 0)).
Proof.
  apply (optimal_gain_day_over_day every_day seesaw "JPM"%string [] 1 4
           (qz 100000) seesaw_rows (qz 100000) seesaw_series 1 1
           (snd (nth 1 seesaw_series (0%Z, 0))) 2).
  - reflexivity.
  - vm_compute. reflexivity.
  - vm_compute. reflexivity.
  - vm_compute. reflexivity.
  - lia.
Defined.

(** X18.  The strategy is an upper bound.  Take any frame of orders
    whose rows with a side are in [symbols[0]] and dated from [sd] to
    [ed], and which holds at most 1000 shares, long or short, at the end
    of every trading day of the range.  Without costs and from the same
    starting cash, on every day that both series have, its value is at
    most the value of the rows of [testPolicy]. *)
Theorem no_orders_beat_testPolicy (tr : Z -> bool)
    (pr : Z -> string -> Qc) (s : string) (syms : list string)
    (sd ed : Z) (sv0 : Qc) (rows os : list order) (sv : Qc)
    (series series' : list (Z * Qc)) (d : Z) (v v' : Qc) :
  testPolicy tr pr (s :: syms) sd ed sv0 = Ok rows ->
  run tr pr rows sv 0 0 = Ok series ->
  run tr pr os sv 0 0 = Ok series' ->
  (forall o, In o os -> has_side o = true ->
             Symbol o = s /\ (sd <= Date o <= ed)%Z) ->
  (forall x, In x (trading_days tr sd ed) ->
             - qz 1000 <= held os x /\ held os x <= qz 1000) ->
  In (d, v) series -> In (d, v') series' -> v' <= v.
Proof.
  intro E. apply testPolicy_inv in E. subst rows.
  apply optimal_series.
Qed.

Lemma no_orders_beat_testPolicy_witness :
  snd (nth 2 half_series (0%Z, 0)) <= snd (nth 3 seesaw_series (0%Z, 0)).
Proof.
  apply (no_orders_beat_testPolicy every_day seesaw "JPM"%string [] 1 4
           (qz 100000) seesaw_rows half_orders (qz 100000)
           seesaw_series half_series 3).
  - reflexivity.
  - vm_compute. reflexivity.
  - vm_compute. reflexivity.
  - intros o [<-|[<-|[]]] _; split; try reflexivity; simpl; lia.
  - intros x Hx. vm_compute in Hx.
    destruct Hx as [<-|[<-|[<-|[<-|[]]]]];
      split; unfold Qcle; vm_compute; discriminate.
  - apply (nth_error_In seesaw_series 3). vm_compute. reflexivity.
  - apply (nth_error_In half_series 2). vm_compute. reflexivity.
Defined.

(** * [benchmark] *)

Lemma window_benchmark (tr : Z -> bool) (s : string) (sd ed : Z) :
  window tr (benchmark_orders s sd ed) = trading_days tr sd ed.
Proof.
  unfold window, benchmark_orders, trading_days. cbn [last Date].
  now rewrite Z.add_simpl_r.
Qed.

Lemma benchmark_unfold (tr : Z -> bool) (pr : Z -> string -> Qc)
    (s : string) (syms : list string) (sd ed : Z) (sv : Qc) :
  benchmark tr pr (s :: syms) sd ed sv
  = if Nat.eqb (List.length (firstn 2 (trading_days tr sd ed))) 1
    then Raise "ValueError"%string
    else run tr pr (benchmark_orders s sd ed) sv 0 0.
Proof.
  unfold benchmark, get_data. rewrite firstn_map, length_map. reflexivity.
Qed.

Lemma traded_benchmark (s : string) (sd ed : Z) (x : Z) :
  held (benchmark_orders s sd ed) x
  = (if Z.leb (sd + 1) x then qz 1000 else 0)
    + (if Z.leb ed x then - qz 1000 else 0).
Proof.
  unfold held, benchmark_orders. cbn [filter Date].
  destruct (Z.leb (sd + 1) x), (Z.leb ed x); cbn [map sumQ fold_right];
    unfold traded, has_side, quantity, bos_of, is_sell; simpl; ring.
Qed.

Lemma held_benchmark (s : string) (sd ed : Z) (x : Z) :
  - qz 1000 <= held (benchmark_orders s sd ed) x /\
  held (benchmark_orders s sd ed) x <= qz 1000.
Proof.
  rewrite traded_benchmark.
  destruct (Z.leb (sd + 1) x), (Z.leb ed x);
    split; unfold Qcle; vm_compute; discriminate.
Qed.

(** How the run of the two rows of [benchmark] ends when the range has
    two trading days or more. *)
Lemma benchmark_run_cases (tr : Z -> bool) (pr : Z -> string -> Qc)
    (s : string) (sd ed : Z) (sv : Qc) (a b : Z) (rest : list Z) :
  trading_days tr sd ed = a :: b :: rest ->
  (tr (sd + 1)%Z = true /\ tr ed = true /\
   exists series, run tr pr (benchmark_orders s sd ed) sv 0 0 = Ok series)
  \/ ((tr (sd + 1)%Z = false \/ tr ed = false) /\
      run tr pr (benchmark_orders s sd ed) sv 0 0 = Raise KeyError).
Proof.
  intro ET.
  assert (Hlt : (sd < ed)%Z).
  { pose proof (trading_days_sorted tr sd ed) as Hs. rewrite ET in Hs.
    assert (Ha : In a (trading_days tr sd ed)) by (rewrite ET; now left).
    assert (Hb : In b (trading_days tr sd ed))
      by (rewrite ET; right; now left).
    apply trading_days_In in Ha. apply trading_days_In in Hb.
    inversion Hs as [|? ? _ Hf]; subst. rewrite Forall_forall in Hf.
    specialize (Hf b (or_introl eq_refl)). lia. }
  assert (Hok : dates_ok tr (benchmark_orders s sd ed) <->
                tr (sd + 1)%Z = true /\ tr ed = true).
  { unfold dates_ok. rewrite window_benchmark, Forall_forall. split.
    - intro H. split.
      + assert (Hi : In (sd + 1)%Z (trading_days tr sd ed))
          by (apply (H (mk_order (sd + 1) s (Some "BUY"%string) (qz 1000)));
              now left).
        apply trading_days_In in Hi. tauto.
      + assert (Hi : In ed (trading_days tr sd ed))
          by (apply (H (mk_order ed s (Some "SELL"%string) (qz 1000)));
              right; now left).
        apply trading_days_In in Hi. tauto.
    - intros [H1 H2] x [<-|[<-|[]]]; apply trading_days_In; simpl;
        split; auto; lia. }
  unfold run.
  destruct (run_cases tr pr (benchmark_orders s sd ed) sv 0 0)
    as [[E R]|[[Hne [Ew R]]|[[Hne [Hw [Hno [d2' R]]]]|[Hne [Hw [Hall R]]]]]].
  - discriminate E.
  - rewrite window_benchmark, ET in Ew. discriminate Ew.
  - right. rewrite R. split; [|reflexivity].
    destruct (tr (sd + 1)%Z) eqn:E1; [|now left].
    destruct (tr ed) eqn:E2; [|now right].
    exfalso. apply Hno. apply Hok. auto.
  - left. rewrite R. apply Hok in Hall. destruct Hall as [H1 H2].
    repeat split; auto. eexists. reflexivity.
Qed.

Ltac close_outcome :=
  repeat match goal with
         | |- _ /\ _ => split
         | |- _ <-> _ => split
         | |- _ -> _ => intro
         end;
  repeat match goal with
         | H : _ /\ _ |- _ => destruct H
         | H : exists _, _ |- _ => destruct H
         | H : _ \/ _ |- _ => destruct H
         end;
  first [discriminate | congruence | lia | eauto].

(** X19.  How [benchmark] ends for a non-empty list of symbols.  With no
    trading day from [sd] to [ed] it raises [IndexError]; with exactly
    one it raises [ValueError]; with two or more it returns a series
    when the day after [sd] and [ed] itself are trading days, and raises
    [KeyError] when one of them is not. *)
Theorem benchmark_outcomes (tr : Z -> bool) (pr : Z -> string -> Qc)
    (s : string) (syms : list string) (sd ed : Z) (sv : Qc) :
  let n := List.length (trading_days tr sd ed) in
  (benchmark tr pr (s :: syms) sd ed sv = Raise IndexError <-> n = 0%nat) /\
  (benchmark tr pr (s :: syms) sd ed sv = Raise "ValueError"%string <->
   n = 1%nat) /\
  (benchmark tr pr (s :: syms) sd ed sv = Raise KeyError <->
   (2 <= n)%nat /\ (tr (sd + 1)%Z = false \/ tr ed = false)) /\
  ((exists series, benchmark tr pr (s :: syms) sd ed sv = Ok series) <->
   (2 <= n)%nat /\ tr (sd + 1)%Z = true /\ tr ed = true).
Proof.
  cbv zeta. rewrite benchmark_unfold.
  destruct (trading_days tr sd ed) as [|a [|b rest]] eqn:ET;
    cbn [firstn List.length Nat.eqb].
  - assert (R : run tr pr (benchmark_orders s sd ed) sv 0 0
                = Raise IndexError).
    { unfold run, benchmark_orders. rewrite run_no_rows; [reflexivity|].
      fold (benchmark_orders s sd ed). now rewrite window_benchmark. }
    rewrite R. close_outcome.
  - close_outcome.
  - destruct (benchmark_run_cases tr pr s sd ed sv a b rest ET)
      as [[H1 [H2 [series R]]]|[Hf R]]; rewrite R; close_outcome.
Qed.

Lemma benchmark_returns (tr : Z -> bool) (pr : Z -> string -> Qc)
    (s : string) (syms : list string) (sd ed : Z) (sv : Qc)
    (series : list (Z * Qc)) :
  benchmark tr pr (s :: syms) sd ed sv = Ok series ->
  run tr pr (benchmark_orders s sd ed) sv 0 0 = Ok series /\
  (sd + 1 <= ed)%Z.
Proof.
  rewrite benchmark_unfold.
  destruct (Nat.eqb _ 1); [discriminate|]. intro Hrun. split; auto.
  destruct (run_index tr pr _ sv 0 0 series Hrun) as [_ Hd].
  assert (Hi : In (sd + 1)%Z (window tr (benchmark_orders s sd ed)))
    by (apply (Hd (mk_order (sd + 1) s (Some "BUY"%string) (qz 1000)));
        [now left | reflexivity]).
  rewrite window_benchmark in Hi. apply trading_days_In in Hi. lia.
Qed.

(** X20.  What [benchmark] returns: one value for every trading day from
    [sd] to [ed]; the starting cash on [sd], and after it the starting
    cash plus 1000 times the move of the price since the day after
    [sd], the day of the purchase. *)
Theorem benchmark_values (tr : Z -> bool) (pr : Z -> string -> Qc)
    (s : string) (syms : list string) (sd ed : Z) (sv : Qc)
    (series : list (Z * Qc)) :
  benchmark tr pr (s :: syms) sd ed sv = Ok series ->
  map fst series = trading_days tr sd ed /\
  forall d v, In (d, v) series ->
    v = if Z.leb d sd then sv
        else sv + qz 1000 * (pr d s - pr (sd + 1)%Z s).
Proof.
  intro Hb. destruct (benchmark_returns tr pr s syms sd ed sv series Hb)
    as [Hrun Hle].
  destruct (run_index tr pr _ sv 0 0 series Hrun) as [Hi _].
  rewrite window_benchmark in Hi. split; [exact Hi|].
  intros d v Hin.
  assert (Hd : In d (trading_days tr sd ed)).
  { rewrite <- Hi. apply (in_map fst series (d, v)). exact Hin. }
  apply trading_days_In in Hd. destruct Hd as [_ Hr].
  rewrite (value_closed_form tr pr _ sv 0 0 series d v Hrun Hin).
  unfold worth, benchmark_orders. cbn [filter Date].
  destruct (Z.leb (sd + 1) d) eqn:E1; destruct (Z.leb ed d) eqn:E2;
    destruct (Z.leb d sd) eqn:E3;
    try apply Z.leb_le in E1; try apply Z.leb_le in E2;
    try apply Z.leb_le in E3; try apply Z.leb_gt in E1;
    try apply Z.leb_gt in E2; try apply Z.leb_gt in E3; try lia;
    cbn [map sumQ fold_right];
    unfold order_worth, has_side, quantity, bos_of, is_sell; simpl.
  - assert (E : d = ed) by lia. subst d. ring.
  - ring.
  - ring.
Qed.

Lemma benchmark_values_witness :
  map fst seesaw_benchmark = trading_days every_day 1 4 /\
  forall d v, In (d, v) seesaw_benchmark ->
    v = if Z.leb d 1 then qz 100000
        else qz 100000 + qz 1000 * (seesaw d "JPM" - seesaw (1 + 1)%Z "JPM").
Proof.
  apply (benchmark_values every_day seesaw "JPM"%string [] 1 4 (qz 100000)
           seesaw_benchmark).
  vm_compute. reflexivity.
Defined.

(** X21.  The benchmark never beats the strategy: for the same symbols
    and dates, without costs and from the same starting cash, on every
    day that the two series have the value [benchmark] returns is at
    most the value of the rows of [testPolicy]. *)
Theorem benchmark_below_testPolicy (tr : Z -> bool)
    (pr : Z -> string -> Qc) (s : string) (syms : list string)
    (sd ed : Z) (sv : Qc) (rows : list order)
    (series bench : list (Z * Qc)) (d : Z) (v vb : Qc) :
  testPolicy tr pr (s :: syms) sd ed sv = Ok rows ->
  run tr pr rows sv 0 0 = Ok series ->
  benchmark tr pr (s :: syms) sd ed sv = Ok bench ->
  In (d, v) series -> In (d, vb) bench -> vb <= v.
Proof.
  intros E Hrun Hb. apply testPolicy_inv in E. subst rows.
  destruct (benchmark_returns tr pr s syms sd ed sv bench Hb)
    as [Hrun' Hle].
  apply (optimal_series tr pr s sd ed (benchmark_orders s sd ed) sv
           series bench d v vb Hrun Hrun').
  - intros o [<-|[<-|[]]] _; split; try reflexivity; simpl; lia.
  - intros x _. apply held_benchmark.
Qed.

Lemma benchmark_below_testPolicy_witness :
  snd (nth 2 seesaw_benchmark (0%Z, 0))
  <= snd (nth 3 seesaw_series (0%Z, 0)).
Proof.
  apply (benchmark_below_testPolicy every_day seesaw "JPM"%string [] 1 4
           (qz 100000) seesaw_rows seesaw_series seesaw_benchmark 3).
  - reflexivity.
  - vm_compute. reflexivity.
  - vm_compute. reflexivity.
  - apply (nth_error_In seesaw_series 3). vm_compute. reflexivity.
  - apply (nth_error_In seesaw_benchmark 2). vm_compute. reflexivity.
Defined.
